(** * StockEazy: invoices, sales records and sales analytics

    A shallow embedding of
    - the invoice part of the database schema and its triggers
      ([supabase/migrations]: tables [products], [invoices], [invoice_items],
      [sales_records]; functions [generate_invoice_number],
      [create_sales_records_on_invoice],
      [manage_sales_records_on_invoice_update]; the later migration that
      drops the trigger [create_sales_on_invoice_insert]);
    - the three analytics aggregations of the front end
      ([getProfitData] in [Profits.tsx], [getTrendingProducts] and
      [renderTable] of the trending page, the [queryFn] of [ProductSales]).

    SQL values are modelled with their NULL: a nullable column is an
    [option].  A [DECIMAL(10,2)] is the integer number of hundredths.  A
    statement that raises an error aborts its transaction: the operation
    returns [None] and there is no new database. *)

From Stdlib Require Import ZArith List String Ascii Bool Lia QArith Lqa.
From Stdlib Require Import Permutation Sorted.
Import ListNotations.

Set Implicit Arguments.
Close Scope Q_scope.

(** ** SQL values *)

Module Sql.

Abbreviation uuid := N (only parsing).
Abbreviation text := string (only parsing).
(** [DECIMAL(10,2)], in hundredths. *)
Abbreviation numeric := Z (only parsing).
Abbreviation timestamptz := Z (only parsing).

(** A column of an [INSERT]: left out (the column's [DEFAULT] applies) or
    given, possibly as [NULL]. *)
Inductive column_input (A : Type) : Type :=
| DEFAULT : column_input A
| VALUE : option A -> column_input A.
Arguments DEFAULT {A}.

Definition with_default {A} (c : column_input A) (d : option A) : option A :=
  match c with DEFAULT => d | VALUE v => v end.

(** Three-valued logic: [None] is unknown. *)
Definition eq_text (a b : option text) : option bool :=
  match a, b with
  | Some x, Some y => Some (String.eqb x y)
  | _, _ => None
  end.

Definition and3 (a b : option bool) : option bool :=
  match a, b with
  | Some false, _ | _, Some false => Some false
  | Some true, Some true => Some true
  | _, _ => None
  end.

Definition or3 (a b : option bool) : option bool :=
  match a, b with
  | Some true, _ | _, Some true => Some true
  | Some false, Some false => Some false
  | _, _ => None
  end.

(** [x IN (v1, ..., vn)] *)
Fixpoint in3 (x : option text) (vs : list text) : option bool :=
  match vs with
  | [] => Some false
  | v :: vs' => or3 (eq_text x (Some v)) (in3 x vs')
  end.

(** [IF c THEN], [WHERE c], [WHEN (c)]: taken only when [c] is true. *)
Definition holds (c : option bool) : bool :=
  match c with Some true => true | _ => false end.

(** A [CHECK (c)] constraint rejects the row only when [c] is false. *)
Definition check_passes (c : option bool) : bool :=
  match c with Some false => false | _ => true end.

(** [a IS DISTINCT FROM b] *)
Definition is_distinct_from (a b : option text) : bool :=
  match a, b with
  | None, None => false
  | Some x, Some y => negb (String.eqb x y)
  | _, _ => true
  end.

(** [a IS NULL] *)
Definition is_null {A} (a : option A) : option bool :=
  match a with None => Some true | Some _ => Some false end.

Definition coalesce {A} (a : option A) (d : A) : A :=
  match a with Some x => x | None => d end.

Definition sub (a b : option Z) : option Z :=
  match a, b with Some x, Some y => Some (x - y)%Z | _, _ => None end.

Definition mul (a b : option Z) : option Z :=
  match a, b with Some x, Some y => Some (x * y)%Z | _, _ => None end.

(** A value stored in a [DECIMAL(10,2)] column has at most ten digits:
    anything else is a "numeric field overflow". *)
Definition fits_decimal_10_2 (v : numeric) : bool :=
  (Z.abs v <? 10 ^ 10)%Z.

Definition uuid_eqb (a b : uuid) : bool := N.eqb a b.

(** [a = b] on a nullable and a non-null uuid, as a join or filter
    condition (unknown counts as no match). *)
Definition uuid_matches (a : option uuid) (b : uuid) : bool :=
  match a with Some x => uuid_eqb x b | None => false end.

End Sql.

(** ** Tables

    Only the columns that the triggers, the constraints of interest and the
    analytics read or write are kept. *)

Module Product.
Record t : Type := mk {
  id : Sql.uuid;                       (* UUID PRIMARY KEY *)
  cost_inr : option Sql.numeric        (* DECIMAL(10, 2) *)
}.
End Product.

Module Invoice.
Record t : Type := mk {
  id : Sql.uuid;                       (* UUID PRIMARY KEY *)
  invoice_number : Sql.text;           (* TEXT NOT NULL UNIQUE *)
  payment_status : option Sql.text;    (* TEXT DEFAULT 'done' CHECK (...) *)
  created_at : option Sql.timestamptz  (* TIMESTAMPTZ DEFAULT now() *)
}.
End Invoice.

Module InvoiceItem.
Record t : Type := mk {
  invoice_id : Sql.uuid;               (* REFERENCES invoices ON DELETE CASCADE NOT NULL *)
  product_id : option Sql.uuid;        (* REFERENCES products ON DELETE SET NULL *)
  product_name : Sql.text;             (* TEXT NOT NULL *)
  size_name : option Sql.text;
  color_name : option Sql.text;
  quantity : Z;                        (* INTEGER NOT NULL *)
  unit_price : Sql.numeric;            (* DECIMAL(10, 2) NOT NULL *)
  total_price : Sql.numeric            (* DECIMAL(10, 2) NOT NULL *)
}.
End InvoiceItem.

Module SalesRecord.
Record t : Type := mk {
  invoice_id : option Sql.uuid;        (* REFERENCES invoices ON DELETE SET NULL *)
  invoice_number : Sql.text;           (* TEXT NOT NULL *)
  product_id : option Sql.uuid;        (* REFERENCES products ON DELETE SET NULL *)
  product_name : Sql.text;             (* TEXT NOT NULL *)
  size_name : option Sql.text;
  color_name : option Sql.text;
  quantity : Z;                        (* INTEGER NOT NULL *)
  unit_price : Sql.numeric;            (* DECIMAL(10, 2) NOT NULL *)
  total_price : Sql.numeric;           (* DECIMAL(10, 2) NOT NULL *)
  cost_per_unit : option Sql.numeric;  (* DECIMAL(10, 2) *)
  profit_per_unit : option Sql.numeric;
  total_profit : option Sql.numeric;
  sale_date : Sql.timestamptz          (* TIMESTAMPTZ NOT NULL *)
}.
End SalesRecord.

(** The database: the four tables, and whether the trigger
    [create_sales_on_invoice_insert] is installed (the schema migration
    creates it, the later "Fix Sales Records Trigger Issue" migration drops
    it). *)
Record database : Type := mkdb {
  products : list Product.t;
  invoices : list Invoice.t;
  invoice_items : list InvoiceItem.t;
  sales_records : list SalesRecord.t;
  create_sales_on_invoice_insert : bool
}.

Definition empty_database (insert_trigger : bool) : database :=
  mkdb [] [] [] [] insert_trigger.

(** ** Invoice numbers: [generate_invoice_number] *)

Module InvoiceNumber.
Import Sql.
Local Open Scope string_scope.

Definition is_digit (c : ascii) : bool :=
  (48 <=? nat_of_ascii c)%nat && (nat_of_ascii c <=? 57)%nat.

(** The longest run of digits at the start of [s]: what [[0-9]+] takes. *)
Fixpoint digits_prefix (s : string) : string :=
  match s with
  | String c s' => if is_digit c then String c (digits_prefix s') else EmptyString
  | EmptyString => EmptyString
  end.

(** ['INV-([0-9]+)'] matched at the very start of [s]: the captured digits. *)
Definition match_here (s : string) : option string :=
  match s with
  | String "I" (String "N" (String "V" (String "-" rest))) =>
      match digits_prefix rest with
      | EmptyString => None
      | d => Some d
      end
  | _ => None
  end.

(** [SUBSTRING(s FROM 'INV-([0-9]+)')]: the pattern is not anchored, the
    leftmost match is taken, and the result is the parenthesised part;
    NULL when nothing matches. *)
Fixpoint substring_from (s : string) : option string :=
  match match_here s with
  | Some d => Some d
  | None =>
      match s with
      | EmptyString => None
      | String _ s' => substring_from s'
      end
  end.

Definition digit_value (c : ascii) : Z := (Z.of_nat (nat_of_ascii c) - 48)%Z.

Fixpoint decimal_value (acc : Z) (s : string) : Z :=
  match s with
  | EmptyString => acc
  | String c s' => decimal_value (10 * acc + digit_value c)%Z s'
  end.

Definition INTEGER_MAX : Z := 2147483647.

(** [CAST(d AS INTEGER)] of a string of digits: an error ("out of range
    for type integer") above 2^31 - 1. *)
Definition cast_integer (d : string) : option Z :=
  let v := decimal_value 0 d in
  if (v <=? INTEGER_MAX)%Z then Some v else None.

(** [MAX(...)]: NULL over no rows. *)
Definition max_agg (vs : list Z) : option Z :=
  match vs with
  | [] => None
  | v :: vs' => Some (fold_left Z.max vs' v)
  end.

(** The casts of all rows, or the first error. *)
Fixpoint cast_all (ds : list string) : option (list Z) :=
  match ds with
  | [] => Some []
  | d :: ds' =>
      match cast_integer d, cast_all ds' with
      | Some v, Some vs => Some (v :: vs)
      | _, _ => None
      end
  end.

(** The rows of [invoices] kept by [WHERE invoice_number ~ 'INV-[0-9]+']
    (those where the pattern matches somewhere, that is where [SUBSTRING]
    is not NULL), each with its [SUBSTRING(...)]. *)
Fixpoint captured (numbers : list string) : list string :=
  match numbers with
  | [] => []
  | n :: ns =>
      match substring_from n with
      | Some d => d :: captured ns
      | None => captured ns
      end
  end.

(** [SELECT COALESCE(MAX(CAST(SUBSTRING(...) AS INTEGER)), 0) + 1
     FROM invoices WHERE invoice_number ~ 'INV-[0-9]+'];
    [None] when a cast or the addition overflows [INTEGER]. *)
Definition next_number (numbers : list string) : option Z :=
  match cast_all (captured numbers) with
  | None => None
  | Some vs =>
      let n := (coalesce (max_agg vs) 0 + 1)%Z in
      if (n <=? INTEGER_MAX)%Z then Some n else None
  end.

Definition digit_char (d : Z) : ascii := ascii_of_nat (Z.to_nat (48 + d)).

(** The decimal digits of [n >= 0] in front of [acc]; an [INTEGER] has at
    most ten of them. *)
Fixpoint text_digits (fuel : nat) (n : Z) (acc : string) : string :=
  match fuel with
  | O => acc
  | S fuel' =>
      let acc' := String (digit_char (n mod 10)) acc in
      if (n <? 10)%Z then acc' else text_digits fuel' (n / 10) acc'
  end.

(** [n::TEXT] for an [INTEGER] *)
Definition integer_text (n : Z) : string :=
  if (n <? 0)%Z then String "-" (text_digits 10 (- n) EmptyString)
  else text_digits 10 n EmptyString.

Fixpoint replicate (n : nat) (fill : string) : string :=
  match n with
  | O => EmptyString
  | S n' => fill ++ replicate n' fill
  end.

(** [LPAD(s, len, fill)]: [s] is extended on the left with [fill],
    repeated as needed, up to [len] characters; a string that is already
    longer than [len] is cut to its first [len] characters. *)
Definition lpad (s : string) (len : nat) (fill : string) : string :=
  if (len <=? String.length s)%nat then substring 0 len s
  else substring 0 (len - String.length s) (replicate len fill) ++ s.

(** The body of the trigger function: the invoice number of the row to
    insert, given the numbers of the rows already in [invoices]. *)
Definition generate_invoice_number
    (existing : list string) (new_invoice_number : option string)
  : option (option string) :=
  if holds (or3 (is_null new_invoice_number)
                (eq_text new_invoice_number (Some "")))
  then
    match next_number existing with
    | None => None
    | Some n => Some (Some ("INV-" ++ lpad (integer_text n) 6 "0"))
    end
  else Some new_invoice_number.

End InvoiceNumber.

(** ** The sales-record triggers and the statements that fire them *)

Module Materializer.
Import Sql.
Local Open Scope string_scope.

(** All [Some], or the first failure. *)
Fixpoint all_rows {A} (l : list (option A)) : option (list A) :=
  match l with
  | [] => Some []
  | None :: _ => None
  | Some x :: l' =>
      match all_rows l' with
      | Some xs => Some (x :: xs)
      | None => None
      end
  end.

(** [invoice_items ii LEFT JOIN products p ON ii.product_id = p.id], for
    one item: a row per matching product, or one row with a NULL product. *)
Definition left_join_products (ps : list Product.t) (ii : InvoiceItem.t)
  : list (InvoiceItem.t * option Product.t) :=
  match filter (fun p => uuid_matches (InvoiceItem.product_id ii) (Product.id p)) ps with
  | [] => [(ii, None)]
  | joined => map (fun p => (ii, Some p)) joined
  end.

(** [p.cost_inr] in a row of the join. *)
Definition joined_cost (p : option Product.t) : option numeric :=
  match p with Some p' => Product.cost_inr p' | None => None end.

(** [FROM invoice_items ii LEFT JOIN products p ON ... WHERE ii.invoice_id = NEW.id] *)
Definition joined_rows (db : database) (NEW : Invoice.t)
  : list (InvoiceItem.t * option Product.t) :=
  filter (fun row => uuid_eqb (InvoiceItem.invoice_id (fst row)) (Invoice.id NEW))
         (flat_map (left_join_products (products db)) (invoice_items db)).

(** One row of the [SELECT] list, inserted into [sales_records]; [None]
    when the row violates [sale_date NOT NULL] or overflows a
    [DECIMAL(10,2)] column. *)
Definition select_row (NEW : Invoice.t) (row : InvoiceItem.t * option Product.t)
  : option SalesRecord.t :=
  let ii := fst row in
  let cost := joined_cost (snd row) in
  let unit_price := InvoiceItem.unit_price ii in
  let cost_per_unit := coalesce cost 0%Z in
  let profit_per_unit := coalesce (sub (Some unit_price) cost) unit_price in
  let total_profit :=
    coalesce (mul (sub (Some unit_price) cost) (Some (InvoiceItem.quantity ii)))
             (InvoiceItem.total_price ii) in
  match Invoice.created_at NEW with
  | None => None
  | Some sale_date =>
      if fits_decimal_10_2 unit_price
         && fits_decimal_10_2 (InvoiceItem.total_price ii)
         && fits_decimal_10_2 cost_per_unit
         && fits_decimal_10_2 profit_per_unit
         && fits_decimal_10_2 total_profit
      then Some (SalesRecord.mk
                   (Some (Invoice.id NEW))
                   (Invoice.invoice_number NEW)
                   (InvoiceItem.product_id ii)
                   (InvoiceItem.product_name ii)
                   (InvoiceItem.size_name ii)
                   (InvoiceItem.color_name ii)
                   (InvoiceItem.quantity ii)
                   unit_price
                   (InvoiceItem.total_price ii)
                   (Some cost_per_unit)
                   (Some profit_per_unit)
                   (Some total_profit)
                   sale_date)
      else None
  end.

Definition set_sales_records (db : database) (rs : list SalesRecord.t) : database :=
  mkdb (products db) (invoices db) (invoice_items db) rs
       (create_sales_on_invoice_insert db).

Definition set_invoices (db : database) (rows : list Invoice.t) : database :=
  mkdb (products db) rows (invoice_items db) (sales_records db)
       (create_sales_on_invoice_insert db).

(** [INSERT INTO public.sales_records (...) SELECT ... WHERE ii.invoice_id = NEW.id]:
    the same statement in both trigger functions. *)
Definition insert_sales_records (db : database) (NEW : Invoice.t) : option database :=
  match all_rows (map (select_row NEW) (joined_rows db NEW)) with
  | Some rs => Some (set_sales_records db (sales_records db ++ rs))
  | None => None
  end.

(** [DELETE FROM public.sales_records WHERE invoice_id = NEW.id] *)
Definition delete_sales_records (db : database) (NEW : Invoice.t) : database :=
  set_sales_records db
    (filter (fun r => negb (uuid_matches (SalesRecord.invoice_id r) (Invoice.id NEW)))
            (sales_records db)).

Definition create_sales_records_on_invoice (db : database) (NEW : Invoice.t)
  : option database :=
  if holds (eq_text (Invoice.payment_status NEW) (Some "done"))
  then insert_sales_records db NEW
  else Some db.

Definition manage_sales_records_on_invoice_update
    (db : database) (OLD NEW : Invoice.t) : option database :=
  match
    (if holds (and3 (eq_text (Invoice.payment_status OLD) (Some "pending"))
                    (eq_text (Invoice.payment_status NEW) (Some "done")))
     then insert_sales_records db NEW
     else Some db)
  with
  | None => None
  | Some db1 =>
      if holds (and3 (eq_text (Invoice.payment_status OLD) (Some "done"))
                     (eq_text (Invoice.payment_status NEW) (Some "pending")))
      then Some (delete_sales_records db1 NEW)
      else Some db1
  end.

(** The [CHECK (payment_status IN ('done', 'pending'))] of [invoices]. *)
Definition payment_status_check (s : option text) : bool :=
  check_passes (in3 s ["done"; "pending"]).

(** The values of an [INSERT INTO invoices]. *)
Record new_invoice : Type := mk_new_invoice {
  new_id : uuid;
  new_invoice_number : option text;
  new_payment_status : column_input text;
  new_created_at : column_input timestamptz
}.

Definition find_invoice (db : database) (id : uuid) : option Invoice.t :=
  find (fun i => uuid_eqb (Invoice.id i) id) (invoices db).

Definition string_mem (s : string) (l : list string) : bool :=
  existsb (String.eqb s) l.

(** [INSERT INTO invoices]: defaults, the [BEFORE INSERT] trigger
    [set_invoice_number], the constraints of the table, then the
    [AFTER INSERT] trigger when it is installed. *)
Definition insert_invoice (db : database) (now : timestamptz) (row : new_invoice)
  : option database :=
  let status := with_default (new_payment_status row) (Some "done") in
  let created := with_default (new_created_at row) (Some now) in
  let numbers := map Invoice.invoice_number (invoices db) in
  match InvoiceNumber.generate_invoice_number numbers (new_invoice_number row) with
  | Some (Some number) =>
      if payment_status_check status
         && negb (existsb (uuid_eqb (new_id row)) (map Invoice.id (invoices db)))
         && negb (string_mem number numbers)
      then
        let NEW := Invoice.mk (new_id row) number status created in
        let db1 := set_invoices db (invoices db ++ [NEW]) in
        if create_sales_on_invoice_insert db
        then create_sales_records_on_invoice db1 NEW
        else Some db1
      else None
  | _ => None
  end.

Definition set_payment_status (i : Invoice.t) (s : option text) : Invoice.t :=
  Invoice.mk (Invoice.id i) (Invoice.invoice_number i) s (Invoice.created_at i).

(** The rows of [invoices] after [SET payment_status = s WHERE id = ...]. *)
Definition updated_invoices (db : database) (id : uuid) (s : option text)
  : list Invoice.t :=
  map (fun i => if uuid_eqb (Invoice.id i) id then set_payment_status i s else i)
      (invoices db).

(** [UPDATE invoices SET payment_status = s WHERE id = ...], with the
    trigger [manage_sales_on_invoice_update] and its [WHEN] clause. *)
Definition update_payment_status (db : database) (id : uuid) (s : option text)
  : option database :=
  match find_invoice db id with
  | None => Some db
  | Some OLD =>
      let NEW := set_payment_status OLD s in
      if payment_status_check s then
        let db1 := set_invoices db (updated_invoices db id s) in
        if is_distinct_from (Invoice.payment_status OLD) (Invoice.payment_status NEW)
        then manage_sales_records_on_invoice_update db1 OLD NEW
        else Some db1
      else None
  end.

Definition clear_invoice_id (id : uuid) (r : SalesRecord.t) : SalesRecord.t :=
  if uuid_matches (SalesRecord.invoice_id r) id
  then SalesRecord.mk None
         (SalesRecord.invoice_number r) (SalesRecord.product_id r)
         (SalesRecord.product_name r) (SalesRecord.size_name r)
         (SalesRecord.color_name r) (SalesRecord.quantity r)
         (SalesRecord.unit_price r) (SalesRecord.total_price r)
         (SalesRecord.cost_per_unit r) (SalesRecord.profit_per_unit r)
         (SalesRecord.total_profit r) (SalesRecord.sale_date r)
  else r.

(** [DELETE FROM invoices WHERE id = ...]: [invoice_items.invoice_id] is
    [ON DELETE CASCADE], [sales_records.invoice_id] is [ON DELETE SET NULL]. *)
Definition delete_invoice (db : database) (id : uuid) : database :=
  mkdb (products db)
       (filter (fun i => negb (uuid_eqb (Invoice.id i) id)) (invoices db))
       (filter (fun ii => negb (uuid_eqb (InvoiceItem.invoice_id ii) id))
               (invoice_items db))
       (map (clear_invoice_id id) (sales_records db))
       (create_sales_on_invoice_insert db).

(** [INSERT INTO invoice_items]: the two foreign keys and the
    [DECIMAL(10,2)] columns. *)
Definition insert_invoice_item (db : database) (ii : InvoiceItem.t) : option database :=
  if existsb (uuid_eqb (InvoiceItem.invoice_id ii)) (map Invoice.id (invoices db))
     && match InvoiceItem.product_id ii with
        | None => true
        | Some p => existsb (uuid_eqb p) (map Product.id (products db))
        end
     && fits_decimal_10_2 (InvoiceItem.unit_price ii)
     && fits_decimal_10_2 (InvoiceItem.total_price ii)
  then Some (mkdb (products db) (invoices db) (invoice_items db ++ [ii])
                  (sales_records db) (create_sales_on_invoice_insert db))
  else None.

(** The statements on invoices and their items. *)
Inductive statement : Type :=
| InsertInvoice (now : timestamptz) (row : new_invoice)
| UpdatePaymentStatus (id : uuid) (s : option text)
| DeleteInvoice (id : uuid)
| InsertInvoiceItem (ii : InvoiceItem.t).

Definition execute (db : database) (st : statement) : option database :=
  match st with
  | InsertInvoice now row => insert_invoice db now row
  | UpdatePaymentStatus id s => update_payment_status db id s
  | DeleteInvoice id => Some (delete_invoice db id)
  | InsertInvoiceItem ii => insert_invoice_item db ii
  end.

(** A sequence of statements, each in its own transaction: a failed
    statement changes nothing. *)
Fixpoint run (db : database) (sts : list statement) : database :=
  match sts with
  | [] => db
  | st :: sts' =>
      match execute db st with
      | Some db' => run db' sts'
      | None => run db sts'
      end
  end.

(** The sales records of an invoice, and its items. *)
Definition sales_of (db : database) (id : uuid) : list SalesRecord.t :=
  filter (fun r => uuid_matches (SalesRecord.invoice_id r) id) (sales_records db).

Definition items_of (db : database) (id : uuid) : list InvoiceItem.t :=
  filter (fun ii => uuid_eqb (InvoiceItem.invoice_id ii) id) (invoice_items db).

End Materializer.

(** ** The JavaScript side

    A [number] whose value is always finite in the code below is a rational;
    the result of a division, which JavaScript does not guard, is a [number]
    with its [NaN] and infinities (the accumulators start at [+0] and are
    only added to, so no negative zero reaches a division).  Rounding of
    IEEE doubles is not modelled. *)

Module Js.

Inductive number : Type :=
| Finite (q : Q)
| PosInfinity
| NegInfinity
| NaN.

Definition positive (q : Q) : bool := (0 <? Qnum q)%Z.
Definition is_zero (q : Q) : bool := (Qnum q =? 0)%Z.

(** [a / b] *)
Definition div (a b : Q) : number :=
  if is_zero b then
    if is_zero a then NaN
    else if positive a then PosInfinity else NegInfinity
  else Finite (a / b).

(** [Number(v)] of a JSON number or [null] *)
Definition Number (v : option Q) : Q :=
  match v with Some q => q | None => 0%Q end.

(** The JSON number of a [DECIMAL(10,2)] and of an [INTEGER]. *)
Definition of_numeric (v : Z) : Q := (v # 100)%Q.
Definition of_integer (v : Z) : Q := inject_Z v.

(** A row of [sales_records] as the client receives it. *)
Record record : Type := mk_record {
  product_id : option N;
  product_name : string;
  quantity : Q;
  total_price : Q;
  cost_per_unit : option Q;
  total_profit : option Q
}.

Definition json_row (r : SalesRecord.t) : record :=
  mk_record (SalesRecord.product_id r)
            (SalesRecord.product_name r)
            (of_integer (SalesRecord.quantity r))
            (of_numeric (SalesRecord.total_price r))
            (option_map of_numeric (SalesRecord.cost_per_unit r))
            (option_map of_numeric (SalesRecord.total_profit r)).

(** [supabase.from("sales_records").select(...)
      .gte("sale_date", startDate).lte("sale_date", endDate)] *)
Definition select_sales_records (db : database) (startDate endDate : Z)
  : list record :=
  map json_row
      (filter (fun r => (startDate <=? SalesRecord.sale_date r)%Z
                        && (SalesRecord.sale_date r <=? endDate)%Z)
              (sales_records db)).

(** An object used as a dictionary, or a [Map]: the entries in insertion
    order; setting an existing key keeps its place. *)
Section Dictionary.
Variables K V : Type.
Variable eqb : K -> K -> bool.

Fixpoint get (o : list (K * V)) (k : K) : option V :=
  match o with
  | [] => None
  | (k', v) :: o' => if eqb k' k then Some v else get o' k
  end.

Fixpoint set (o : list (K * V)) (k : K) (v : V) : list (K * V) :=
  match o with
  | [] => [(k, v)]
  | (k', v') :: o' =>
      if eqb k' k then (k', v) :: o' else (k', v') :: set o' k v
  end.

(** [Object.values(o)] *)
Definition values (o : list (K * V)) : list V := map snd o.

(** [Array.from(m.entries())] *)
Definition entries (o : list (K * V)) : list (K * V) := o.
End Dictionary.

(** [Array.prototype.sort(comparefn)]: a stable sort; [b] goes in front
    of [a] only when [comparefn(a, b) > 0]. *)
Section Sort.
Variable A : Type.
Variable comparefn : A -> A -> Q.

Fixpoint insert (x : A) (l : list A) : list A :=
  match l with
  | [] => [x]
  | y :: l' =>
      if positive (comparefn x y) then y :: insert x l' else x :: l
  end.

Fixpoint sort (l : list A) : list A :=
  match l with
  | [] => []
  | x :: l' => insert x (sort l')
  end.
End Sort.

(** [a.slice(0, n)] *)
Definition slice0 {A} (n : nat) (a : list A) : list A := firstn n a.

(** The key of [record.product_id] in an object: the uuid, or ["null"]. *)
Definition key_eqb (a b : option N) : bool :=
  match a, b with
  | Some x, Some y => N.eqb x y
  | None, None => true
  | _, _ => false
  end.

End Js.

(** ** [Profits.tsx] *)

Module Profits.
Import Js.
Local Open Scope Q_scope.

Record product_profit : Type := mk_product_profit {
  product_id : option N;
  product_name : string;
  total_quantity : Q;
  total_revenue : Q;
  total_cost : Q;
  total_profit : Q;
  avg_sale_price : number;
  avg_cost_price : number
}.

Record accumulator : Type := mk_accumulator {
  acc_totalRevenue : Q;
  acc_totalCost : Q;
  acc_productProfits : list (option N * product_profit)
}.

(** The body of [data.forEach((record) => { ... })]. *)
Definition forEach_body (acc : accumulator) (record : Js.record) : accumulator :=
  let itemCost := Number (Js.cost_per_unit record) * Js.quantity record in
  let itemRevenue := Number (Some (Js.total_price record)) in
  let itemProfit := Number (Js.total_profit record) in
  let key := Js.product_id record in
  let entry :=
    match get key_eqb (acc_productProfits acc) key with
    | Some p => p
    | None =>
        mk_product_profit (Js.product_id record) (Js.product_name record)
                          0 0 0 0 (Finite 0) (Finite 0)
    end in
  mk_accumulator
    (acc_totalRevenue acc + itemRevenue)
    (acc_totalCost acc + itemCost)
    (set key_eqb (acc_productProfits acc) key
         (mk_product_profit
            (product_id entry) (product_name entry)
            (total_quantity entry + Js.quantity record)
            (total_revenue entry + itemRevenue)
            (total_cost entry + itemCost)
            (total_profit entry + itemProfit)
            (avg_sale_price entry) (avg_cost_price entry))).

(** The body of [Object.values(productProfits).forEach((p) => { ... })]. *)
Definition set_averages (p : product_profit) : product_profit :=
  mk_product_profit
    (product_id p) (product_name p)
    (total_quantity p) (total_revenue p) (total_cost p) (total_profit p)
    (div (total_revenue p) (total_quantity p))
    (div (total_cost p) (total_quantity p)).

Record profit_data : Type := mk_profit_data {
  totalProfit : Q;
  totalRevenue : Q;
  totalCost : Q;
  products : list product_profit
}.

Definition aggregate (data : list Js.record) : profit_data :=
  let acc := fold_left forEach_body data (mk_accumulator 0 0 []) in
  let productProfits := map set_averages (values (acc_productProfits acc)) in
  mk_profit_data
    (acc_totalRevenue acc - acc_totalCost acc)
    (acc_totalRevenue acc)
    (acc_totalCost acc)
    (sort (fun a b => total_profit b - total_profit a) productProfits).

Definition getProfitData (db : database) (startDate endDate : Z) : profit_data :=
  aggregate (select_sales_records db startDate endDate).

End Profits.

(** ** The trending page *)

Module Trending.
Import Js.
Local Open Scope Q_scope.

Record product_stats : Type := mk_product_stats {
  product_id : option N;
  product_name : string;
  total_quantity : Q;
  total_revenue : Q
}.

(** The callback of [data.reduce((acc, record) => { ... }, {})]. *)
Definition reducer (acc : list (option N * product_stats)) (record : Js.record)
  : list (option N * product_stats) :=
  let key := Js.product_id record in
  let entry :=
    match get key_eqb acc key with
    | Some p => p
    | None => mk_product_stats (Js.product_id record) (Js.product_name record) 0 0
    end in
  set key_eqb acc key
      (mk_product_stats
         (product_id entry) (product_name entry)
         (total_quantity entry + Js.quantity record)
         (total_revenue entry + Number (Some (Js.total_price record)))).

Definition productStats (data : list Js.record) : list (option N * product_stats) :=
  fold_left reducer data [].

Definition trending (data : list Js.record) : list product_stats :=
  slice0 20 (values (productStats data)).

Definition getTrendingProducts (db : database) (startDate endDate : Z)
  : list product_stats :=
  trending (select_sales_records db startDate endDate).

(** The state [sortBy] of the page. *)
Inductive sort_by : Type := quantity | revenue.

Definition comparefn (sortBy : sort_by) (a b : product_stats) : Q :=
  match sortBy with
  | quantity => total_quantity b - total_quantity a
  | revenue => total_revenue b - total_revenue a
  end.

(** The rows of the table that [renderTable] shows, top to bottom (the
    rank shown is the position); no row when there is no product. *)
Definition renderTable (sortBy : sort_by) (products : list product_stats)
  : list product_stats :=
  match products with
  | [] => []
  | _ => sort (comparefn sortBy) products
  end.

(** What the page displays for a period. *)
Definition displayed (sortBy : sort_by) (db : database) (startDate endDate : Z)
  : list product_stats :=
  renderTable sortBy (getTrendingProducts db startDate endDate).

End Trending.

(** ** The product-sales card *)

Module ProductSales.
Import Js.
Local Open Scope Q_scope.

Record totals : Type := mk_totals { t_quantity : Q; t_revenue : Q }.

Record product_sale : Type := mk_product_sale {
  name : string;
  quantity : Q;
  revenue : Q
}.

(** The body of [records.forEach((record) => { ... })] on [productMap]. *)
Definition forEach_body (productMap : list (string * totals)) (record : Js.record)
  : list (string * totals) :=
  let existing :=
    match get String.eqb productMap (Js.product_name record) with
    | Some t => t
    | None => mk_totals 0 0
    end in
  set String.eqb productMap (Js.product_name record)
      (mk_totals (t_quantity existing + Js.quantity record)
                 (t_revenue existing + Number (Some (Js.total_price record)))).

Definition aggregate (records : list Js.record) : list product_sale :=
  match records with
  | [] => []
  | _ =>
      let productMap := fold_left forEach_body records [] in
      sort (fun a b => revenue b - revenue a)
           (map (fun e => mk_product_sale (fst e) (t_quantity (snd e)) (t_revenue (snd e)))
                (entries productMap))
  end.

(** The [queryFn] of the component; [start] and [end] are the bounds of
    the selected day. *)
Definition queryFn (db : database) (startOfDay endOfDay : Z) : list product_sale :=
  aggregate (select_sales_records db startOfDay endOfDay).

End ProductSales.

(** ** Statements of the properties *)

Module Spec.
Import Sql Materializer.
Local Open Scope string_scope.

(** The constraints of the schema: primary keys and foreign keys. *)
Record well_formed (db : database) : Prop := mk_well_formed {
  products_pkey : NoDup (map Product.id (products db));
  invoices_pkey : NoDup (map Invoice.id (invoices db));
  invoice_items_fkey :
    forall ii, In ii (invoice_items db) ->
               In (InvoiceItem.invoice_id ii) (map Invoice.id (invoices db));
  sales_records_fkey :
    forall r id, In r (sales_records db) ->
                 SalesRecord.invoice_id r = Some id ->
                 In id (map Invoice.id (invoices db))
}.

(** The invariant as the specification words it: an invoice has sales
    records if and only if it is done. *)
Definition sales_iff_done (db : database) : Prop :=
  forall i, In i (invoices db) ->
            (sales_of db (Invoice.id i) <> [] <->
             Invoice.payment_status i = Some "done").

(** The direction of it that the triggers maintain. *)
Definition sales_only_if_done (db : database) : Prop :=
  forall i, In i (invoices db) ->
            sales_of db (Invoice.id i) <> [] ->
            Invoice.payment_status i = Some "done".

(** A statement that does not set a payment status to NULL. *)
Definition sets_no_null_status (st : statement) : Prop :=
  match st with
  | UpdatePaymentStatus _ None => False
  | _ => True
  end.

(** The product that an item refers to, if it (still) exists. *)
Definition referenced_product (db : database) (ii : InvoiceItem.t)
  : option Product.t :=
  match InvoiceItem.product_id ii with
  | None => None
  | Some pid => find (fun p => N.eqb (Product.id p) pid) (products db)
  end.

(** Its current cost; NULL when the product is missing or has no cost. *)
Definition current_cost (db : database) (ii : InvoiceItem.t) : option Z :=
  match referenced_product db ii with
  | Some p => Product.cost_inr p
  | None => None
  end.

(** The sales record that the specification asks for an item of an
    invoice. *)
Record materializes (db : database) (inv : Invoice.t)
       (ii : InvoiceItem.t) (r : SalesRecord.t) : Prop := mk_materializes {
  m_invoice_id : SalesRecord.invoice_id r = Some (Invoice.id inv);
  m_product_id : SalesRecord.product_id r = InvoiceItem.product_id ii;
  m_product_name : SalesRecord.product_name r = InvoiceItem.product_name ii;
  m_size_name : SalesRecord.size_name r = InvoiceItem.size_name ii;
  m_color_name : SalesRecord.color_name r = InvoiceItem.color_name ii;
  m_quantity : SalesRecord.quantity r = InvoiceItem.quantity ii;
  m_unit_price : SalesRecord.unit_price r = InvoiceItem.unit_price ii;
  m_total_price : SalesRecord.total_price r = InvoiceItem.total_price ii;
  m_cost_per_unit :
    SalesRecord.cost_per_unit r =
    Some (match current_cost db ii with Some c => c | None => 0 end)%Z;
  m_profit_per_unit :
    SalesRecord.profit_per_unit r =
    Some (match current_cost db ii with
          | Some c => InvoiceItem.unit_price ii - c
          | None => InvoiceItem.unit_price ii
          end)%Z;
  m_total_profit :
    SalesRecord.total_profit r =
    match current_cost db ii, SalesRecord.profit_per_unit r with
    | Some _, Some profit => Some (profit * InvoiceItem.quantity ii)%Z
    | _, _ => Some (InvoiceItem.total_price ii)
    end;
  m_sale_date : Invoice.created_at inv = Some (SalesRecord.sale_date r)
}.

(** The amounts of a row of the join fit the [DECIMAL(10,2)] columns of
    [sales_records]. *)
Definition amounts_fit (cost : option Z) (ii : InvoiceItem.t) : bool :=
  fits_decimal_10_2 (InvoiceItem.unit_price ii)
  && fits_decimal_10_2 (InvoiceItem.total_price ii)
  && fits_decimal_10_2 (coalesce cost 0%Z)
  && fits_decimal_10_2 (coalesce (sub (Some (InvoiceItem.unit_price ii)) cost)
                                 (InvoiceItem.unit_price ii))
  && fits_decimal_10_2
       (coalesce (mul (sub (Some (InvoiceItem.unit_price ii)) cost)
                      (Some (InvoiceItem.quantity ii)))
                 (InvoiceItem.total_price ii)).

(** [inv] is done in [db'], and in [db] it did not exist or was pending:
    it was created as done, or updated from pending to done. *)
Definition enters_done (db db' : database) (inv : Invoice.t) : Prop :=
  In inv (invoices db') /\
  Invoice.payment_status inv = Some "done" /\
  forall old, In old (invoices db) -> Invoice.id old = Invoice.id inv ->
              Invoice.payment_status old = Some "pending".

(** The values that the column [payment_status] can hold. *)
Definition status_in_domain (s : option string) : Prop :=
  s = None \/ s = Some "done" \/ s = Some "pending".

(** The claim that the column only holds 'pending' or 'done'. *)
Definition status_done_or_pending (s : option string) : Prop :=
  s = Some "done" \/ s = Some "pending".

(** Every invoice has a payment status of the domain. *)
Definition statuses_in_domain (db : database) : Prop :=
  forall i, In i (invoices db) -> status_in_domain (Invoice.payment_status i).

End Spec.

(** ** Example data *)

Module Examples.
Import Sql Materializer.
Local Open Scope string_scope.
Local Open Scope list_scope.

Definition shirt : Product.t := Product.mk 7 (Some 6000%Z).

Definition shirt_item : InvoiceItem.t :=
  InvoiceItem.mk 1 (Some 7%N) "Shirt" (Some "M") (Some "Blue") 2 10000 20000.

(** An item whose product has been deleted. *)
Definition cap_item : InvoiceItem.t :=
  InvoiceItem.mk 1 None "Cap" None None 1 5000 5000.

Definition catalog : database := mkdb [shirt] [] [] [] false.

(** An invoice made without a number and without a status. *)
Definition plain_invoice (id : N) : new_invoice :=
  mk_new_invoice id None DEFAULT DEFAULT.

Definition pending_invoice (id : N) : new_invoice :=
  mk_new_invoice id None (VALUE (Some "pending")) DEFAULT.

(** A pending invoice with two items. *)
Definition pending_db : database :=
  run catalog [InsertInvoice 100 (pending_invoice 1);
               InsertInvoiceItem shirt_item;
               InsertInvoiceItem cap_item].

(** The same invoice, marked as done: its two sales records exist. *)
Definition done_db : database :=
  run pending_db [UpdatePaymentStatus 1 (Some "done")].

Definition invoice_1_done : Invoice.t :=
  Invoice.mk 1 "INV-000001" (Some "done") (Some 100%Z).

Definition invoice_1_pending : Invoice.t :=
  Invoice.mk 1 "INV-000001" (Some "pending") (Some 100%Z).

Definition shirt_sale : SalesRecord.t :=
  SalesRecord.mk (Some 1%N) "INV-000001" (Some 7%N) "Shirt" (Some "M") (Some "Blue")
                 2 10000 20000 (Some 6000%Z) (Some 4000%Z) (Some 8000%Z) 100.

Definition cap_sale : SalesRecord.t :=
  SalesRecord.mk (Some 1%N) "INV-000001" None "Cap" None None
                 1 5000 5000 (Some 0%Z) (Some 5000%Z) (Some 5000%Z) 100.

End Examples.

(** ** The invoice number of the specification *)

Module InvoiceNumberSpec.
Import Sql InvoiceNumber.
Local Open Scope string_scope.

(** Zero padding as the specification means it: zeros in front up to the
    width, and a longer string as it is. *)
Definition zero_pad (width : nat) (s : string) : string :=
  replicate (width - String.length s) "0" ++ s.

(** The decimal text of a natural number of any size. *)
Definition decimal_text (n : Z) : string :=
  text_digits (S (Z.to_nat (Z.log2 n))) n EmptyString.

(** The number that the specification assigns: the largest numeric suffix of
    the existing numbers that match, plus one, zero-padded to six digits. *)
Definition spec_invoice_number (existing : list string) : string :=
  let suffixes := map (decimal_value 0) (captured existing) in
  "INV-" ++ zero_pad 6 (decimal_text (coalesce (max_agg suffixes) 0 + 1)%Z).

(** A string of decimal digits. *)
Fixpoint all_digits (s : string) : bool :=
  match s with
  | EmptyString => true
  | String c s' => is_digit c && all_digits s'
  end.

End InvoiceNumberSpec.

(** ** Sums, groups and orders *)

Module AnalyticsSpec.
Local Open Scope Q_scope.

(** The sum of a list of numbers, added from left to right. *)
Definition sumQ (l : list Q) : Q := fold_left Qplus l 0.

(** [Number(record.cost_per_unit) * record.quantity] *)
Definition item_cost (r : Js.record) : Q :=
  Js.Number (Js.cost_per_unit r) * Js.quantity r.

(** The grouping key that the specification gives for the product-sales
    view: the product id, and the product name where there is no id. *)
Definition spec_grouping_key (r : Js.record) : N + string :=
  match Js.product_id r with
  | Some id => inl id
  | None => inr (Js.product_name r)
  end.

(** The trending list as the specification orders the steps: sort, then
    keep the first twenty. *)
Definition spec_top20 (sortBy : Trending.sort_by) (data : list Js.record)
  : list Trending.product_stats :=
  Js.slice0 20 (Js.sort (Trending.comparefn sortBy)
                        (Js.values (Trending.productStats data))).

(** Sorting with [(a, b) => f(b) - f(a)] orders by [f], largest first. *)
Definition descending (A : Type) (f : A -> Q) (a b : A) : Prop := f b <= f a.

(** The three loops that group records have one shape: the entry of the
    record's key is created from the record when it is missing, and then
    updated with the record. *)
Section Upsert.
Variables K V R : Type.
Variable eqb : K -> K -> bool.
Variable key : R -> K.
Variable init : R -> V.
Variable step : V -> R -> V.

(** [if (!o[key]) o[key] = init; o[key] = step(o[key], record)] *)
Definition upsert (o : list (K * V)) (record : R) : list (K * V) :=
  Js.set eqb o (key record)
         (step (match Js.get eqb o (key record) with
                | Some v => v
                | None => init record
                end) record).

(** The records of a key, in their order. *)
Definition records_of (k : K) (data : list R) : list R :=
  filter (fun r => eqb (key r) k) data.

End Upsert.

End AnalyticsSpec.

Module ProfitsLoop.
Import Js Profits AnalyticsSpec.
Local Open Scope Q_scope.

(** The entry that [getProfitData] creates for a record, and its update. *)
Definition profit_init (r : Js.record) : product_profit :=
  mk_product_profit (Js.product_id r) (Js.product_name r)
                    0 0 0 0 (Finite 0) (Finite 0).

Definition profit_step (e : product_profit) (r : Js.record)
  : product_profit :=
  mk_product_profit
    (product_id e) (product_name e)
    (total_quantity e + Js.quantity r)
    (total_revenue e + Js.total_price r)
    (total_cost e + item_cost r)
    (total_profit e + Number (Js.total_profit r))
    (avg_sale_price e) (avg_cost_price e).

End ProfitsLoop.

Module ProductSalesLoop.
Import Js ProductSales.
Local Open Scope Q_scope.

(** The totals that [ProductSales] starts a name with, and their update. *)
Definition totals_init (_ : Js.record) : totals := mk_totals 0 0.

Definition totals_step (t : totals) (r : Js.record) : totals :=
  mk_totals (t_quantity t + Js.quantity r) (t_revenue t + Js.total_price r).

Definition product_sale_of (e : string * totals) : product_sale :=
  mk_product_sale (fst e) (t_quantity (snd e)) (t_revenue (snd e)).

End ProductSalesLoop.

(** ** Example sales *)

Module ProfitsExample.
Local Open Scope string_scope.

(** Two sales of product A: two units and one unit, at 100.00 with a cost
    of 60.00 per unit. *)
Definition prodA_db : database :=
  mkdb [] [] []
       [SalesRecord.mk (Some 1%N) "INV-000001" (Some 10%N) "ProdA" None None
                       2 10000 20000 (Some 6000%Z) (Some 4000%Z) (Some 8000%Z) 50;
        SalesRecord.mk (Some 2%N) "INV-000002" (Some 10%N) "ProdA" None None
                       1 10000 10000 (Some 6000%Z) (Some 4000%Z) (Some 4000%Z) 60]
       false.

(** A sale with quantity 0, which the columns [INTEGER NOT NULL] of
    [invoice_items] and [sales_records] admit. *)
Definition zero_quantity_db : database :=
  mkdb [] [] []
       [SalesRecord.mk (Some 1%N) "INV-000001" (Some 10%N) "ProdA" None None
                       0 10000 0 (Some 6000%Z) (Some 4000%Z) (Some 0%Z) 50]
       false.

End ProfitsExample.

Module TrendingExample.
Local Open Scope string_scope.

(** One sale of product [n]: [quantity] units at 10.00. *)
Definition sale (n : nat) (quantity : Z) : SalesRecord.t :=
  SalesRecord.mk (Some 1%N) "INV-000001" (Some (N.of_nat n)) "Product" None None
                 quantity 1000 (1000 * quantity) None None None 50.

(** Twenty-one products: one unit of each of the first twenty, then a
    hundred units of the twenty-first. *)
Definition twenty_one_products_db : database :=
  mkdb [] [] [] (map (fun n => sale n 1) (seq 1 20) ++ [sale 21 100]) false.

(** P1 with 10 units and a revenue of 1000, P2 with 15 units and 800. *)
Definition two_products_db : database :=
  mkdb [] [] []
       [SalesRecord.mk (Some 1%N) "INV-000001" (Some 1%N) "P1" None None
                       10 10000 100000 None None None 50;
        SalesRecord.mk (Some 1%N) "INV-000001" (Some 2%N) "P2" None None
                       15 5333 80000 None None None 50]
       false.

End TrendingExample.

Module ProductSalesExample.
Local Open Scope string_scope.

(** Two products with the same name. *)
Definition same_name_db : database :=
  mkdb [] [] []
       [SalesRecord.mk (Some 1%N) "INV-000001" (Some 1%N) "Shirt" None None
                       1 10000 10000 None None None 50;
        SalesRecord.mk (Some 1%N) "INV-000001" (Some 2%N) "Shirt" None None
                       2 20000 40000 None None None 50]
       false.

(** One product sold under two names (it was renamed between the sales). *)
Definition renamed_db : database :=
  mkdb [] [] []
       [SalesRecord.mk (Some 1%N) "INV-000001" (Some 1%N) "Shirt" None None
                       1 10000 10000 None None None 50;
        SalesRecord.mk (Some 2%N) "INV-000002" (Some 1%N) "Shirt (old)" None None
                       2 10000 20000 None None None 50]
       false.

End ProductSalesExample.

(** ** Deleting a product *)

Module Catalog.
Import Sql.

Definition clear_item_product (pid : uuid) (ii : InvoiceItem.t) : InvoiceItem.t :=
  if uuid_matches (InvoiceItem.product_id ii) pid
  then InvoiceItem.mk (InvoiceItem.invoice_id ii) None
         (InvoiceItem.product_name ii) (InvoiceItem.size_name ii)
         (InvoiceItem.color_name ii) (InvoiceItem.quantity ii)
         (InvoiceItem.unit_price ii) (InvoiceItem.total_price ii)
  else ii.

Definition clear_sale_product (pid : uuid) (r : SalesRecord.t) : SalesRecord.t :=
  if uuid_matches (SalesRecord.product_id r) pid
  then SalesRecord.mk (SalesRecord.invoice_id r)
         (SalesRecord.invoice_number r) None
         (SalesRecord.product_name r) (SalesRecord.size_name r)
         (SalesRecord.color_name r) (SalesRecord.quantity r)
         (SalesRecord.unit_price r) (SalesRecord.total_price r)
         (SalesRecord.cost_per_unit r) (SalesRecord.profit_per_unit r)
         (SalesRecord.total_profit r) (SalesRecord.sale_date r)
  else r.

(** [DELETE FROM products WHERE id = ...]: [invoice_items.product_id] and
    [sales_records.product_id] are [ON DELETE SET NULL].  (The tables
    [product_inventory] and [product_size_prices], which cascade, are not
    part of [database].) *)
Definition delete_product (db : database) (pid : uuid) : database :=
  mkdb (filter (fun p => negb (uuid_eqb (Product.id p) pid)) (products db))
       (invoices db)
       (map (clear_item_product pid) (invoice_items db))
       (map (clear_sale_product pid) (sales_records db))
       (create_sales_on_invoice_insert db).

End Catalog.

(** ** The rows that the schema migration inserts *)

Module Seeds.
Local Open Scope string_scope.

(** [INSERT INTO t ... VALUES row1, row2, ... ON CONFLICT (name) DO NOTHING]
    on a table whose column [name] is [UNIQUE]: a row whose name is in the
    table already (or was inserted by an earlier row of the statement) is
    skipped. *)
Section OnConflictDoNothing.
Variable Row : Type.
Variable name : Row -> string.

Definition insert_do_nothing (t : list Row) (row : Row) : list Row :=
  if existsb (fun r => String.eqb (name r) (name row)) t then t else t ++ [row].

Definition insert_values (t : list Row) (rows : list Row) : list Row :=
  fold_left insert_do_nothing rows t.

End OnConflictDoNothing.

(** [sizes (name, sort_order)] and [colors (name, hex_code, sort_order)];
    the [id] and [created_at] columns take their defaults. *)
Record size : Type := mk_size {
  size_name : string;              (* TEXT NOT NULL UNIQUE *)
  size_sort_order : option Z       (* INTEGER DEFAULT 0 *)
}.

Record color : Type := mk_color {
  color_name : string;             (* TEXT NOT NULL UNIQUE *)
  hex_code : option string;        (* TEXT *)
  color_sort_order : option Z      (* INTEGER DEFAULT 0 *)
}.

Definition default_sizes : list size :=
  [mk_size "XS" (Some 1%Z); mk_size "S" (Some 2%Z); mk_size "M" (Some 3%Z);
   mk_size "L" (Some 4%Z); mk_size "XL" (Some 5%Z); mk_size "XXL" (Some 6%Z);
   mk_size "XXXL" (Some 7%Z)].

Definition default_colors : list color :=
  [mk_color "Black" (Some "#000000") (Some 1%Z);
   mk_color "White" (Some "#FFFFFF") (Some 2%Z);
   mk_color "Red" (Some "#FF0000") (Some 3%Z);
   mk_color "Blue" (Some "#0000FF") (Some 4%Z);
   mk_color "Green" (Some "#008000") (Some 5%Z);
   mk_color "Yellow" (Some "#FFFF00") (Some 6%Z);
   mk_color "Pink" (Some "#FFC0CB") (Some 7%Z);
   mk_color "Grey" (Some "#808080") (Some 8%Z)].

(** "Insert default sizes" and "Insert default colors". *)
Definition seed_sizes (t : list size) : list size :=
  insert_values size_name t default_sizes.

Definition seed_colors (t : list color) : list color :=
  insert_values color_name t default_colors.

(** [store_settings]: the only unique column is the primary key [id], whose
    default is [gen_random_uuid()]. *)
Record store_settings : Type := mk_store_settings {
  settings_id : N;                      (* UUID PRIMARY KEY DEFAULT gen_random_uuid() *)
  store_name : string;                  (* TEXT NOT NULL DEFAULT 'My Garment Store' *)
  tax_percentage : option Z;            (* DECIMAL(5, 2) DEFAULT 0 *)
  low_stock_threshold : option Z        (* INTEGER DEFAULT 10 *)
}.

(** [INSERT INTO public.store_settings (store_name, tax_percentage,
    low_stock_threshold) VALUES ('My Garment Store', 18.00, 10)
    ON CONFLICT DO NOTHING], where [id] is the uuid that the default
    generated: without a conflict target, the row is skipped when any unique
    constraint is violated, and the table has only its primary key. *)
Definition seed_store_settings (t : list store_settings) (id : N)
  : list store_settings :=
  if existsb (fun r => N.eqb (settings_id r) id) t then t
  else t ++ [mk_store_settings id "My Garment Store" (Some 1800%Z) (Some 10%Z)].

End Seeds.

(** ** The product selection dialog *)

Module ProductSelection.
Local Open Scope string_scope.

(** The columns of [products] that the dialog reads. *)
Record product : Type := mk_product {
  name : string;                   (* TEXT NOT NULL *)
  sku : option string;             (* TEXT UNIQUE *)
  quantity_in_stock : Z            (* INTEGER NOT NULL DEFAULT 0 *)
}.

(** [s.includes(sub)] *)
Fixpoint includes (s sub : string) : bool :=
  if String.prefix sub s then true
  else match s with
       | EmptyString => false
       | String _ s' => includes s' sub
       end.

Section Search.
(** [String.prototype.toLowerCase], which the model does not fix. *)
Variable toLowerCase : string -> string.

(** The callback of [products?.filter(...)]; [product.sku?.toLowerCase()...]
    is [undefined], hence false, for a product without sku. *)
Definition matches_query (searchQuery : string) (p : product) : bool :=
  includes (toLowerCase (name p)) (toLowerCase searchQuery)
  || match sku p with
     | Some k => includes (toLowerCase k) (toLowerCase searchQuery)
     | None => false
     end.

Definition filteredProducts (products : option (list product)) (searchQuery : string)
  : option (list product) :=
  option_map (filter (matches_query searchQuery)) products.

End Search.

(** What a click on a product row causes. *)
Inductive effect : Type :=
| ToastError (message description : string) (duration : Z)
| OnSelectProduct (p : product)
| OnOpenChange (open : bool)
| SetSearchQuery (q : string).

Definition handleSelect (p : product) : list effect :=
  if (quantity_in_stock p <=? 0)%Z
  then [ToastError "Please add stock before adding this product."
                   (name p ++ " is currently out of stock.") 4000]
  else [OnSelectProduct p; OnOpenChange false; SetSearchQuery ""].

(** The effects of a sequence of clicks. *)
Definition clicks (ps : list product) : list effect := flat_map handleSelect ps.

(** The products that were handed to [onSelectProduct]. *)
Fixpoint selected (es : list effect) : list product :=
  match es with
  | [] => []
  | OnSelectProduct p :: es' => p :: selected es'
  | _ :: es' => selected es'
  end.

End ProductSelection.

(** ** The loop of the trending page *)

Module TrendingLoop.
Import Js Trending.
Local Open Scope Q_scope.

(** The entry that [getTrendingProducts] creates for a record, and its
    update. *)
Definition stats_init (r : Js.record) : product_stats :=
  mk_product_stats (Js.product_id r) (Js.product_name r) 0 0.

Definition stats_step (e : product_stats) (r : Js.record) : product_stats :=
  mk_product_stats
    (product_id e) (product_name e)
    (total_quantity e + Js.quantity r)
    (total_revenue e + Js.total_price r).

End TrendingLoop.

(** ** The invoice numbers in use *)

Definition invoice_numbers (db : database) : list string :=
  map Invoice.invoice_number (invoices db).

(** ** The materializer: lemmas on the statements *)

Section MaterializerLemmas.
Import Sql Materializer Spec.
Local Open Scope string_scope.
Local Open Scope list_scope.

Lemma all_rows_Forall2 (A B : Type) (f : A -> option B) (l : list A) (rs : list B) :
  all_rows (map f l) = Some rs ->
  Forall2 (fun x r => f x = Some r) l rs.
Proof.
  revert rs; induction l as [|x l IH]; simpl; intros rs H.
  - injection H as <-. constructor.
  - destruct (f x) as [r|] eqn:Hx; [|discriminate].
    destruct (all_rows (map f l)) as [rs'|]; [|discriminate].
    injection H as <-. constructor; auto.
Qed.

Lemma all_rows_total (A B : Type) (f : A -> option B) (l : list A) :
  (forall x, In x l -> f x <> None) ->
  exists rs, all_rows (map f l) = Some rs.
Proof.
  induction l as [|x l IH]; simpl; intros H.
  - now exists [].
  - destruct (f x) as [r|] eqn:Hx.
    + destruct IH as [rs Hrs]; [intros y Hy; apply H; now right|].
      rewrite Hrs. now exists (r :: rs).
    + exfalso. apply (H x); auto.
Qed.

Lemma filter_pkey (ps : list Product.t) (pid : N) :
  NoDup (map Product.id ps) ->
  filter (fun p => N.eqb pid (Product.id p)) ps =
  match find (fun p => N.eqb (Product.id p) pid) ps with
  | Some p => [p]
  | None => []
  end.
Proof.
  induction ps as [|p ps IH]; simpl; intros Hnd; [reflexivity|].
  inversion Hnd as [|? ? Hnotin Hnd']; subst.
  rewrite (N.eqb_sym pid).
  destruct (N.eqb (Product.id p) pid) eqn:E.
  - apply N.eqb_eq in E. f_equal.
    rewrite IH by assumption.
    destruct (find _ ps) as [q|] eqn:Hq; [|reflexivity].
    exfalso. apply find_some in Hq. destruct Hq as [Hin Hid].
    apply N.eqb_eq in Hid. apply Hnotin. rewrite E, <- Hid.
    now apply in_map.
  - now apply IH.
Qed.

Lemma left_join_products_pkey (db : database) (ii : InvoiceItem.t) :
  NoDup (map Product.id (products db)) ->
  left_join_products (products db) ii = [(ii, referenced_product db ii)].
Proof.
  intros Hnd. unfold left_join_products, referenced_product, uuid_matches, uuid_eqb.
  destruct (InvoiceItem.product_id ii) as [pid|].
  - rewrite filter_pkey by assumption.
    now destruct (find _ (products db)).
  - assert (filter (fun _ : Product.t => false) (products db) = []) as ->;
      [|reflexivity].
    clear Hnd. induction (products db); simpl; auto.
Qed.

Lemma joined_rows_items (db : database) (NEW : Invoice.t) :
  NoDup (map Product.id (products db)) ->
  joined_rows db NEW =
  map (fun ii => (ii, referenced_product db ii)) (items_of db (Invoice.id NEW)).
Proof.
  intros Hnd. unfold joined_rows, items_of.
  induction (invoice_items db) as [|ii l IH]; simpl; [reflexivity|].
  rewrite left_join_products_pkey by assumption. simpl.
  destruct (uuid_eqb (InvoiceItem.invoice_id ii) (Invoice.id NEW)); simpl;
    now rewrite IH.
Qed.

(** Every row that the join selects belongs to the invoice. *)
Lemma joined_rows_invoice_id (db : database) (NEW : Invoice.t) row :
  In row (joined_rows db NEW) ->
  In (fst row) (items_of db (Invoice.id NEW)).
Proof.
  unfold joined_rows, items_of. intros H.
  apply filter_In in H. destruct H as [H Hid].
  apply in_flat_map in H. destruct H as [ii [Hii Hrow]].
  assert (fst row = ii) as E.
  { unfold left_join_products in Hrow.
    destruct (filter _ (products db)).
    - destruct Hrow as [<-|[]]. reflexivity.
    - apply in_map_iff in Hrow. destruct Hrow as [p [<- _]]. reflexivity. }
  rewrite E in *. apply filter_In. split; assumption.
Qed.

Lemma select_row_invoice_id (NEW : Invoice.t) row r :
  select_row NEW row = Some r ->
  SalesRecord.invoice_id r = Some (Invoice.id NEW).
Proof.
  unfold select_row. destruct (Invoice.created_at NEW); [|discriminate].
  destruct (_ && _); [|discriminate].
  intros H. injection H as <-. reflexivity.
Qed.

Lemma select_row_materializes (db : database) (NEW : Invoice.t) ii r :
  select_row NEW (ii, referenced_product db ii) = Some r ->
  materializes db NEW ii r.
Proof.
  unfold select_row. simpl.
  destruct (Invoice.created_at NEW) as [d|] eqn:Hd; [|discriminate].
  destruct (_ && _); [|discriminate].
  intros H. injection H as <-.
  destruct (referenced_product db ii) as [p|] eqn:E; simpl;
    [destruct (Product.cost_inr p) eqn:Ec|];
    constructor; simpl; unfold current_cost; rewrite ?E, ?Ec;
    try reflexivity; assumption.
Qed.

(** What the [INSERT ... SELECT] of the triggers adds. *)
Lemma insert_sales_records_added (db db' : database) (NEW : Invoice.t) :
  insert_sales_records db NEW = Some db' ->
  exists rs,
    db' = set_sales_records db (sales_records db ++ rs) /\
    (forall r, In r rs -> SalesRecord.invoice_id r = Some (Invoice.id NEW)) /\
    (rs <> [] -> items_of db (Invoice.id NEW) <> []) /\
    (NoDup (map Product.id (products db)) ->
     Forall2 (materializes db NEW) (items_of db (Invoice.id NEW)) rs).
Proof.
  unfold insert_sales_records.
  destruct (all_rows _) as [rs|] eqn:Hrs; [|discriminate].
  intros H. injection H as <-. exists rs.
  pose proof (all_rows_Forall2 _ _ Hrs) as HF.
  split; [reflexivity|]. split; [|split].
  - clear Hrs. induction HF as [|row r rows rs' Hsel HF' IH]; intros r0 Hr0.
    + destruct Hr0.
    + destruct Hr0 as [<-|Hr0]; [|now apply IH].
      now apply select_row_invoice_id in Hsel.
  - intros Hne Hitems.
    destruct (joined_rows db NEW) as [|row rows] eqn:Hj.
    + inversion HF; subst. now apply Hne.
    + assert (In (fst row) (items_of db (Invoice.id NEW))) as Hin
        by (apply joined_rows_invoice_id; rewrite Hj; now left).
      rewrite Hitems in Hin. destruct Hin.
  - intros Hnd. rewrite joined_rows_items in HF by assumption.
    clear Hrs. revert rs HF.
    induction (items_of db (Invoice.id NEW)) as [|ii l IH]; simpl; intros rs HF.
    + inversion HF. constructor.
    + inversion HF; subst. constructor; auto.
      now apply select_row_materializes.
Qed.

End MaterializerLemmas.

(** ** The statements, case by case *)

Section StatementLemmas.
Import Sql Materializer Spec.
Local Open Scope string_scope.
Local Open Scope list_scope.

Lemma holds_and3_eq_text (a b : option string) (x y : string) :
  holds (and3 (eq_text a (Some x)) (eq_text b (Some y))) = true <->
  a = Some x /\ b = Some y.
Proof.
  destruct a as [a|], b as [b|]; simpl;
    repeat match goal with
           | |- context [String.eqb ?u ?v] => destruct (String.eqb_spec u v)
           end; simpl;
    split; intros H; try discriminate; try (destruct H; congruence);
    subst; auto.
Qed.

Lemma holds_eq_text (a : option string) (x : string) :
  holds (eq_text a (Some x)) = true <-> a = Some x.
Proof.
  destruct a as [a|]; simpl; [|split; discriminate].
  destruct (String.eqb a x) eqn:E.
  - apply String.eqb_eq in E. subst. tauto.
  - apply String.eqb_neq in E. split; [discriminate | congruence].
Qed.

Lemma payment_status_check_domain (s : option string) :
  payment_status_check s = true <-> status_in_domain s.
Proof.
  unfold payment_status_check, status_in_domain. destruct s as [s|]; simpl.
  - destruct (String.eqb s "done") eqn:E1; simpl.
    + apply String.eqb_eq in E1. subst. tauto.
    + destruct (String.eqb s "pending") eqn:E2; simpl.
      * apply String.eqb_eq in E2. subst. tauto.
      * apply String.eqb_neq in E1. apply String.eqb_neq in E2.
        split; [discriminate|].
        intros [H|[H|H]]; congruence.
  - tauto.
Qed.

Lemma is_distinct_from_false (a b : option string) :
  is_distinct_from a b = false <-> a = b.
Proof.
  destruct a as [a|], b as [b|]; simpl; try (split; congruence).
  destruct (String.eqb a b) eqn:E; simpl.
  - apply String.eqb_eq in E. subst. tauto.
  - apply String.eqb_neq in E. split; congruence.
Qed.

(** The three things that the update trigger function can do. *)
Lemma manage_sales_records_cases (db db' : database) (OLD NEW : Invoice.t) :
  manage_sales_records_on_invoice_update db OLD NEW = Some db' ->
  (Invoice.payment_status OLD = Some "pending" /\
   Invoice.payment_status NEW = Some "done" /\
   insert_sales_records db NEW = Some db')
  \/ (Invoice.payment_status OLD = Some "done" /\
      Invoice.payment_status NEW = Some "pending" /\
      db' = delete_sales_records db NEW)
  \/ (~ (Invoice.payment_status OLD = Some "pending" /\
         Invoice.payment_status NEW = Some "done") /\
      ~ (Invoice.payment_status OLD = Some "done" /\
         Invoice.payment_status NEW = Some "pending") /\
      db' = db).
Proof.
  unfold manage_sales_records_on_invoice_update.
  destruct (holds (and3 (eq_text (Invoice.payment_status OLD) (Some "pending")) _)) eqn:E1;
    destruct (holds (and3 (eq_text (Invoice.payment_status OLD) (Some "done")) _)) eqn:E2.
  - apply holds_and3_eq_text in E1, E2. destruct E1, E2. congruence.
  - apply holds_and3_eq_text in E1. destruct E1 as [Ho Hn].
    destruct (insert_sales_records db NEW) as [db1|]; [|discriminate].
    intros H; injection H as <-. auto.
  - apply holds_and3_eq_text in E2. destruct E2 as [Ho Hn].
    intros H; injection H as <-. auto.
  - intros H; injection H as <-. right; right.
    repeat split; auto; intros H; apply holds_and3_eq_text in H; congruence.
Qed.

Lemma find_invoice_some (db : database) (id : N) (i : Invoice.t) :
  find_invoice db id = Some i -> In i (invoices db) /\ Invoice.id i = id.
Proof.
  unfold find_invoice. intros H. apply find_some in H.
  destruct H as [H1 H2]. apply N.eqb_eq in H2. auto.
Qed.

Lemma find_invoice_pkey (db : database) (i : Invoice.t) :
  NoDup (map Invoice.id (invoices db)) ->
  In i (invoices db) ->
  find_invoice db (Invoice.id i) = Some i.
Proof.
  unfold find_invoice, uuid_eqb.
  induction (invoices db) as [|j l IH]; simpl; intros Hnd Hin; [destruct Hin|].
  inversion Hnd as [|? ? Hnotin Hnd']; subst.
  destruct (N.eqb (Invoice.id j) (Invoice.id i)) eqn:E.
  - apply N.eqb_eq in E. destruct Hin as [->|Hin]; [reflexivity|].
    exfalso. apply Hnotin. rewrite E. now apply in_map.
  - destruct Hin as [->|Hin]; [now rewrite N.eqb_refl in E|]. auto.
Qed.

Lemma find_invoice_none (db : database) (id : N) :
  find_invoice db id = None -> ~ In id (map Invoice.id (invoices db)).
Proof.
  unfold find_invoice. intros H Hin.
  apply in_map_iff in Hin. destruct Hin as [i [Hid Hin]].
  apply (find_none _ _ H) in Hin. unfold uuid_eqb in Hin.
  rewrite Hid, N.eqb_refl in Hin. discriminate.
Qed.

Lemma updated_invoices_ids (db : database) (id : N) (s : option string) :
  map Invoice.id (updated_invoices db id s) = map Invoice.id (invoices db).
Proof.
  unfold updated_invoices. rewrite map_map. apply map_ext.
  intros i. now destruct (uuid_eqb (Invoice.id i) id).
Qed.

Lemma updated_invoices_in (db : database) (id : N) (s : option string) (i : Invoice.t) :
  In i (updated_invoices db id s) ->
  (In i (invoices db) /\ Invoice.id i <> id)
  \/ (exists old, In old (invoices db) /\ Invoice.id old = id /\
                  i = set_payment_status old s).
Proof.
  unfold updated_invoices. intros H. apply in_map_iff in H.
  destruct H as [j [Hj Hin]]. unfold uuid_eqb in Hj.
  destruct (N.eqb (Invoice.id j) id) eqn:E.
  - apply N.eqb_eq in E. right. exists j. auto.
  - apply N.eqb_neq in E. subst. auto.
Qed.

(** What an [UPDATE] of the payment status does to the database. *)
Lemma update_payment_status_cases (db db' : database) (id : N) (s : option string) :
  update_payment_status db id s = Some db' ->
  (find_invoice db id = None /\ db' = db)
  \/ exists OLD,
      find_invoice db id = Some OLD /\
      status_in_domain s /\
      let db1 := set_invoices db (updated_invoices db id s) in
      (Invoice.payment_status OLD = Some "pending" /\ s = Some "done" /\
       insert_sales_records db1 (set_payment_status OLD s) = Some db')
      \/ (Invoice.payment_status OLD = Some "done" /\ s = Some "pending" /\
          db' = delete_sales_records db1 (set_payment_status OLD s))
      \/ (~ (Invoice.payment_status OLD = Some "pending" /\ s = Some "done") /\
          ~ (Invoice.payment_status OLD = Some "done" /\ s = Some "pending") /\
          db' = db1).
Proof.
  unfold update_payment_status.
  destruct (find_invoice db id) as [OLD|] eqn:Hfind.
  - destruct (payment_status_check s) eqn:Hc; [|discriminate].
    apply payment_status_check_domain in Hc.
    fold (updated_invoices db id s).
    intros H. right. exists OLD. split; [reflexivity|]. split; [assumption|].
    simpl in H |- *.
    destruct (is_distinct_from (Invoice.payment_status OLD) s) eqn:Hd.
    + apply manage_sales_records_cases in H. simpl in H. exact H.
    + apply is_distinct_from_false in Hd. injection H as <-.
      right; right. repeat split; auto; intros [H1 H2]; congruence.
  - intros H; injection H as <-. auto.
Qed.

Lemma materializes_same_products (db db' : database) inv ii r :
  products db = products db' ->
  materializes db inv ii r -> materializes db' inv ii r.
Proof.
  intros E H. destruct H.
  constructor; unfold current_cost, referenced_product in *;
    try rewrite <- E; assumption.
Qed.

Lemma Forall2_materializes_same_products (db db' : database) inv items rs :
  products db = products db' ->
  Forall2 (materializes db inv) items rs ->
  Forall2 (materializes db' inv) items rs.
Proof.
  intros E H. induction H; constructor; auto.
  eapply materializes_same_products; eauto.
Qed.

(** What an [INSERT] of an invoice does to the database. *)
Lemma insert_invoice_cases (db db' : database) (now : Z) (row : new_invoice) :
  insert_invoice db now row = Some db' ->
  exists number rs,
    let NEW := Invoice.mk (new_id row) number
                 (with_default (new_payment_status row) (Some "done"))
                 (with_default (new_created_at row) (Some now)) in
    InvoiceNumber.generate_invoice_number
      (map Invoice.invoice_number (invoices db)) (new_invoice_number row)
    = Some (Some number) /\
    status_in_domain (Invoice.payment_status NEW) /\
    ~ In (new_id row) (map Invoice.id (invoices db)) /\
    ~ In number (map Invoice.invoice_number (invoices db)) /\
    db' = mkdb (products db) (invoices db ++ [NEW]) (invoice_items db)
               (sales_records db ++ rs) (create_sales_on_invoice_insert db) /\
    (forall r, In r rs -> SalesRecord.invoice_id r = Some (new_id row)) /\
    (rs <> [] -> Invoice.payment_status NEW = Some "done" /\
                 items_of db (new_id row) <> []) /\
    (NoDup (map Product.id (products db)) ->
     Invoice.payment_status NEW = Some "done" ->
     create_sales_on_invoice_insert db = true ->
     Forall2 (materializes db NEW) (items_of db (new_id row)) rs).
Proof.
  unfold insert_invoice.
  destruct (InvoiceNumber.generate_invoice_number _ _) as [[number|]|] eqn:Hgen;
    try discriminate.
  destruct (_ && _) eqn:Hc; [|discriminate].
  apply andb_prop in Hc. destruct Hc as [Hc Huniq].
  apply andb_prop in Hc. destruct Hc as [Hcheck Hpk].
  apply payment_status_check_domain in Hcheck.
  assert (~ In (new_id row) (map Invoice.id (invoices db))) as Hfresh.
  { intros Hin. apply negb_true_iff in Hpk.
    assert (existsb (uuid_eqb (new_id row)) (map Invoice.id (invoices db)) = true) as E.
    { apply existsb_exists. exists (new_id row). split; [assumption|].
      apply N.eqb_refl. }
    congruence. }
  assert (~ In number (map Invoice.invoice_number (invoices db))) as Hnum.
  { intros Hin. apply negb_true_iff in Huniq. unfold string_mem in Huniq.
    assert (existsb (String.eqb number) (map Invoice.invoice_number (invoices db)) = true) as E.
    { apply existsb_exists. exists number. split; [assumption|].
      apply String.eqb_refl. }
    congruence. }
  set (NEW := Invoice.mk _ _ _ _).
  set (db1 := set_invoices db _).
  intros H. exists number.
  destruct (create_sales_on_invoice_insert db) eqn:Hflag.
  - unfold create_sales_records_on_invoice in H.
    destruct (holds (eq_text (Invoice.payment_status NEW) (Some "done"))) eqn:Hdone.
    + apply holds_eq_text in Hdone.
      apply insert_sales_records_added in H.
      destruct H as [rs [-> [Hids [Hne HF]]]].
      exists rs. repeat split; auto.
      * unfold set_sales_records, db1, set_invoices; simpl. now rewrite Hflag.
      * intros Hnd _ _.
        apply Forall2_materializes_same_products with (db := db1);
          [reflexivity|]. now apply HF.
    + injection H as <-. exists [].
      split; [reflexivity|]. do 3 (split; [assumption|]).
      split; [unfold db1, set_invoices; simpl; now rewrite app_nil_r, Hflag|].
      split; [intros r []|].
      split; [intros Hne; now elim Hne|].
      intros _ Hd _. apply (proj2 (holds_eq_text _ _)) in Hd.
      unfold NEW in Hdone. congruence.
  - injection H as <-. exists [].
    split; [reflexivity|]. do 3 (split; [assumption|]).
    split; [unfold db1, set_invoices; simpl; now rewrite app_nil_r, Hflag|].
    split; [intros r []|].
    split; [intros Hne; now elim Hne|].
    intros _ _ Hf. discriminate.
Qed.

End StatementLemmas.

(** ** Invariants of the database *)

Section Invariants.
Import Sql Materializer Spec.
Local Open Scope string_scope.
Local Open Scope list_scope.

Lemma uuid_matches_true (a : option N) (id : N) :
  uuid_matches a id = true <-> a = Some id.
Proof.
  unfold uuid_matches, uuid_eqb. destruct a as [x|]; [|split; discriminate].
  rewrite N.eqb_eq. split; congruence.
Qed.

Lemma sales_of_nonempty (db : database) (id : N) :
  sales_of db id <> [] <->
  exists r, In r (sales_records db) /\ SalesRecord.invoice_id r = Some id.
Proof.
  unfold sales_of. split.
  - intros H. destruct (filter _ (sales_records db)) as [|r l] eqn:E; [now elim H|].
    assert (In r (r :: l)) as Hin by now left.
    rewrite <- E in Hin. apply filter_In in Hin. destruct Hin as [Hin Hm].
    exists r. split; [assumption|]. now apply uuid_matches_true.
  - intros [r [Hin Hid]] E.
    assert (In r (filter (fun r => uuid_matches (SalesRecord.invoice_id r) id)
                         (sales_records db))) as H
        by (apply filter_In; split; [assumption | now apply uuid_matches_true]).
    rewrite E in H. destruct H.
Qed.

Lemma sales_only_if_done_in (db : database) :
  sales_only_if_done db <->
  (forall i r, In i (invoices db) -> In r (sales_records db) ->
               SalesRecord.invoice_id r = Some (Invoice.id i) ->
               Invoice.payment_status i = Some "done").
Proof.
  unfold sales_only_if_done. split.
  - intros H i r Hi Hr Hid. apply (H i Hi). apply sales_of_nonempty. eauto.
  - intros H i Hi Hne. apply sales_of_nonempty in Hne.
    destruct Hne as [r [Hr Hid]]. eauto.
Qed.

Lemma invoices_pkey_after_insert (rows : list Invoice.t) (NEW : Invoice.t) :
  NoDup (map Invoice.id rows) ->
  ~ In (Invoice.id NEW) (map Invoice.id rows) ->
  NoDup (map Invoice.id (rows ++ [NEW])).
Proof.
  intros Hnd Hfresh. rewrite map_app. simpl.
  induction (map Invoice.id rows) as [|k ks IH]; simpl.
  - constructor; [intros []|constructor].
  - inversion Hnd as [|? ? Hk Hks]; subst. constructor.
    + rewrite in_app_iff. simpl. intros [H|[H|[]]]; [auto|].
      apply Hfresh. now left.
    + apply IH; [assumption|]. intros H. apply Hfresh. now right.
Qed.

Lemma invoices_pkey_after_delete (rows : list Invoice.t) (id : N) :
  NoDup (map Invoice.id rows) ->
  NoDup (map Invoice.id
             (filter (fun i => negb (uuid_eqb (Invoice.id i) id)) rows)).
Proof.
  induction rows as [|i rows IH]; simpl; intros Hnd; [constructor|].
  inversion Hnd as [|? ? Hi Hrows]; subst.
  destruct (negb (uuid_eqb (Invoice.id i) id)); simpl; [|auto].
  constructor; [|auto].
  intros Hin. apply Hi. apply in_map_iff in Hin.
  destruct Hin as [j [Hj Hin]]. apply filter_In in Hin.
  rewrite <- Hj. apply in_map. tauto.
Qed.

Lemma clear_invoice_id_cases (id : N) (r : SalesRecord.t) :
  (SalesRecord.invoice_id r = Some id /\
   SalesRecord.invoice_id (clear_invoice_id id r) = None)
  \/ (SalesRecord.invoice_id r <> Some id /\ clear_invoice_id id r = r).
Proof.
  unfold clear_invoice_id.
  destruct (uuid_matches (SalesRecord.invoice_id r) id) eqn:E.
  - apply uuid_matches_true in E. left. auto.
  - right. split; [|reflexivity]. intros H.
    apply uuid_matches_true in H. congruence.
Qed.

(** Every statement keeps the keys of the schema. *)
Lemma execute_well_formed (db db' : database) (st : statement) :
  well_formed db -> execute db st = Some db' -> well_formed db'.
Proof.
  intros [Hp Hi Hfi Hfs]. destruct st as [now row|id s|id|ii]; simpl; intros H.
  - apply insert_invoice_cases in H.
    destruct H as [number [rs [_ [_ [Hfresh [_ [-> [Hids _]]]]]]]].
    constructor; simpl; auto.
    + now apply invoices_pkey_after_insert.
    + intros ii Hii. rewrite map_app, in_app_iff. left. auto.
    + intros r id Hr Hid. rewrite map_app, in_app_iff. simpl.
      apply in_app_iff in Hr. destruct Hr as [Hr|Hr]; [left; eauto|].
      right. left. apply Hids in Hr. congruence.
  - apply update_payment_status_cases in H.
    destruct H as [[_ ->]|[OLD [Hfind [_ H]]]]; [now constructor|].
    apply find_invoice_some in Hfind. destruct Hfind as [Hold Hidold].
    simpl in H. destruct H as [[_ [_ H]]|[[_ [_ ->]]|[_ [_ ->]]]].
    + apply insert_sales_records_added in H.
      destruct H as [rs [-> [Hids _]]].
      constructor; simpl; auto; rewrite updated_invoices_ids; auto.
      intros r id' Hr Hid. apply in_app_iff in Hr.
      destruct Hr as [Hr|Hr]; [eauto|].
      apply Hids in Hr. simpl in Hr.
      assert (id' = Invoice.id OLD) as -> by congruence.
      now apply in_map.
    + constructor; simpl; auto; rewrite updated_invoices_ids; auto.
      intros r id' Hr Hid. apply filter_In in Hr. destruct Hr as [Hr _]. eauto.
    + constructor; simpl; auto; rewrite updated_invoices_ids; auto.
  - injection H as <-. constructor; simpl; auto.
    + now apply invoices_pkey_after_delete.
    + intros ii Hii. apply filter_In in Hii. destruct Hii as [Hii Hne].
      apply negb_true_iff in Hne. apply N.eqb_neq in Hne.
      apply Hfi in Hii. apply in_map_iff in Hii. destruct Hii as [i [Hid Hin]].
      apply in_map_iff. exists i. split; [assumption|].
      apply filter_In. split; [assumption|].
      apply negb_true_iff. apply N.eqb_neq. congruence.
    + intros r' id' Hr Hid. apply in_map_iff in Hr.
      destruct Hr as [r [<- Hr]].
      destruct (clear_invoice_id_cases id r) as [[_ Hc]|[Hne Hc]]; [congruence|].
      rewrite Hc in Hid.
      pose proof (Hfs r id' Hr Hid) as Hin'. apply in_map_iff in Hin'.
      destruct Hin' as [i [Hidi Hin]].
      apply in_map_iff. exists i. split; [assumption|].
      apply filter_In. split; [assumption|].
      apply negb_true_iff. apply N.eqb_neq. congruence.
  - unfold insert_invoice_item in H.
    destruct (_ && _) eqn:Hc; [|discriminate]. injection H as <-.
    repeat (apply andb_prop in Hc; destruct Hc as [Hc ?]).
    constructor; simpl; auto.
    intros ii' Hii. apply in_app_iff in Hii. destruct Hii as [Hii|[<-|[]]]; auto.
    apply existsb_exists in Hc. destruct Hc as [x [Hx Hxe]].
    apply N.eqb_eq in Hxe. now rewrite Hxe.
Qed.

(** Every statement that sets no status to NULL keeps the sales records
    with done invoices only. *)
Lemma execute_sales_only_if_done (db db' : database) (st : statement) :
  well_formed db -> sales_only_if_done db -> sets_no_null_status st ->
  execute db st = Some db' -> sales_only_if_done db'.
Proof.
  intros [Hp Hi Hfi Hfs] Hinv Hst H.
  rewrite sales_only_if_done_in in Hinv. apply sales_only_if_done_in.
  destruct st as [now row|id s|id|ii]; simpl in H.
  - apply insert_invoice_cases in H.
    destruct H as [number [rs [_ [_ [Hfresh [_ [-> [Hids [Hne _]]]]]]]]].
    simpl. intros i r Hin Hr Hid.
    apply in_app_iff in Hin. apply in_app_iff in Hr.
    destruct Hin as [Hin|[<-|[]]]; destruct Hr as [Hr|Hr].
    + eauto.
    + apply Hids in Hr. exfalso. apply Hfresh.
      assert (new_id row = Invoice.id i) as -> by congruence.
      now apply in_map.
    + simpl in Hid. exfalso. apply Hfresh. eauto.
    + apply Hne. intros E. rewrite E in Hr. destruct Hr.
  - apply update_payment_status_cases in H.
    destruct H as [[_ ->]|[OLD [Hfind [Hdom H]]]]; [assumption|].
    assert (forall old, In old (invoices db) -> Invoice.id old = id -> old = OLD) as Huniq.
    { intros old Hold Hid. apply (find_invoice_pkey db) in Hold; [|assumption].
      rewrite Hid in Hold. congruence. }
    simpl in H. destruct H as [[Ho [Hs H]]|[[Ho [Hs ->]]|[Hn1 [Hn2 ->]]]].
    + apply insert_sales_records_added in H.
      destruct H as [rs [-> [Hids _]]]. simpl.
      intros i r Hin Hr Hid.
      apply updated_invoices_in in Hin. apply in_app_iff in Hr.
      destruct Hin as [[Hin Hne]|[old [Hold [Hoid ->]]]].
      * destruct Hr as [Hr|Hr]; [eauto|].
        apply Hids in Hr. simpl in Hr.
        apply find_invoice_some in Hfind. destruct Hfind. congruence.
      * simpl. assumption.
    + simpl. intros i r Hin Hr Hid.
      apply updated_invoices_in in Hin. apply filter_In in Hr.
      destruct Hr as [Hr Hm]. apply negb_true_iff in Hm. simpl in Hm.
      destruct Hin as [[Hin Hne]|[old [Hold [Hoid ->]]]]; [eauto|].
      simpl in Hid. apply uuid_matches_true in Hid.
      apply find_invoice_some in Hfind. destruct Hfind. congruence.
    + simpl. intros i r Hin Hr Hid.
      apply updated_invoices_in in Hin.
      destruct Hin as [[Hin Hne]|[old [Hold [Hoid ->]]]]; [eauto|].
      simpl in Hid |- *.
      assert (old = OLD) as -> by auto.
      assert (Invoice.payment_status OLD = Some "done") as Hdone by eauto.
      destruct Hdom as [ -> | [ -> | -> ] ];
        [destruct Hst | reflexivity | tauto].
  - injection H as <-. simpl. intros i r' Hin Hr Hid.
    apply filter_In in Hin. destruct Hin as [Hin _].
    apply in_map_iff in Hr. destruct Hr as [r [<- Hr]].
    destruct (clear_invoice_id_cases id r) as [[_ Hc]|[_ Hc]]; [congruence|].
    rewrite Hc in Hid. eauto.
  - unfold insert_invoice_item in H.
    destruct (_ && _); [|discriminate]. injection H as <-. simpl. assumption.
Qed.

End Invariants.

(** ** The sales-record invariant and the status transitions *)

Section MaterializerTheorems.
Import Sql Materializer Spec Examples.
Local Open Scope string_scope.
Local Open Scope list_scope.

Lemma well_formed_catalog : well_formed catalog.
Proof.
  constructor; simpl.
  - repeat constructor. intros [].
  - constructor.
  - intros ii [].
  - intros r id [].
Qed.

Lemma well_formed_run (db : database) (sts : list statement) :
  well_formed db -> well_formed (run db sts).
Proof.
  revert db. induction sts as [|st sts IH]; simpl; intros db Hwf; [assumption|].
  destruct (execute db st) as [db'|] eqn:E; [|auto].
  apply IH. eapply execute_well_formed; eauto.
Qed.

Lemma well_formed_pending_db : well_formed pending_db.
Proof. apply well_formed_run, well_formed_catalog. Qed.

Lemma well_formed_done_db : well_formed done_db.
Proof. apply well_formed_run, well_formed_pending_db. Qed.

Lemma sales_only_if_done_no_sales (db : database) :
  sales_records db = [] -> sales_only_if_done db.
Proof.
  intros E i _ H. unfold sales_of in H. rewrite E in H. now elim H.
Qed.

(** Every database reached from one without sales records, by statements
    that set no status to NULL, has sales records for done invoices only. *)
Lemma run_sales_only_if_done (db : database) (sts : list statement) :
  well_formed db -> sales_only_if_done db ->
  Forall sets_no_null_status sts ->
  sales_only_if_done (run db sts).
Proof.
  revert db. induction sts as [|st sts IH]; simpl; intros db Hwf Hinv Hsts;
    [assumption|].
  inversion Hsts; subst.
  destruct (execute db st) as [db'|] eqn:E; [|auto].
  apply IH; auto.
  - eapply execute_well_formed; eauto.
  - eapply execute_sales_only_if_done; eauto.
Qed.




(** The same with the insert trigger installed: it runs before any item of
    the new invoice can exist. *)
Lemma sales_iff_done_fails_on_creation_with_trigger :
  execute (empty_database true) (InsertInvoice 100 (plain_invoice 1))
  = Some (mkdb [] [invoice_1_done] [] [] true) /\
  sales_iff_done (empty_database true) /\
  ~ sales_iff_done (mkdb [] [invoice_1_done] [] [] true).
Proof.
  split; [reflexivity|]. split.
  - intros i [].
  - intros H. specialize (H invoice_1_done (or_introl eq_refl)).
    destruct H as [_ H]. now apply H.
Qed.

(** And with an update: a pending invoice without items becomes done
    without sales records. *)
Lemma sales_iff_done_fails_without_items :
  execute (mkdb [] [invoice_1_pending] [] [] false)
          (UpdatePaymentStatus 1 (Some "done"))
  = Some (mkdb [] [invoice_1_done] [] [] false) /\
  sales_iff_done (mkdb [] [invoice_1_pending] [] [] false) /\
  ~ sales_iff_done (mkdb [] [invoice_1_done] [] [] false).
Proof.
  split; [reflexivity|]. split.
  - intros i [<-|[]]. simpl. split; [intros H; now elim H | discriminate].
  - intros H. specialize (H invoice_1_done (or_introl eq_refl)).
    destruct H as [_ H]. now apply H.
Qed.

(** An update to NULL passes the check of the column and fires the
    trigger, which then does nothing: the sales records stay with an
    invoice that is not done. *)
Lemma null_status_keeps_sales_records :
  exists db',
    execute done_db (UpdatePaymentStatus 1 None) = Some db' /\
    find_invoice db' 1 = Some (Invoice.mk 1 "INV-000001" None (Some 100%Z)) /\
    sales_of db' 1 = [shirt_sale; cap_sale].
Proof. eexists. split; [reflexivity|]. split; reflexivity. Qed.

End MaterializerTheorems.

(** ** Entering the done state *)

Section EnteringDone.
Import Sql Materializer Spec Examples.
Local Open Scope string_scope.
Local Open Scope list_scope.

Lemma items_of_fresh_invoice (db : database) (id : N) :
  well_formed db ->
  ~ In id (map Invoice.id (invoices db)) ->
  items_of db id = [].
Proof.
  intros Hwf Hfresh. unfold items_of.
  destruct (filter _ (invoice_items db)) as [|ii l] eqn:E; [reflexivity|].
  assert (In ii (ii :: l)) as Hin by now left.
  rewrite <- E in Hin. apply filter_In in Hin. destruct Hin as [Hin Hid].
  apply N.eqb_eq in Hid. exfalso. apply Hfresh. rewrite <- Hid.
  now apply (invoice_items_fkey Hwf).
Qed.

(** A statement after which an invoice is done that did not exist or was
    pending before adds one sales record per item of the invoice. *)
Lemma statement_enters_done
    (db db' : database) (st : statement) (inv : Invoice.t) :
  well_formed db ->
  execute db st = Some db' ->
  enters_done db db' inv ->
  exists created,
    sales_records db' = sales_records db ++ created /\
    List.length created = List.length (items_of db' (Invoice.id inv)) /\
    Forall2 (materializes db' inv) (items_of db' (Invoice.id inv)) created.
Proof.
  intros Hwf H [Hin [Hdone Hold]].
  assert (~ In inv (invoices db)) as Hnew.
  { intros Hi. specialize (Hold inv Hi eq_refl). congruence. }
  assert (forall created,
             Forall2 (materializes db' inv) (items_of db' (Invoice.id inv)) created ->
             sales_records db' = sales_records db ++ created ->
             exists created,
               sales_records db' = sales_records db ++ created /\
               List.length created = List.length (items_of db' (Invoice.id inv)) /\
               Forall2 (materializes db' inv) (items_of db' (Invoice.id inv)) created)
    as Hfinish.
  { intros created HF E. exists created. split; [assumption|].
    split; [|assumption]. symmetry. eapply Forall2_length; eauto. }
  destruct st as [now row|id s|id|ii]; simpl in H.
  - apply insert_invoice_cases in H.
    destruct H as [number [rs [_ [_ [Hfresh [_ [-> [_ [Hne _]]]]]]]]].
    simpl in Hin. apply in_app_iff in Hin.
    destruct Hin as [Hin|[<-|[]]]; [contradiction|].
    assert (items_of db (new_id row) = []) as Hitems
        by now apply items_of_fresh_invoice.
    assert (rs = []) as ->.
    { destruct rs as [|r rs]; [reflexivity|].
      destruct Hne as [_ Hne]; [discriminate|]. contradiction. }
    apply (Hfinish []); simpl.
    + unfold items_of in *. simpl. rewrite Hitems. constructor.
    + reflexivity.
  - apply update_payment_status_cases in H.
    destruct H as [[_ ->]|[OLD [Hfind [_ H]]]]; [contradiction|].
    pose proof (find_invoice_some _ _ Hfind) as [HOLD HOLDid].
    assert (In inv (updated_invoices db id s)) as Hupd.
    { simpl in H. destruct H as [[_ [_ H]]|[[_ [_ ->]]|[_ [_ ->]]]]; auto.
      apply insert_sales_records_added in H. destruct H as [rs [-> _]]. assumption. }
    apply updated_invoices_in in Hupd.
    destruct Hupd as [[Hi _]|[old [Hold' [Hoid ->]]]]; [contradiction|].
    assert (old = OLD) as ->.
    { apply (find_invoice_pkey db) in Hold'; [|apply (invoices_pkey Hwf)].
      rewrite Hoid in Hold'. congruence. }
    simpl in Hdone. subst s.
    assert (Invoice.payment_status OLD = Some "pending") as Hpending
        by (apply Hold; auto).
    simpl in H. destruct H as [[_ [_ H]]|[[Ho _]|[Hn _]]];
      [|congruence|tauto].
    apply insert_sales_records_added in H.
    destruct H as [rs [-> [_ [_ HF]]]].
    apply (Hfinish rs); [|reflexivity].
    apply Forall2_materializes_same_products
      with (db := set_invoices db (updated_invoices db id (Some "done")));
      [reflexivity|].
    apply HF. apply (products_pkey Hwf).
  - injection H as <-. simpl in Hin. apply filter_In in Hin. tauto.
  - unfold insert_invoice_item in H.
    destruct (_ && _); [|discriminate]. injection H as <-. contradiction.
Qed.

(** The two records of the example, computed. *)
Lemma done_db_sales_records :
  sales_records pending_db = [] /\
  sales_records done_db = [shirt_sale; cap_sale].
Proof. split; reflexivity. Qed.

(** The trigger function of the insert trigger, run for a done invoice: one
    record per item as well. *)
Lemma create_sales_records_on_invoice_done (db db' : database) (NEW : Invoice.t) :
  NoDup (map Product.id (products db)) ->
  Invoice.payment_status NEW = Some "done" ->
  create_sales_records_on_invoice db NEW = Some db' ->
  exists created,
    sales_records db' = sales_records db ++ created /\
    List.length created = List.length (items_of db' (Invoice.id NEW)) /\
    Forall2 (materializes db' NEW) (items_of db' (Invoice.id NEW)) created.
Proof.
  intros Hp Hdone H. unfold create_sales_records_on_invoice in H.
  apply (proj2 (holds_eq_text _ _)) in Hdone. rewrite Hdone in H.
  apply insert_sales_records_added in H.
  destruct H as [rs [-> [_ [_ HF]]]]. exists rs. split; [reflexivity|].
  assert (Forall2 (materializes (set_sales_records db (sales_records db ++ rs)) NEW)
                  (items_of db (Invoice.id NEW)) rs) as HF'.
  { apply Forall2_materializes_same_products with (db := db); [reflexivity|].
    now apply HF. }
  split; [|exact HF']. symmetry. eapply Forall2_length; eauto.
Qed.



(** The example: marking the pending invoice done is such a statement. *)
Lemma done_db_enters_done :
  execute pending_db (UpdatePaymentStatus 1 (Some "done")) = Some done_db /\
  enters_done pending_db done_db invoice_1_done.
Proof.
  split; [reflexivity|]. split; [now left|]. split; [reflexivity|].
  intros old [<-|[]] _. reflexivity.
Qed.

(** The materialization succeeds when the invoice has a creation time and
    the amounts fit their columns; so does, then, the update of a pending
    invoice to done. *)
Lemma insert_sales_records_succeeds (db : database) (NEW : Invoice.t) (d : Z) :
  Invoice.created_at NEW = Some d ->
  (forall row, In row (joined_rows db NEW) ->
               amounts_fit (joined_cost (snd row)) (fst row) = true) ->
  exists db', insert_sales_records db NEW = Some db'.
Proof.
  intros Hc Hrows. unfold insert_sales_records.
  destruct (@all_rows_total _ _ (select_row NEW) (joined_rows db NEW)) as [rs ->].
  - intros row Hrow. specialize (Hrows row Hrow).
    unfold select_row. rewrite Hc. unfold amounts_fit in Hrows.
    rewrite Hrows. discriminate.
  - eauto.
Qed.

Lemma update_pending_to_done_succeeds (db : database) (id : N) (OLD : Invoice.t) (d : Z) :
  find_invoice db id = Some OLD ->
  Invoice.payment_status OLD = Some "pending" ->
  Invoice.created_at OLD = Some d ->
  (forall row, In row (joined_rows db OLD) ->
               amounts_fit (joined_cost (snd row)) (fst row) = true) ->
  exists db', update_payment_status db id (Some "done") = Some db'.
Proof.
  intros Hfind Hpending Hc Hrows.
  unfold update_payment_status. rewrite Hfind. simpl.
  unfold manage_sales_records_on_invoice_update. simpl. rewrite Hpending. simpl.
  destruct (@insert_sales_records_succeeds
              (set_invoices db (updated_invoices db id (Some "done")))
              (set_payment_status OLD (Some "done")) d Hc Hrows) as [db' ->].
  now exists db'.
Qed.

End EnteringDone.

(** ** Retraction, no-op updates and re-materialization *)

Section Retraction.
Import Sql Materializer Spec Examples.
Local Open Scope string_scope.
Local Open Scope list_scope.

Lemma find_invoice_updated (db : database) (id : N) (s : option string) (OLD : Invoice.t) :
  find_invoice db id = Some OLD ->
  find (fun i => uuid_eqb (Invoice.id i) id) (updated_invoices db id s)
  = Some (set_payment_status OLD s).
Proof.
  unfold find_invoice, updated_invoices.
  induction (invoices db) as [|i l IH]; simpl; [discriminate|].
  destruct (uuid_eqb (Invoice.id i) id) eqn:E; simpl.
  - intros H. injection H as <-. now rewrite E.
  - rewrite E. exact IH.
Qed.

Lemma sales_of_other_after_delete (rs : list SalesRecord.t) (id id' : N) :
  id' <> id ->
  filter (fun r => uuid_matches (SalesRecord.invoice_id r) id')
         (filter (fun r => negb (uuid_matches (SalesRecord.invoice_id r) id)) rs)
  = filter (fun r => uuid_matches (SalesRecord.invoice_id r) id') rs.
Proof.
  intros Hne. induction rs as [|r rs IH]; simpl; [reflexivity|].
  destruct (uuid_matches (SalesRecord.invoice_id r) id) eqn:E; simpl.
  - apply uuid_matches_true in E.
    destruct (uuid_matches (SalesRecord.invoice_id r) id') eqn:E'; [|exact IH].
    apply uuid_matches_true in E'. congruence.
  - now rewrite IH.
Qed.

Lemma sales_of_same_after_delete (rs : list SalesRecord.t) (id : N) :
  filter (fun r => uuid_matches (SalesRecord.invoice_id r) id)
         (filter (fun r => negb (uuid_matches (SalesRecord.invoice_id r) id)) rs)
  = [].
Proof.
  induction rs as [|r rs IH]; simpl; [reflexivity|].
  destruct (uuid_matches (SalesRecord.invoice_id r) id) eqn:E; simpl;
    [|rewrite E]; exact IH.
Qed.

(** C3: the update of a done invoice to pending always succeeds and is one
    transition of the database, whose result has the new status and no
    sales record of that invoice; [sales_records] is the former table without
    the records of that invoice, so the records of every other invoice (and
    those of no invoice) stay as they were, in their order. *)
Theorem done_to_pending_deletes_sales_records
    (db : database) (id : N) (OLD : Invoice.t) :
  find_invoice db id = Some OLD ->
  Invoice.payment_status OLD = Some "done" ->
  exists db',
    update_payment_status db id (Some "pending") = Some db' /\
    find_invoice db' id = Some (set_payment_status OLD (Some "pending")) /\
    sales_of db' id = [] /\
    sales_records db' =
      filter (fun r => negb (uuid_matches (SalesRecord.invoice_id r) id))
             (sales_records db) /\
    (forall r, SalesRecord.invoice_id r <> Some id ->
               (In r (sales_records db') <-> In r (sales_records db))) /\
    (forall id', id' <> id -> sales_of db' id' = sales_of db id') /\
    invoice_items db' = invoice_items db /\
    products db' = products db.
Proof.
  intros Hfind Hdone.
  pose proof (find_invoice_some _ _ Hfind) as [_ Hid].
  unfold update_payment_status. rewrite Hfind. simpl.
  unfold manage_sales_records_on_invoice_update. simpl. rewrite Hdone. simpl.
  eexists. split; [reflexivity|].
  unfold delete_sales_records, sales_of, find_invoice. simpl. rewrite Hid.
  split; [|split; [|split; [|split; [|split; [|split]]]]]; try reflexivity.
  - now apply find_invoice_updated.
  - apply sales_of_same_after_delete.
  - intros r Hr. rewrite filter_In. split; [tauto|].
    intros Hin. split; [assumption|].
    apply negb_true_iff. destruct (uuid_matches _ id) eqn:E; [|reflexivity].
    apply uuid_matches_true in E. contradiction.
  - intros id' Hne. now apply sales_of_other_after_delete.
Qed.

Lemma done_to_pending_deletes_sales_records_witness :
  exists db',
    update_payment_status done_db 1 (Some "pending") = Some db' /\
    find_invoice db' 1 = Some (set_payment_status invoice_1_done (Some "pending")) /\
    sales_of db' 1 = [] /\
    sales_records db' =
      filter (fun r => negb (uuid_matches (SalesRecord.invoice_id r) 1))
             (sales_records done_db) /\
    (forall r, SalesRecord.invoice_id r <> Some 1%N ->
               (In r (sales_records db') <-> In r (sales_records done_db))) /\
    (forall id', id' <> 1%N -> sales_of db' id' = sales_of done_db id') /\
    invoice_items db' = invoice_items done_db /\
    products db' = products done_db.
Proof.
  apply (@done_to_pending_deletes_sales_records done_db 1 invoice_1_done);
    reflexivity.
Defined.



(** The cycle of the example, computed: the two records are there once. *)
Lemma done_pending_done_example :
  sales_records
    (run done_db [UpdatePaymentStatus 1 (Some "done");
                  UpdatePaymentStatus 1 (Some "pending");
                  UpdatePaymentStatus 1 (Some "done")])
  = [shirt_sale; cap_sale].
Proof. reflexivity. Qed.


(** The update trigger re-materializes as well when a status passes
    through NULL, which neither of its two branches recognises. *)
Lemma null_status_cycle_duplicates :
  sales_records
    (run done_db [UpdatePaymentStatus 1 None;
                  UpdatePaymentStatus 1 (Some "pending");
                  UpdatePaymentStatus 1 (Some "done")])
  = [shirt_sale; cap_sale; shirt_sale; cap_sale].
Proof. reflexivity. Qed.

End Retraction.

(** ** Deleting an invoice *)

Section Deletion.
Import Sql Materializer Spec Examples.
Local Open Scope string_scope.
Local Open Scope list_scope.

(** C9 (as amended): when an invoice is deleted its invoice items are
    deleted with it, and its sales records are kept, with [invoice_id] set
    to NULL (every other column and every other record unchanged); after
    the deletion no invoice item and no sales record refers to the invoice. *)
Theorem delete_invoice_cascades_and_sets_null (db : database) (id : N) :
  items_of (delete_invoice db id) id = [] /\
  sales_of (delete_invoice db id) id = [] /\
  find_invoice (delete_invoice db id) id = None /\
  invoice_items (delete_invoice db id) =
    filter (fun ii => negb (uuid_eqb (InvoiceItem.invoice_id ii) id))
           (invoice_items db) /\
  sales_records (delete_invoice db id) =
    map (clear_invoice_id id) (sales_records db) /\
  List.length (sales_records (delete_invoice db id)) =
    List.length (sales_records db).
Proof.
  unfold items_of, sales_of, find_invoice. simpl.
  split; [|split; [|split; [|split; [|split]]]]; try reflexivity.
  - induction (invoice_items db) as [|ii l IH]; simpl; [reflexivity|].
    destruct (uuid_eqb (InvoiceItem.invoice_id ii) id) eqn:E; simpl;
      [|rewrite E]; exact IH.
  - induction (sales_records db) as [|r l IH]; simpl; [reflexivity|].
    destruct (clear_invoice_id_cases id r) as [[_ Hc]|[Hne Hc]].
    + rewrite Hc. simpl. exact IH.
    + rewrite Hc.
      destruct (uuid_matches (SalesRecord.invoice_id r) id) eqn:E; [|exact IH].
      apply uuid_matches_true in E. contradiction.
  - induction (invoices db) as [|i l IH]; simpl; [reflexivity|].
    destruct (uuid_eqb (Invoice.id i) id) eqn:E; simpl;
      [|rewrite E]; exact IH.
  - apply length_map.
Qed.

(** C9, as stated, fails: the sales records of a deleted invoice are not
    deleted with it. *)
Lemma sales_records_survive_delete_invoice :
  sales_records done_db = [shirt_sale; cap_sale] /\
  sales_records (delete_invoice done_db 1) =
    [clear_invoice_id 1 shirt_sale; clear_invoice_id 1 cap_sale] /\
  invoice_items (delete_invoice done_db 1) = [] /\
  invoices (delete_invoice done_db 1) = [].
Proof. repeat split; reflexivity. Qed.

End Deletion.

(** ** The payment status column *)

Section PaymentStatus.
Import Sql Materializer Spec Examples.
Local Open Scope string_scope.
Local Open Scope list_scope.

(** C10 (as amended): every statement keeps the payment status of every
    invoice NULL, 'done' or 'pending'; an insert or an update with any
    other text is rejected; an insert that gives no payment status stores
    'done', and one that gives a status stores it. *)
Theorem payment_status_domain_and_default (db : database) :
  (forall st db',
      statuses_in_domain db -> execute db st = Some db' -> statuses_in_domain db') /\
  (forall now row v,
      new_payment_status row = VALUE (Some v) ->
      v <> "done" -> v <> "pending" ->
      insert_invoice db now row = None) /\
  (forall id v,
      find_invoice db id <> None ->
      v <> "done" -> v <> "pending" ->
      update_payment_status db id (Some v) = None) /\
  (forall now row db',
      insert_invoice db now row = Some db' ->
      exists inv,
        invoices db' = invoices db ++ [inv] /\
        Invoice.id inv = new_id row /\
        Invoice.payment_status inv =
          match new_payment_status row with
          | DEFAULT => Some "done"
          | VALUE v => v
          end).
Proof.
  assert (forall v, v <> "done" -> v <> "pending" ->
                    payment_status_check (Some v) = false) as Hreject.
  { intros v H1 H2. destruct (payment_status_check (Some v)) eqn:E; [|reflexivity].
    apply payment_status_check_domain in E.
    destruct E as [E|[E|E]]; congruence. }
  split; [|split; [|split]].
  - intros st db' Hdom H. destruct st as [now row|id s|id|ii]; simpl in H.
    + apply insert_invoice_cases in H.
      destruct H as [number [rs [_ [Hs [_ [_ [-> _]]]]]]].
      intros i Hi. simpl in Hi. apply in_app_iff in Hi.
      destruct Hi as [Hi|[<-|[]]]; auto.
    + apply update_payment_status_cases in H.
      destruct H as [[_ ->]|[OLD [_ [Hs H]]]]; [assumption|].
      assert (invoices db' = updated_invoices db id s) as Hinv.
      { simpl in H. destruct H as [[_ [_ H]]|[[_ [_ ->]]|[_ [_ ->]]]];
          try reflexivity.
        apply insert_sales_records_added in H. destruct H as [rs [-> _]].
        reflexivity. }
      intros i Hi. rewrite Hinv in Hi. apply updated_invoices_in in Hi.
      destruct Hi as [[Hi _]|[old [_ [_ ->]]]]; auto.
    + injection H as <-. intros i Hi. simpl in Hi.
      apply filter_In in Hi. apply Hdom. tauto.
    + unfold insert_invoice_item in H.
      destruct (_ && _); [|discriminate]. injection H as <-. exact Hdom.
  - intros now row v Hv H1 H2. unfold insert_invoice.
    destruct (InvoiceNumber.generate_invoice_number _ _) as [[number|]|];
      try reflexivity.
    rewrite Hv. simpl with_default. now rewrite (Hreject v H1 H2).
  - intros id v Hfind H1 H2. unfold update_payment_status.
    destruct (find_invoice db id); [|congruence].
    now rewrite (Hreject v H1 H2).
  - intros now row db' H. apply insert_invoice_cases in H.
    destruct H as [number [rs [_ [_ [_ [_ [-> _]]]]]]].
    eexists. split; [reflexivity|]. split; [reflexivity|].
    simpl. now destruct (new_payment_status row).
Qed.

(** C10, as stated, fails: the check of the column lets NULL through. *)
Lemma null_payment_status_is_accepted :
  insert_invoice (empty_database false) 100
                 (mk_new_invoice 1 None (VALUE None) DEFAULT)
  = Some (mkdb [] [Invoice.mk 1 "INV-000001" None (Some 100%Z)] [] [] false) /\
  ~ status_done_or_pending
      (Invoice.payment_status (Invoice.mk 1 "INV-000001" None (Some 100%Z))).
Proof.
  split; [reflexivity|]. intros [H|H]; discriminate.
Qed.

(** An invoice inserted without a payment status is done. *)
Lemma default_payment_status_example :
  insert_invoice (empty_database false) 100 (plain_invoice 1)
  = Some (mkdb [] [invoice_1_done] [] [] false).
Proof. reflexivity. Qed.

End PaymentStatus.

(** ** Invoice numbers *)

Section InvoiceNumbers.
Import Sql InvoiceNumber InvoiceNumberSpec Materializer Examples.
Local Open Scope string_scope.
Local Open Scope list_scope.

(** C5: with the invoice INV-999999 in the table the next number should be
    INV-1000000; [LPAD] cuts it to INV-100000.  The insert of the first such
    invoice stores that number, and every later insert without a number
    computes it again and fails on the [UNIQUE] constraint. *)
Theorem invoice_number_truncated_after_999999 :
  spec_invoice_number ["INV-999999"] = "INV-1000000" /\
  generate_invoice_number ["INV-999999"] None = Some (Some "INV-100000") /\
  insert_invoice
    (mkdb [] [Invoice.mk 1 "INV-999999" (Some "done") (Some 100%Z)] [] [] false)
    200 (plain_invoice 2)
  = Some (mkdb [] [Invoice.mk 1 "INV-999999" (Some "done") (Some 100%Z);
                   Invoice.mk 2 "INV-100000" (Some "done") (Some 200%Z)]
               [] [] false) /\
  insert_invoice
    (mkdb [] [Invoice.mk 1 "INV-999999" (Some "done") (Some 100%Z);
              Invoice.mk 2 "INV-100000" (Some "done") (Some 200%Z)]
          [] [] false)
    300 (plain_invoice 3)
  = None.
Proof. repeat split; reflexivity. Qed.

(** Three invoices created one after the other without a number, from an
    empty table. *)
Lemma first_three_invoice_numbers :
  map Invoice.invoice_number
      (invoices (run (empty_database false)
                     [InsertInvoice 100 (plain_invoice 1);
                      InsertInvoice 200 (plain_invoice 2);
                      InsertInvoice 300 (plain_invoice 3)]))
  = ["INV-000001"; "INV-000002"; "INV-000003"].
Proof. reflexivity. Qed.

(** The pattern is not anchored: a number is counted wherever 'INV-' and
    digits occur in it; a number given with the insert is kept. *)
Lemma invoice_number_examples :
  generate_invoice_number [] None = Some (Some "INV-000001") /\
  generate_invoice_number ["INV-000041"; "2024/INV-7/b"; "draft"] (Some "")
  = Some (Some "INV-000042") /\
  generate_invoice_number ["INV-000041"] (Some "A-1") = Some (Some "A-1") /\
  generate_invoice_number ["INV-2147483647"] None = None /\
  generate_invoice_number ["INV-99999999999"] None = None.
Proof. repeat split; reflexivity. Qed.

(** *** Below one million the code and the specification agree *)

Lemma text_digits_length (fuel : nat) :
  forall (k : nat) (n : Z) (acc : string),
    (1 <= k <= fuel)%nat ->
    (0 <= n < 10 ^ Z.of_nat k)%Z ->
    (String.length (text_digits fuel n acc) <= k + String.length acc)%nat.
Proof.
  induction fuel as [|fuel IH]; intros k n acc Hk Hn; [lia|].
  simpl. destruct (n <? 10)%Z eqn:E; simpl; [lia|].
  apply Z.ltb_ge in E.
  destruct k as [|[|k]]; [lia| simpl in Hn; lia |].
  specialize (IH (S k) (n / 10)%Z (String (digit_char (n mod 10)) acc)).
  simpl in IH. assert (S (S k) = S k + 1)%nat as Hs by lia.
  rewrite Hs. rewrite <- Nat.add_assoc. simpl. apply IH; [lia|].
  split; [apply Z.div_pos; lia|].
  apply Z.div_lt_upper_bound; [lia|].
  replace (Z.of_nat (S (S k))) with (Z.succ (Z.of_nat (S k))) in Hn by lia.
  rewrite Z.pow_succ_r in Hn by lia. lia.
Qed.

Lemma text_digits_fuel (fuel : nat) :
  forall (fuel' : nat) (n : Z) (acc : string),
    (1 <= fuel <= fuel')%nat ->
    (0 <= n < 10 ^ Z.of_nat fuel)%Z ->
    text_digits fuel' n acc = text_digits fuel n acc.
Proof.
  induction fuel as [|fuel IH]; intros fuel' n acc Hf Hn; [lia|].
  destruct fuel' as [|fuel']; [lia|].
  simpl. destruct (n <? 10)%Z eqn:E; [reflexivity|].
  apply Z.ltb_ge in E.
  destruct fuel as [|fuel]; [simpl in Hn; lia|].
  apply IH; [lia|].
  split; [apply Z.div_pos; lia|].
  apply Z.div_lt_upper_bound; [lia|].
  replace (Z.of_nat (S (S fuel))) with (Z.succ (Z.of_nat (S fuel))) in Hn by lia.
  rewrite Z.pow_succ_r in Hn by lia. lia.
Qed.

Lemma substring_all (s : string) : substring 0 (String.length s) s = s.
Proof. induction s as [|c s IH]; simpl; [reflexivity|]. now rewrite IH. Qed.

Lemma lpad_zero_pad (s : string) :
  (String.length s <= 6)%nat -> lpad s 6 "0" = zero_pad 6 s.
Proof.
  intros H. unfold lpad, zero_pad.
  destruct (6 <=? String.length s)%nat eqn:E.
  - apply Nat.leb_le in E. assert (String.length s = 6)%nat as Hl by lia.
    rewrite Hl. simpl. rewrite <- Hl. apply substring_all.
  - f_equal. apply Nat.leb_gt in E.
    remember (String.length s) as len.
    do 6 (destruct len as [|len]; [reflexivity|]). lia.
Qed.

Lemma cast_all_values (ds : list string) (vs : list Z) :
  cast_all ds = Some vs -> vs = map (decimal_value 0) ds.
Proof.
  revert vs. induction ds as [|d ds IH]; simpl; intros vs H.
  - now injection H as <-.
  - unfold cast_integer in H.
    destruct (decimal_value 0 d <=? INTEGER_MAX)%Z; [|discriminate].
    destruct (cast_all ds) as [vs'|]; [|discriminate].
    injection H as <-. f_equal. now apply IH.
Qed.

Lemma digit_value_range (c : ascii) :
  is_digit c = true -> (0 <= digit_value c <= 9)%Z.
Proof.
  unfold is_digit, digit_value. intros H. apply andb_prop in H.
  destruct H as [H1 H2]. apply Nat.leb_le in H1, H2. lia.
Qed.

Lemma digits_prefix_value (s : string) (acc : Z) :
  (0 <= acc)%Z -> (0 <= decimal_value acc (digits_prefix s))%Z.
Proof.
  revert acc. induction s as [|c s IH]; intros acc Hacc; [assumption|].
  cbn [digits_prefix]. destruct (is_digit c) eqn:E; [|assumption].
  cbn [decimal_value]. apply IH. pose proof (digit_value_range c E). lia.
Qed.

Lemma substring_from_value (s d : string) :
  substring_from s = Some d -> (0 <= decimal_value 0 d)%Z.
Proof.
  assert (forall t d', match_here t = Some d' -> (0 <= decimal_value 0 d')%Z) as Hhere.
  { intros t d' H. unfold match_here in H.
    repeat match type of H with
           | match ?x with _ => _ end = _ => destruct x eqn:?; try discriminate
           end.
    injection H as <-.
    match goal with
    | E : digits_prefix ?r = _ |- _ => rewrite <- E
    end.
    apply digits_prefix_value. lia. }
  induction s as [|c s IH].
  - discriminate.
  - change (substring_from (String c s))
      with (match match_here (String c s) with
            | Some d => Some d
            | None => substring_from s
            end).
    destruct (match_here (String c s)) as [d'|] eqn:E.
    + intros H. injection H as <-. eapply Hhere; eauto.
    + exact IH.
Qed.

Lemma captured_values (numbers : list string) :
  Forall (fun d => 0 <= decimal_value 0 d)%Z (captured numbers).
Proof.
  induction numbers as [|n ns IH]; simpl; [constructor|].
  destruct (substring_from n) as [d|] eqn:E; [|assumption].
  constructor; [|assumption]. eapply substring_from_value; eauto.
Qed.

Lemma max_agg_nonnegative (ds : list string) :
  Forall (fun d => 0 <= decimal_value 0 d)%Z ds ->
  (0 <= coalesce (max_agg (map (decimal_value 0) ds)) 0)%Z.
Proof.
  intros H. destruct H as [|d ds H0 _]; simpl; [lia|].
  revert H0. generalize (decimal_value 0 d).
  induction (map (decimal_value 0) ds) as [|v vs IH]; simpl; intros a Ha;
    [assumption|].
  apply IH. lia.
Qed.

(** For an invoice inserted without a number (NULL or the empty string),
    as long as the next number is below one million: the number assigned is
    'INV-', then the largest numeric suffix of the matching numbers plus
    one, zero-padded to six digits. *)
Lemma generate_invoice_number_below_million
    (existing : list string) (given : option string) (n : Z) :
  given = None \/ given = Some "" ->
  next_number existing = Some n ->
  (n < 1000000)%Z ->
  generate_invoice_number existing given = Some (Some (spec_invoice_number existing)).
Proof.
  intros Hgiven Hnext Hn. unfold generate_invoice_number.
  assert (holds (or3 (is_null given) (eq_text given (Some ""))) = true) as ->
      by (destruct Hgiven as [->| ->]; reflexivity).
  rewrite Hnext. unfold spec_invoice_number. do 3 f_equal.
  unfold next_number in Hnext.
  destruct (cast_all (captured existing)) as [vs|] eqn:Hvs; [|discriminate].
  apply cast_all_values in Hvs. subst vs.
  pose proof (max_agg_nonnegative (captured_values existing)) as Hmax.
  destruct (_ <=? INTEGER_MAX)%Z; [|discriminate].
  injection Hnext as Hnext. rewrite Hnext.
  assert (1 <= n)%Z as Hn1 by lia.
  assert (integer_text n = text_digits 6 n EmptyString) as Htext.
  { unfold integer_text.
    assert ((n <? 0)%Z = false) as -> by (apply Z.ltb_ge; lia).
    apply text_digits_fuel; [lia|]. simpl. lia. }
  assert (decimal_text n = text_digits 6 n EmptyString) as Hdec.
  { unfold decimal_text.
    pose proof (Z.log2_nonneg n) as Hlog.
    assert (n < 10 ^ Z.of_nat (S (Z.to_nat (Z.log2 n))))%Z as Hfuel.
    { replace (Z.of_nat (S (Z.to_nat (Z.log2 n)))) with (Z.succ (Z.log2 n)) by lia.
      apply Z.lt_le_trans with (m := (2 ^ Z.succ (Z.log2 n))%Z).
      - apply Z.log2_spec. lia.
      - apply Z.pow_le_mono_l. lia. }
    destruct (Nat.le_gt_cases 6 (S (Z.to_nat (Z.log2 n)))) as [Hle|Hgt].
    - apply text_digits_fuel; [lia|]. simpl. lia.
    - symmetry. apply text_digits_fuel; [lia|]. split; [lia|assumption]. }
  rewrite Htext, Hdec. apply lpad_zero_pad.
  pose proof (@text_digits_length 6 6 n EmptyString) as Hlen.
  simpl in Hlen. apply Hlen; lia.
Qed.

(** *** Numbers are sequential below one million *)

Lemma digit_char_digit (d : Z) :
  (0 <= d <= 9)%Z ->
  is_digit (digit_char d) = true /\ digit_value (digit_char d) = d.
Proof.
  intros H.
  assert (d = 0 \/ d = 1 \/ d = 2 \/ d = 3 \/ d = 4 \/ d = 5 \/ d = 6 \/ d = 7
          \/ d = 8 \/ d = 9)%Z as Hd by lia.
  repeat (destruct Hd as [->|Hd]; [split; reflexivity|]).
  subst. split; reflexivity.
Qed.

Lemma text_append_assoc (a b c : string) :
  ((a ++ b) ++ c)%string = (a ++ (b ++ c))%string.
Proof.
  induction a as [|x a IH]; [reflexivity|]. cbn [append]. now rewrite IH.
Qed.

Lemma text_digits_acc (fuel : nat) :
  forall (n : Z) (acc : string),
    text_digits fuel n acc = (text_digits fuel n EmptyString ++ acc)%string.
Proof.
  induction fuel as [|fuel IH]; intros n acc; [reflexivity|].
  cbn [text_digits]. destruct (n <? 10)%Z; [reflexivity|].
  rewrite IH. rewrite (IH _ (String _ EmptyString)).
  now rewrite text_append_assoc.
Qed.

Lemma decimal_value_app (s1 s2 : string) (acc : Z) :
  decimal_value acc (s1 ++ s2)%string = decimal_value (decimal_value acc s1) s2.
Proof.
  revert acc. induction s1 as [|c s1 IH]; intros acc; [reflexivity|].
  cbn [append decimal_value]. apply IH.
Qed.

Lemma all_digits_app (s1 s2 : string) :
  all_digits (s1 ++ s2)%string = all_digits s1 && all_digits s2.
Proof.
  induction s1 as [|c s1 IH]; [reflexivity|].
  cbn [append all_digits]. now rewrite IH, andb_assoc.
Qed.

Lemma text_digits_value (fuel : nat) :
  forall n : Z,
    (0 <= n < 10 ^ Z.of_nat fuel)%Z ->
    decimal_value 0 (text_digits fuel n EmptyString) = n /\
    all_digits (text_digits fuel n EmptyString) = true /\
    (fuel <> O -> text_digits fuel n EmptyString <> EmptyString).
Proof.
  induction fuel as [|fuel IH]; intros n Hn;
    [simpl in Hn; simpl; repeat split; [lia | congruence]|].
  cbn [text_digits].
  assert (0 <= n mod 10 <= 9)%Z as Hmod
      by (pose proof (Z.mod_pos_bound n 10); lia).
  destruct (digit_char_digit Hmod) as [Hd Hv].
  destruct (n <? 10)%Z eqn:E.
  - apply Z.ltb_lt in E. cbn [decimal_value all_digits].
    rewrite Hd, Hv. rewrite Z.mod_small by lia.
    split; [lia|]. split; [reflexivity|]. intros _. discriminate.
  - apply Z.ltb_ge in E. rewrite text_digits_acc.
    assert (0 <= n / 10 < 10 ^ Z.of_nat fuel)%Z as Hdiv.
    { split; [apply Z.div_pos; lia|].
      apply Z.div_lt_upper_bound; [lia|].
      replace (Z.of_nat (S fuel)) with (Z.succ (Z.of_nat fuel)) in Hn by lia.
      rewrite Z.pow_succ_r in Hn by lia. lia. }
    destruct (IH _ Hdiv) as [Hval [Hall _]].
    rewrite decimal_value_app, all_digits_app, Hval, Hall.
    cbn [decimal_value all_digits]. rewrite Hd, Hv.
    split; [|split].
    + pose proof (Z.div_mod n 10). lia.
    + reflexivity.
    + intros _. destruct (text_digits fuel (n / 10) EmptyString); discriminate.
Qed.

Lemma zero_pad_value (s : string) :
  (String.length s <= 6)%nat ->
  decimal_value 0 (zero_pad 6 s) = decimal_value 0 s /\
  all_digits (zero_pad 6 s) = all_digits s.
Proof.
  intros H. unfold zero_pad.
  rewrite decimal_value_app, all_digits_app.
  remember (6 - String.length s)%nat as k.
  assert (k <= 6)%nat as Hk by lia. clear Heqk H.
  do 7 (destruct k as [|k]; [split; reflexivity|]). lia.
Qed.

Lemma digits_prefix_all_digits (s : string) :
  all_digits s = true -> digits_prefix s = s.
Proof.
  induction s as [|c s IH]; [reflexivity|].
  cbn [all_digits digits_prefix]. intros H. apply andb_prop in H.
  destruct H as [Hc Hs]. rewrite Hc. now rewrite IH.
Qed.

Lemma substring_from_generated (s : string) :
  all_digits s = true -> s <> EmptyString ->
  substring_from ("INV-" ++ s)%string = Some s.
Proof.
  intros Hall Hne.
  change (substring_from ("INV-" ++ s)%string)
    with (match match_here ("INV-" ++ s)%string with
          | Some d => Some d
          | None => substring_from ("NV-" ++ s)%string
          end).
  assert (match_here ("INV-" ++ s)%string = Some s) as ->; [|reflexivity].
  unfold match_here. cbn [append]. rewrite (digits_prefix_all_digits _ Hall).
  destruct s; [now elim Hne | reflexivity].
Qed.

Lemma captured_app (l1 l2 : list string) :
  captured (l1 ++ l2) = captured l1 ++ captured l2.
Proof.
  induction l1 as [|x l1 IH]; [reflexivity|].
  cbn [captured app]. destruct (substring_from x); cbn [app]; now rewrite IH.
Qed.

Lemma cast_all_app (ds : list string) (d : string) (vs : list Z) (v : Z) :
  cast_all ds = Some vs -> cast_integer d = Some v ->
  cast_all (ds ++ [d]) = Some (vs ++ [v]).
Proof.
  revert vs. induction ds as [|x ds IH]; intros vs Hvs Hd.
  - injection Hvs as <-. simpl. now rewrite Hd.
  - cbn [cast_all app] in *.
    destruct (cast_integer x); [|discriminate].
    destruct (cast_all ds) as [vs'|]; [|discriminate].
    injection Hvs as <-. now rewrite (IH vs' eq_refl Hd).
Qed.

Lemma max_agg_app (vs : list Z) (v : Z) :
  (coalesce (max_agg vs) 0 < v)%Z ->
  max_agg (vs ++ [v]) = Some v.
Proof.
  destruct vs as [|a vs]; [reflexivity|].
  cbn [max_agg app coalesce]. rewrite fold_left_app. cbn [fold_left].
  intros H. f_equal. lia.
Qed.

(** After an insert that was given the number [n] below one million, the
    next number is [n + 1]. *)
Lemma next_number_after_insert (existing : list string) (n : Z) :
  next_number existing = Some n ->
  (n < 1000000)%Z ->
  next_number (existing ++ [("INV-" ++ lpad (integer_text n) 6 "0")%string])
  = Some (n + 1)%Z.
Proof.
  intros Hnext Hn. unfold next_number in *.
  destruct (cast_all (captured existing)) as [vs|] eqn:Hvs; [|discriminate].
  pose proof (cast_all_values _ Hvs) as Hvals.
  pose proof (max_agg_nonnegative (captured_values existing)) as Hmax.
  rewrite <- Hvals in Hmax.
  destruct (_ <=? INTEGER_MAX)%Z; [|discriminate].
  injection Hnext as Hnext.
  assert (1 <= n)%Z as Hn1 by lia.
  assert (integer_text n = text_digits 6 n EmptyString) as Htext.
  { unfold integer_text.
    assert ((n <? 0)%Z = false) as -> by (apply Z.ltb_ge; lia).
    apply text_digits_fuel; [lia|]. simpl. lia. }
  destruct (@text_digits_value 6 n) as [Hval [Hall _]]; [simpl; lia|].
  assert (String.length (text_digits 6 n EmptyString) <= 6)%nat as Hlen.
  { pose proof (@text_digits_length 6 6 n EmptyString) as H.
    simpl in H. apply H; lia. }
  rewrite Htext, (lpad_zero_pad _ Hlen).
  destruct (zero_pad_value _ Hlen) as [Hzv Hza].
  rewrite Hval in Hzv. rewrite Hall in Hza.
  assert (zero_pad 6 (text_digits 6 n EmptyString) <> EmptyString) as Hzne.
  { intros E. apply (f_equal (decimal_value 0)) in E. rewrite Hzv in E.
    simpl in E. lia. }
  rewrite captured_app. cbn [captured].
  rewrite (substring_from_generated Hza Hzne).
  assert (cast_integer (zero_pad 6 (text_digits 6 n EmptyString)) = Some n) as Hcast.
  { unfold cast_integer. rewrite Hzv.
    assert ((n <=? INTEGER_MAX)%Z = true) as ->; [|reflexivity].
    apply Z.leb_le. unfold INTEGER_MAX. lia. }
  rewrite (@cast_all_app (captured existing) _ vs n Hvs Hcast).
  rewrite max_agg_app by lia. cbn [coalesce].
  assert ((n + 1 <=? INTEGER_MAX)%Z = true) as ->; [|reflexivity].
  apply Z.leb_le. unfold INTEGER_MAX. lia.
Qed.

End InvoiceNumbers.

(** ** Grouping records in a dictionary *)

Section Grouping.
Variables K V R : Type.
Variable eqb : K -> K -> bool.
Hypothesis eqb_eq : forall a b, eqb a b = true <-> a = b.
Variable key : R -> K.
Variable init : R -> V.
Variable step : V -> R -> V.

Local Abbreviation upsert := (AnalyticsSpec.upsert eqb key init step).
Local Abbreviation records_of := (AnalyticsSpec.records_of eqb key).

Lemma eqb_refl (a : K) : eqb a a = true.
Proof. now apply eqb_eq. Qed.

Lemma get_set (o : list (K * V)) (k k' : K) (v : V) :
  Js.get eqb (Js.set eqb o k v) k' =
  if eqb k k' then Some v else Js.get eqb o k'.
Proof.
  induction o as [|[k0 v0] o IH]; simpl.
  - reflexivity.
  - destruct (eqb k0 k) eqn:E0; simpl.
    + apply eqb_eq in E0. subst k0.
      now destruct (eqb k k').
    + destruct (eqb k0 k') eqn:E1; [|exact IH].
      destruct (eqb k k') eqn:E2; [|reflexivity].
      apply eqb_eq in E1, E2. subst. rewrite eqb_refl in E0. discriminate.
Qed.

Lemma get_upsert (o : list (K * V)) (r : R) (k : K) :
  Js.get eqb (upsert o r) k =
  if eqb (key r) k
  then Some (step (match Js.get eqb o k with Some v => v | None => init r end) r)
  else Js.get eqb o k.
Proof.
  unfold upsert. rewrite get_set.
  destruct (eqb (key r) k) eqn:E; [|reflexivity].
  apply eqb_eq in E. now subst.
Qed.

(** The entry of a key after the loop: the fold of [step] over the records
    of that key, from the entry it had, or from [init] of its first record. *)
Lemma get_fold_upsert (data : list R) (o : list (K * V)) (k : K) :
  Js.get eqb (fold_left upsert data o) k =
  match records_of k data with
  | [] => Js.get eqb o k
  | r :: rs =>
      Some (fold_left step (r :: rs)
                      (match Js.get eqb o k with Some v => v | None => init r end))
  end.
Proof.
  revert o. induction data as [|r data IH]; intros o; simpl; [reflexivity|].
  rewrite IH, get_upsert. unfold records_of. simpl.
  destruct (eqb (key r) k); [|reflexivity].
  now destruct (filter _ data).
Qed.

Lemma get_none_keys (o : list (K * V)) (k : K) :
  Js.get eqb o k = None <-> ~ In k (map fst o).
Proof.
  induction o as [|[k0 v0] o IH]; simpl; [tauto|].
  destruct (eqb k0 k) eqn:E.
  - apply eqb_eq in E. split; [discriminate|]. intros H. elim H. now left.
  - rewrite IH. split; [|tauto].
    intros H [H'|H']; [|tauto]. subst. rewrite eqb_refl in E. discriminate.
Qed.

Lemma get_some_in (o : list (K * V)) (k : K) (v : V) :
  Js.get eqb o k = Some v -> In (k, v) o.
Proof.
  induction o as [|[k0 v0] o IH]; simpl; [discriminate|].
  destruct (eqb k0 k) eqn:E.
  - apply eqb_eq in E. intros H. injection H as <-. subst. now left.
  - auto.
Qed.

Lemma in_get_some (o : list (K * V)) (k : K) (v : V) :
  NoDup (map fst o) -> In (k, v) o -> Js.get eqb o k = Some v.
Proof.
  induction o as [|[k0 v0] o IH]; simpl; intros Hnd Hin; [destruct Hin|].
  inversion Hnd as [|? ? Hk0 Hnd']; subst.
  destruct Hin as [Hin|Hin].
  - injection Hin as -> ->. now rewrite eqb_refl.
  - destruct (eqb k0 k) eqn:E; [|auto].
    apply eqb_eq in E. subst. exfalso. apply Hk0.
    apply in_map_iff. now exists (k, v).
Qed.

Lemma set_keys (o : list (K * V)) (k : K) (v : V) :
  map fst (Js.set eqb o k v) =
  match Js.get eqb o k with
  | Some _ => map fst o
  | None => map fst o ++ [k]
  end.
Proof.
  induction o as [|[k0 v0] o IH]; simpl; [reflexivity|].
  destruct (eqb k0 k) eqn:E; simpl; [reflexivity|].
  rewrite IH. now destruct (Js.get eqb o k).
Qed.

Lemma set_keys_NoDup (o : list (K * V)) (k : K) (v : V) :
  NoDup (map fst o) -> NoDup (map fst (Js.set eqb o k v)).
Proof.
  intros Hnd. rewrite set_keys.
  destruct (Js.get eqb o k) eqn:E; [assumption|].
  apply get_none_keys in E.
  induction (map fst o) as [|k0 ks IH]; simpl.
  - constructor; [intros []|constructor].
  - inversion Hnd as [|? ? Hk0 Hks]; subst. constructor.
    + rewrite in_app_iff. simpl. intros [H|[H|[]]]; [auto|].
      apply E. now left.
    + apply IH; [assumption|]. intros H. apply E. now right.
Qed.

Lemma fold_upsert_keys_NoDup (data : list R) (o : list (K * V)) :
  NoDup (map fst o) -> NoDup (map fst (fold_left upsert data o)).
Proof.
  revert o. induction data as [|r data IH]; intros o Hnd; simpl; [assumption|].
  apply IH. unfold upsert. now apply set_keys_NoDup.
Qed.

(** Every entry of the dictionary is the fold over the records of its key,
    of which there is at least one. *)
Lemma fold_upsert_entry (data : list R) (k : K) (v : V) :
  In (k, v) (fold_left upsert data []) ->
  exists r rs,
    records_of k data = r :: rs /\
    v = fold_left step (r :: rs) (init r).
Proof.
  intros Hin. apply in_get_some in Hin.
  - rewrite get_fold_upsert in Hin. simpl in Hin.
    destruct (records_of k data) as [|r rs]; [discriminate|].
    injection Hin as <-. now exists r, rs.
  - apply fold_upsert_keys_NoDup. constructor.
Qed.

(** Every key of a record has an entry. *)
Lemma fold_upsert_complete (data : list R) (r : R) :
  In r data ->
  exists v, In (key r, v) (fold_left upsert data []).
Proof.
  intros Hin.
  destruct (Js.get eqb (fold_left upsert data []) (key r)) as [v|] eqn:E.
  - exists v. now apply get_some_in.
  - rewrite get_fold_upsert in E. simpl in E.
    destruct (records_of (key r) data) as [|r' rs] eqn:E'; [|discriminate].
    assert (In r (records_of (key r) data)) as H
        by (apply filter_In; split; [assumption | apply eqb_refl]).
    rewrite E' in H. destruct H.
Qed.

End Grouping.

(** ** Sums and sorting *)

Section SortLemmas.
Import Js AnalyticsSpec.
Local Open Scope Q_scope.

Lemma positive_spec (q : Q) : positive q = true <-> 0 < q.
Proof.
  unfold positive, Qlt. simpl. rewrite Z.mul_1_r. apply Z.ltb_lt.
Qed.

Lemma positive_minus (a b : Q) : positive (b - a) = true <-> a < b.
Proof.
  rewrite positive_spec. unfold Qminus. symmetry. apply Qlt_minus_iff.
Qed.

Lemma is_zero_spec (q : Q) : is_zero q = true <-> q == 0.
Proof.
  unfold is_zero, Qeq. simpl. rewrite Z.mul_1_r. apply Z.eqb_eq.
Qed.

Lemma div_nonzero (a b : Q) : ~ b == 0 -> div a b = Finite (a / b).
Proof.
  intros H. unfold div. destruct (is_zero b) eqn:E; [|reflexivity].
  apply is_zero_spec in E. contradiction.
Qed.

Lemma fold_left_sum (A : Type) (f : A -> Q) (data : list A) (a : Q) :
  fold_left (fun acc r => acc + f r) data a = fold_left Qplus (map f data) a.
Proof.
  revert a. induction data as [|r data IH]; intros a; simpl; [reflexivity|].
  apply IH.
Qed.

Lemma sum_positive (l : list Q) (a : Q) :
  (forall x, In x l -> 0 < x) -> 0 <= a -> l <> [] \/ 0 < a ->
  0 < fold_left Qplus l a.
Proof.
  revert a. induction l as [|x l IH]; intros a Hpos Ha Hne; simpl.
  - destruct Hne as [Hne|Hne]; [now elim Hne | assumption].
  - assert (0 < x) as Hx by (apply Hpos; now left).
    assert (0 < a + x) as Hax.
    { apply Qlt_le_trans with (y := 0 + x).
      - now rewrite Qplus_0_l.
      - apply Qplus_le_l. assumption. }
    apply IH.
    + intros y Hy. apply Hpos. now right.
    + now apply Qlt_le_weak.
    + now right.
Qed.

Variable A : Type.
Variable comparefn : A -> A -> Q.

Lemma insert_permutation (x : A) (l : list A) :
  Permutation (insert comparefn x l) (x :: l).
Proof.
  induction l as [|y l IH]; simpl; [reflexivity|].
  destruct (positive (comparefn x y)); [|reflexivity].
  rewrite IH. apply perm_swap.
Qed.

Lemma sort_permutation (l : list A) : Permutation (sort comparefn l) l.
Proof.
  induction l as [|x l IH]; simpl; [reflexivity|].
  rewrite insert_permutation. now constructor.
Qed.

Lemma sort_in (l : list A) (x : A) : In x (sort comparefn l) <-> In x l.
Proof.
  split; apply Permutation_in;
    [apply sort_permutation | symmetry; apply sort_permutation].
Qed.

End SortLemmas.

Section SortDescending.
Import Js AnalyticsSpec.
Local Open Scope Q_scope.
Variable A : Type.
Variable f : A -> Q.

Lemma insert_descending (x : A) (l : list A) :
  StronglySorted (descending f) l ->
  StronglySorted (descending f) (insert (fun a b => f b - f a) x l).
Proof.
  induction l as [|y l IH]; simpl; intros Hs.
  - constructor; constructor.
  - inversion Hs as [|? ? Hl Hy]; subst.
    destruct (positive (f y - f x)) eqn:E.
    + apply positive_minus in E. constructor; [now apply IH|].
      apply Forall_forall. intros z Hz.
      apply (Permutation_in _ (insert_permutation _ x l)) in Hz.
      destruct Hz as [<-|Hz].
      * now apply Qlt_le_weak.
      * rewrite Forall_forall in Hy. now apply Hy.
    + assert (f y <= f x) as Hyx.
      { apply Qnot_lt_le. intros H. apply positive_minus in H. congruence. }
      constructor; [assumption|]. constructor; [assumption|].
      apply Forall_forall. intros z Hz. rewrite Forall_forall in Hy.
      unfold descending. apply Qle_trans with (y := f y); auto.
      now apply Hy.
Qed.

Lemma sort_descending (l : list A) :
  StronglySorted (descending f) (sort (fun a b => f b - f a) l).
Proof.
  induction l as [|x l IH]; simpl; [constructor|].
  now apply insert_descending.
Qed.

End SortDescending.

(** ** The profits view *)

Section ProfitsTheorems.
Import Js Profits AnalyticsSpec ProfitsLoop ProfitsExample.
Local Open Scope Q_scope.

Lemma key_eqb_eq (a b : option N) : key_eqb a b = true <-> a = b.
Proof.
  destruct a as [x|], b as [y|]; simpl; try (split; congruence).
  rewrite N.eqb_eq. split; congruence.
Qed.

Lemma fold_forEach_body (data : list Js.record) (acc : accumulator) :
  acc_totalRevenue (fold_left forEach_body data acc)
  = fold_left Qplus (map Js.total_price data) (acc_totalRevenue acc) /\
  acc_totalCost (fold_left forEach_body data acc)
  = fold_left Qplus (map item_cost data) (acc_totalCost acc) /\
  acc_productProfits (fold_left forEach_body data acc)
  = fold_left (upsert key_eqb Js.product_id profit_init profit_step) data
              (acc_productProfits acc).
Proof.
  revert acc. induction data as [|r data IH]; intros acc; simpl; [auto|].
  destruct (IH (forEach_body acc r)) as [H1 [H2 H3]].
  rewrite H1, H2, H3. repeat split.
Qed.

Lemma fold_profit_step (rs : list Js.record) (e : product_profit) :
  product_id (fold_left profit_step rs e) = product_id e /\
  total_quantity (fold_left profit_step rs e)
  = fold_left Qplus (map Js.quantity rs) (total_quantity e) /\
  total_revenue (fold_left profit_step rs e)
  = fold_left Qplus (map Js.total_price rs) (total_revenue e) /\
  total_cost (fold_left profit_step rs e)
  = fold_left Qplus (map item_cost rs) (total_cost e).
Proof.
  revert e. induction rs as [|r rs IH]; intros e; simpl; [auto|].
  destruct (IH (profit_step e r)) as [H1 [H2 [H3 H4]]].
  rewrite H1, H2, H3, H4. repeat split.
Qed.



End ProfitsTheorems.

(** ** The trending view *)

Section TrendingTheorems.
Import Js Trending AnalyticsSpec TrendingExample.
Local Open Scope Q_scope.

(** C7: the page keeps the first twenty products in the order in which
    they first occur in the query result, and sorts those; the product that
    sold most is missing from the list when it comes twenty-first, while
    sorting before truncating puts it first. *)
Theorem trending_truncates_before_sorting :
  map product_id (displayed quantity twenty_one_products_db 0 100)
  = map (fun n => Some (N.of_nat n)) (seq 1 20) /\
  ~ In (Some 21%N)
       (map product_id (displayed quantity twenty_one_products_db 0 100)) /\
  map product_id
      (spec_top20 quantity (select_sales_records twenty_one_products_db 0 100))
  = Some 21%N :: map (fun n => Some (N.of_nat n)) (seq 1 19).
Proof.
  split; [vm_compute; reflexivity|]. split; [|vm_compute; reflexivity].
  vm_compute. intros H.
  repeat (destruct H as [H|H]; [discriminate|]). exact H.
Qed.

(** The example of the two products. *)
Lemma trending_two_products :
  map product_name (displayed quantity two_products_db 0 100)
  = ["P2"; "P1"]%string /\
  map product_name (displayed revenue two_products_db 0 100)
  = ["P1"; "P2"]%string.
Proof. split; vm_compute; reflexivity. Qed.

(** What is displayed, for any data: the sorted first twenty products. *)
Lemma displayed_sorts_first_twenty
    (sortBy : sort_by) (db : database) (startDate endDate : Z) :
  displayed sortBy db startDate endDate
  = sort (comparefn sortBy)
         (firstn 20 (values (productStats
                               (select_sales_records db startDate endDate)))).
Proof.
  unfold displayed, getTrendingProducts, trending, renderTable, slice0.
  now destruct (firstn 20 _).
Qed.

Lemma displayed_sorted (sortBy : sort_by) (db : database) (startDate endDate : Z) :
  StronglySorted
    (descending (match sortBy with
                 | quantity => total_quantity
                 | revenue => total_revenue
                 end))
    (displayed sortBy db startDate endDate).
Proof.
  rewrite displayed_sorts_first_twenty.
  destruct sortBy; apply sort_descending.
Qed.

(** With at most twenty products the order of the two steps does not
    matter. *)
Lemma displayed_is_top20_up_to_twenty_products
    (sortBy : sort_by) (db : database) (startDate endDate : Z) :
  (List.length (productStats (select_sales_records db startDate endDate)) <= 20)%nat ->
  displayed sortBy db startDate endDate
  = spec_top20 sortBy (select_sales_records db startDate endDate).
Proof.
  intros Hlen. rewrite displayed_sorts_first_twenty. unfold spec_top20, slice0.
  set (l := values _) in *.
  assert (List.length l <= 20)%nat as Hl by (unfold l, values; now rewrite length_map).
  rewrite (firstn_all2 l) by assumption.
  rewrite firstn_all2; [reflexivity|].
  now rewrite (Permutation_length (sort_permutation (comparefn sortBy) l)).
Qed.

End TrendingTheorems.

(** ** The product-sales card *)

Section ProductSalesTheorems.
Import Js ProductSales AnalyticsSpec ProductSalesLoop ProductSalesExample.
Local Open Scope Q_scope.

Lemma fold_totals_step (rs : list Js.record) (t : totals) :
  t_quantity (fold_left totals_step rs t)
  = fold_left Qplus (map Js.quantity rs) (t_quantity t) /\
  t_revenue (fold_left totals_step rs t)
  = fold_left Qplus (map Js.total_price rs) (t_revenue t).
Proof.
  revert t. induction rs as [|r rs IH]; intros t; simpl; [auto|].
  destruct (IH (totals_step t r)) as [H1 H2]. rewrite H1, H2. split; reflexivity.
Qed.

Lemma aggregate_permutation (records : list Js.record) :
  Permutation
    (aggregate records)
    (map product_sale_of
         (fold_left (upsert String.eqb Js.product_name totals_init totals_step)
                    records [])).
Proof.
  unfold aggregate. destruct records as [|r records]; [reflexivity|].
  apply sort_permutation.
Qed.



(** And one product sold under two names has two rows. *)
Lemma product_sales_splits_renamed_product :
  map Js.product_id (select_sales_records renamed_db 0 100) = [Some 1%N; Some 1%N] /\
  map name (queryFn renamed_db 0 100) = ["Shirt (old)"; "Shirt"]%string.
Proof. split; vm_compute; reflexivity. Qed.

End ProductSalesTheorems.

(** ** More on the statements *)

Section MoreOnStatements.
Import Sql Materializer Spec Examples.
Local Open Scope string_scope.
Local Open Scope list_scope.

(** X1: every statement that succeeds keeps the keys of the schema: the
    ids of products and of invoices stay unique, every invoice item and
    every sales record with an invoice id refers to an invoice that exists.
    (Also an update to NULL, and the deletion of an invoice, whose items go
    and whose sales records lose their invoice id.) *)
Theorem statements_keep_schema_keys (db db' : database) (st : statement) :
  well_formed db -> execute db st = Some db' -> well_formed db'.
Proof. apply execute_well_formed. Qed.

Lemma statements_keep_schema_keys_witness :
  well_formed (delete_invoice done_db 1).
Proof.
  apply (@statements_keep_schema_keys done_db (delete_invoice done_db 1)
                                      (DeleteInvoice 1)).
  - apply well_formed_done_db.
  - reflexivity.
Defined.

Lemma joined_rows_fresh_invoice (db : database) (NEW : Invoice.t) :
  items_of db (Invoice.id NEW) = [] -> joined_rows db NEW = [].
Proof.
  intros Hitems. destruct (joined_rows db NEW) as [|row rows] eqn:E; [reflexivity|].
  assert (In (fst row) (items_of db (Invoice.id NEW))) as Hin
      by (apply joined_rows_invoice_id; rewrite E; now left).
  rewrite Hitems in Hin. destruct Hin.
Qed.

(** X2: the insert of an invoice never creates a sales record, whether the
    trigger [create_sales_on_invoice_insert] is installed or not: the
    trigger runs when no invoice item can refer to the new invoice yet.
    The new invoice has no items and [sales_records] is as it was. *)
Theorem insert_invoice_creates_no_sales_records
    (db db' : database) (now : Z) (row : new_invoice) :
  well_formed db ->
  insert_invoice db now row = Some db' ->
  sales_records db' = sales_records db /\
  items_of db' (new_id row) = [] /\
  invoice_items db' = invoice_items db /\
  products db' = products db.
Proof.
  intros Hwf H. apply insert_invoice_cases in H.
  destruct H as [number [rs [_ [_ [Hfresh [_ [-> [_ [Hne _]]]]]]]]].
  assert (items_of db (new_id row) = []) as Hitems
      by now apply items_of_fresh_invoice.
  assert (rs = []) as ->.
  { destruct rs as [|r rs]; [reflexivity|].
    destruct Hne as [_ Hne]; [discriminate|]. contradiction. }
  simpl. rewrite app_nil_r. repeat split. exact Hitems.
Qed.

Lemma insert_invoice_creates_no_sales_records_witness :
  sales_records (mkdb [shirt] [invoice_1_done] [] [] true)
  = sales_records (mkdb [shirt] [] [] [] true) /\
  items_of (mkdb [shirt] [invoice_1_done] [] [] true) 1 = [] /\
  invoice_items (mkdb [shirt] [invoice_1_done] [] [] true)
  = invoice_items (mkdb [shirt] [] [] [] true) /\
  products (mkdb [shirt] [invoice_1_done] [] [] true)
  = products (mkdb [shirt] [] [] [] true).
Proof.
  apply (@insert_invoice_creates_no_sales_records
           (mkdb [shirt] [] [] [] true) (mkdb [shirt] [invoice_1_done] [] [] true)
           100 (plain_invoice 1)).
  - constructor; simpl.
    + repeat constructor. intros [].
    + constructor.
    + intros ii [].
    + intros r id [].
  - reflexivity.
Defined.

Lemma all_rows_none (A B : Type) (f : A -> option B) (l : list A) :
  all_rows (map f l) = None <-> exists x, In x l /\ f x = None.
Proof.
  induction l as [|x l IH]; simpl.
  - split; [discriminate | intros [x [[] _]]].
  - destruct (f x) as [y|] eqn:Hx.
    + destruct (all_rows (map f l)) as [ys|].
      * split; [discriminate|]. intros [z [[<-|Hz] Hfz]]; [congruence|].
        assert (Some ys = None) as Hn by (apply IH; eauto).
        discriminate.
      * split; [|reflexivity]. intros _.
        destruct (proj1 IH eq_refl) as [z [Hz Hfz]]. eauto.
    + split; [|reflexivity]. intros _. exists x. auto.
Qed.

Lemma select_row_none (NEW : Invoice.t) (row : InvoiceItem.t * option Product.t) :
  select_row NEW row = None <->
  Invoice.created_at NEW = None
  \/ amounts_fit (joined_cost (snd row)) (fst row) = false.
Proof.
  unfold select_row, amounts_fit.
  destruct (Invoice.created_at NEW) as [d|]; [|tauto].
  destruct (_ && _); split; try discriminate; try tauto.
  intros [H|H]; discriminate.
Qed.

(** X3: marking a pending invoice done is all or nothing.  The update
    fails, with no new database, exactly when the invoice has an item and no
    creation time, or an item one of whose amounts (unit price, total price,
    cost, profit per unit, total profit) does not fit [DECIMAL(10,2)];
    otherwise it succeeds. *)
Theorem update_to_done_fails_exactly_when
    (db : database) (id : N) (OLD : Invoice.t) :
  find_invoice db id = Some OLD ->
  Invoice.payment_status OLD = Some "pending" ->
  (update_payment_status db id (Some "done") = None <->
   exists row,
     In row (joined_rows db OLD) /\
     (Invoice.created_at OLD = None
      \/ amounts_fit (joined_cost (snd row)) (fst row) = false)).
Proof.
  intros Hfind Hpending.
  unfold update_payment_status. rewrite Hfind. simpl.
  unfold manage_sales_records_on_invoice_update. simpl. rewrite Hpending. simpl.
  unfold insert_sales_records.
  change (joined_rows (set_invoices db (updated_invoices db id (Some "done")))
                      (set_payment_status OLD (Some "done")))
    with (joined_rows db OLD).
  destruct (all_rows _) as [rs|] eqn:E.
  - split; [discriminate|]. intros [row [Hrow Hbad]]. exfalso.
    assert (all_rows (map (select_row (set_payment_status OLD (Some "done")))
                          (joined_rows db OLD)) = None) as Hnone.
    { apply all_rows_none. exists row. split; [assumption|].
      now apply select_row_none. }
    congruence.
  - split; [|reflexivity]. intros _.
    apply all_rows_none in E. destruct E as [row [Hrow Hnone]].
    exists row. split; [assumption|]. now apply select_row_none in Hnone.
Qed.

Lemma update_to_done_fails_exactly_when_witness :
  update_payment_status pending_db 1 (Some "done") = None <->
  exists row,
    In row (joined_rows pending_db invoice_1_pending) /\
    (Invoice.created_at invoice_1_pending = None
     \/ amounts_fit (joined_cost (snd row)) (fst row) = false).
Proof.
  apply (@update_to_done_fails_exactly_when pending_db 1 invoice_1_pending);
    reflexivity.
Defined.

(** An item sold at 99999999.99 of a product with a negative cost: the
    profit per unit does not fit, the update fails. *)
Lemma overflowing_profit_example :
  update_payment_status
    (mkdb [Product.mk 7 (Some (-1)%Z)] [invoice_1_pending]
          [InvoiceItem.mk 1 (Some 7%N) "Shirt" None None 1 9999999999 9999999999]
          [] false)
    1 (Some "done")
  = None.
Proof. reflexivity. Qed.

End MoreOnStatements.

(** ** More on invoice numbers *)

Section MoreOnInvoiceNumbers.
Import Sql InvoiceNumber InvoiceNumberSpec Materializer Spec Examples.
Local Open Scope string_scope.
Local Open Scope list_scope.

(** X4: for an insert without a number (NULL or the empty string), as long
    as the next number is below one million, the trigger function assigns
    'INV-' followed by the largest numeric suffix of the existing numbers
    that contain 'INV-' and digits, plus one, zero-padded to six digits. *)
Theorem auto_number_below_million
    (existing : list string) (given : option string) (n : Z) :
  given = None \/ given = Some "" ->
  next_number existing = Some n ->
  (n < 1000000)%Z ->
  generate_invoice_number existing given = Some (Some (spec_invoice_number existing)).
Proof. apply generate_invoice_number_below_million. Qed.

Lemma auto_number_below_million_witness :
  generate_invoice_number ["INV-000041"; "draft"] (Some "")
  = Some (Some (spec_invoice_number ["INV-000041"; "draft"])).
Proof.
  apply (@auto_number_below_million ["INV-000041"; "draft"] (Some "") 42).
  - now right.
  - reflexivity.
  - reflexivity.
Defined.

(** X5: numbers are sequential below one million: once the number computed
    for [n] is in the table, the next number is [n + 1]. *)
Theorem auto_numbers_are_sequential (existing : list string) (n : Z) :
  next_number existing = Some n ->
  (n < 1000000)%Z ->
  next_number (existing ++ [("INV-" ++ lpad (integer_text n) 6 "0")%string])
  = Some (n + 1)%Z.
Proof. apply next_number_after_insert. Qed.

Lemma auto_numbers_are_sequential_witness :
  next_number (["INV-000041"; "draft"]
                 ++ [("INV-" ++ lpad (integer_text 42) 6 "0")%string])
  = Some (42 + 1)%Z.
Proof.
  apply (@auto_numbers_are_sequential ["INV-000041"; "draft"] 42); reflexivity.
Defined.

Lemma captured_in (numbers : list string) (x d : string) :
  In x numbers -> substring_from x = Some d -> In d (captured numbers).
Proof.
  induction numbers as [|y numbers IH]; intros Hin Hd; [destruct Hin|].
  cbn [captured]. destruct Hin as [->|Hin].
  - rewrite Hd. now left.
  - destruct (substring_from y); [right|]; auto.
Qed.

Lemma max_agg_upper_bound (vs : list Z) (v : Z) :
  In v vs -> (v <= coalesce (max_agg vs) 0)%Z.
Proof.
  destruct vs as [|a vs]; [intros []|]. cbn [max_agg coalesce].
  revert a. induction vs as [|b vs IH]; intros a Hin.
  - destruct Hin as [->|[]]. simpl. lia.
  - cbn [fold_left].
    assert (forall l c, c <= fold_left Z.max l c)%Z as Hmono.
    { induction l as [|e l IHl]; intros c; simpl; [lia|].
      specialize (IHl (Z.max c e)). lia. }
    destruct Hin as [->|[->|Hin]].
    + specialize (Hmono vs (Z.max v b)). lia.
    + specialize (Hmono vs (Z.max a v)). lia.
    + apply IH. now right.
Qed.

Lemma cast_all_fails (ds : list string) (d : string) :
  In d ds -> cast_integer d = None -> cast_all ds = None.
Proof.
  induction ds as [|x ds IH]; intros Hin Hd; [destruct Hin|].
  cbn [cast_all]. destruct Hin as [->|Hin].
  - now rewrite Hd.
  - rewrite (IH Hin Hd). now destruct (cast_integer x).
Qed.

(** The number computed for [n] below one million is not in the table. *)
Lemma auto_number_is_new (existing : list string) (n : Z) :
  next_number existing = Some n ->
  (n < 1000000)%Z ->
  ~ In ("INV-" ++ lpad (integer_text n) 6 "0")%string existing.
Proof.
  intros Hnext Hn Hin.
  pose proof (next_number_after_insert existing Hnext Hn) as Hafter.
  unfold next_number in Hnext.
  destruct (cast_all (captured existing)) as [vs|] eqn:Hvs; [|discriminate].
  pose proof (cast_all_values _ Hvs) as Hvals.
  destruct (coalesce (max_agg vs) 0 + 1 <=? INTEGER_MAX)%Z eqn:Hle;
    [|discriminate].
  injection Hnext as Hnext.
  unfold next_number in Hafter. rewrite captured_app in Hafter.
  cbn [captured] in Hafter.
  destruct (substring_from ("INV-" ++ lpad (integer_text n) 6 "0")%string)
    as [d|] eqn:Hd.
  - pose proof (captured_in _ _ Hin Hd) as Hcap.
    destruct (cast_integer d) as [v|] eqn:Hv.
    + rewrite (@cast_all_app (captured existing) d vs v Hvs Hv) in Hafter.
      assert (In v vs) as Hvin.
      { rewrite Hvals. unfold cast_integer in Hv.
        destruct (decimal_value 0 d <=? INTEGER_MAX)%Z; [|discriminate].
        injection Hv as <-. now apply in_map. }
      pose proof (max_agg_upper_bound _ _ Hvin) as Hbound.
      destruct vs as [|a vs']; [destruct Hvin|].
      cbn [max_agg app coalesce] in Hafter, Hbound, Hnext.
      rewrite fold_left_app in Hafter. cbn [fold_left] in Hafter.
      destruct (Z.max (fold_left Z.max vs' a) v + 1 <=? INTEGER_MAX)%Z;
        [|discriminate].
      injection Hafter as Hafter. lia.
    + rewrite (cast_all_fails _ _ Hcap Hv) in Hvs. discriminate.
  - cbn [app] in Hafter. rewrite app_nil_r in Hafter. rewrite Hvs in Hafter.
    destruct (coalesce (max_agg vs) 0 + 1 <=? INTEGER_MAX)%Z; [|discriminate].
    injection Hafter as Hafter. lia.
Qed.

(** X6: below one million an insert without a number cannot fail on the
    [UNIQUE] constraint of [invoice_number]: with a new id and a payment
    status that passes the check it succeeds, and stores the invoice with
    the computed number. *)
Theorem auto_numbered_insert_succeeds
    (db : database) (now : Z) (row : new_invoice) (n : Z) :
  well_formed db ->
  new_invoice_number row = None \/ new_invoice_number row = Some "" ->
  next_number (invoice_numbers db) = Some n ->
  (n < 1000000)%Z ->
  ~ In (new_id row) (map Invoice.id (invoices db)) ->
  status_in_domain (with_default (new_payment_status row) (Some "done")) ->
  insert_invoice db now row
  = Some (set_invoices db
            (invoices db ++
             [Invoice.mk (new_id row) (spec_invoice_number (invoice_numbers db))
                         (with_default (new_payment_status row) (Some "done"))
                         (with_default (new_created_at row) (Some now))])).
Proof.
  intros Hwf Hgiven Hnext Hn Hfresh Hdom.
  pose proof (generate_invoice_number_below_million _ Hgiven Hnext Hn) as Hgen.
  pose proof (auto_number_is_new _ Hnext Hn) as Hnew.
  assert (generate_invoice_number (invoice_numbers db) (new_invoice_number row)
          = Some (Some ("INV-" ++ lpad (integer_text n) 6 "0")%string)) as Hgen'.
  { unfold generate_invoice_number.
    assert (holds (or3 (is_null (new_invoice_number row))
                       (eq_text (new_invoice_number row) (Some ""))) = true) as ->
        by (destruct Hgiven as [-> | ->]; reflexivity).
    now rewrite Hnext. }
  assert (("INV-" ++ lpad (integer_text n) 6 "0")%string
          = spec_invoice_number (invoice_numbers db)) as Hnum by congruence.
  unfold insert_invoice. fold (invoice_numbers db). rewrite Hgen. rewrite <- Hnum.
  apply payment_status_check_domain in Hdom. rewrite Hdom.
  assert (existsb (uuid_eqb (new_id row)) (map Invoice.id (invoices db)) = false) as ->.
  { destruct (existsb _ _) eqn:E; [|reflexivity].
    apply existsb_exists in E. destruct E as [x [Hx Hxe]].
    apply N.eqb_eq in Hxe. subst x. contradiction. }
  assert (string_mem ("INV-" ++ lpad (integer_text n) 6 "0")%string
                     (invoice_numbers db) = false) as ->.
  { unfold string_mem. destruct (existsb _ _) eqn:E; [|reflexivity].
    apply existsb_exists in E. destruct E as [x [Hx Hxe]].
    apply String.eqb_eq in Hxe. subst x. contradiction. }
  simpl.
  destruct (create_sales_on_invoice_insert db); [|reflexivity].
  unfold create_sales_records_on_invoice.
  destruct (holds _); [|reflexivity].
  unfold insert_sales_records.
  rewrite joined_rows_fresh_invoice.
  - simpl. unfold set_sales_records, set_invoices. simpl.
    now rewrite app_nil_r.
  - exact (@items_of_fresh_invoice db (new_id row) Hwf Hfresh).
Qed.

Lemma auto_numbered_insert_succeeds_witness :
  insert_invoice done_db 200 (plain_invoice 2)
  = Some (set_invoices done_db
            (invoices done_db ++
             [Invoice.mk (new_id (plain_invoice 2))
                         (spec_invoice_number (invoice_numbers done_db))
                         (with_default (new_payment_status (plain_invoice 2))
                                       (Some "done"))
                         (with_default (new_created_at (plain_invoice 2))
                                       (Some 200%Z))])).
Proof.
  apply (@auto_numbered_insert_succeeds done_db 200 (plain_invoice 2) 2).
  - apply well_formed_done_db.
  - now left.
  - reflexivity.
  - reflexivity.
  - simpl. intros [H|[]]. discriminate.
  - right. now left.
Defined.

(** X7: one invoice number whose digits after 'INV-' reach 2147483647
    blocks the numbering: every insert without a number fails (the cast to
    [INTEGER], or the addition of one, is out of range) until that number is
    changed or removed. *)
Theorem integer_overflow_blocks_auto_numbers
    (db : database) (x d : string) (now : Z) (row : new_invoice) :
  In x (invoice_numbers db) ->
  substring_from x = Some d ->
  (INTEGER_MAX <= decimal_value 0 d)%Z ->
  new_invoice_number row = None \/ new_invoice_number row = Some "" ->
  insert_invoice db now row = None.
Proof.
  intros Hx Hd Hbig Hgiven.
  assert (next_number (invoice_numbers db) = None) as Hnext.
  { unfold next_number.
    pose proof (captured_in _ _ Hx Hd) as Hcap.
    destruct (cast_all (captured (invoice_numbers db))) as [vs|] eqn:Hvs;
      [|reflexivity].
    pose proof (cast_all_values _ Hvs) as Hvals.
    assert (In (decimal_value 0 d) vs) as Hin
        by (rewrite Hvals; now apply in_map).
    pose proof (max_agg_upper_bound _ _ Hin) as Hbound.
    destruct (coalesce (max_agg vs) 0 + 1 <=? INTEGER_MAX)%Z eqn:E;
      [|reflexivity].
    apply Z.leb_le in E. lia. }
  unfold insert_invoice, generate_invoice_number. fold (invoice_numbers db).
  assert (holds (or3 (is_null (new_invoice_number row))
                     (eq_text (new_invoice_number row) (Some ""))) = true) as ->
      by (destruct Hgiven as [-> | ->]; reflexivity).
  now rewrite Hnext.
Qed.

Lemma integer_overflow_blocks_auto_numbers_witness :
  insert_invoice
    (mkdb [] [Invoice.mk 1 "INV-2147483647" (Some "done") (Some 100%Z)] [] [] false)
    200 (plain_invoice 2)
  = None.
Proof.
  apply (@integer_overflow_blocks_auto_numbers
           (mkdb [] [Invoice.mk 1 "INV-2147483647" (Some "done") (Some 100%Z)]
                 [] [] false)
           "INV-2147483647" "2147483647" 200 (plain_invoice 2)).
  - now left.
  - reflexivity.
  - unfold INTEGER_MAX. simpl. lia.
  - now left.
Defined.

Lemma find_new_invoice (rows : list Invoice.t) (NEW : Invoice.t) :
  ~ In (Invoice.id NEW) (map Invoice.id rows) ->
  find (fun i => uuid_eqb (Invoice.id i) (Invoice.id NEW)) (rows ++ [NEW])
  = Some NEW /\
  filter (fun i => negb (uuid_eqb (Invoice.id i) (Invoice.id NEW))) (rows ++ [NEW])
  = rows.
Proof.
  unfold uuid_eqb. induction rows as [|i rows IH]; simpl; intros Hfresh.
  - rewrite N.eqb_refl. split; reflexivity.
  - destruct (N.eqb (Invoice.id i) (Invoice.id NEW)) eqn:E.
    + apply N.eqb_eq in E. exfalso. apply Hfresh. now left.
    + simpl. destruct IH as [H1 H2]; [tauto|]. rewrite H2. split; auto.
Qed.

(** X8: the number of a deleted invoice is given again.  When the invoice
    that was inserted last (without a number) is deleted, the next insert
    without a number gets the same invoice number. *)
Theorem deleted_invoice_number_is_reused
    (db db1 db2 : database) (now1 now2 : Z) (row1 row2 : new_invoice) :
  new_invoice_number row1 = None \/ new_invoice_number row1 = Some "" ->
  new_invoice_number row2 = None \/ new_invoice_number row2 = Some "" ->
  insert_invoice db now1 row1 = Some db1 ->
  insert_invoice (delete_invoice db1 (new_id row1)) now2 row2 = Some db2 ->
  exists i1 i2,
    find_invoice db1 (new_id row1) = Some i1 /\
    find_invoice db2 (new_id row2) = Some i2 /\
    Invoice.invoice_number i2 = Invoice.invoice_number i1.
Proof.
  intros Hg1 Hg2 H1 H2.
  apply insert_invoice_cases in H1.
  destruct H1 as [number1 [rs1 [Hgen1 [_ [Hfresh1 [_ [-> _]]]]]]].
  set (NEW1 := Invoice.mk (new_id row1) number1 _ _) in *.
  destruct (@find_new_invoice (invoices db) NEW1 Hfresh1) as [Hfind1 Hfilter1].
  apply insert_invoice_cases in H2.
  destruct H2 as [number2 [rs2 [Hgen2 [_ [Hfresh2 [_ [-> _]]]]]]].
  simpl in Hgen2, Hfresh2. change (new_id row1) with (Invoice.id NEW1) in Hgen2, Hfresh2.
  rewrite Hfilter1 in Hgen2, Hfresh2.
  set (NEW2 := Invoice.mk (new_id row2) number2 _ _) in *.
  destruct (@find_new_invoice (invoices db) NEW2 Hfresh2) as [Hfind2 _].
  exists NEW1, NEW2. unfold find_invoice. simpl.
  change (new_id row1) with (Invoice.id NEW1).
  rewrite Hfilter1.
  split; [exact Hfind1|]. split; [exact Hfind2|].
  unfold generate_invoice_number in Hgen1, Hgen2.
  assert (forall g, g = None \/ g = Some "" ->
                    holds (or3 (is_null g) (eq_text g (Some ""))) = true) as Hh
      by (intros g [-> | ->]; reflexivity).
  rewrite (Hh _ Hg1) in Hgen1. rewrite (Hh _ Hg2) in Hgen2.
  destruct (next_number (map Invoice.invoice_number (invoices db)));
    [|discriminate].
  simpl. congruence.
Qed.

Lemma deleted_invoice_number_is_reused_witness :
  exists i1 i2,
    find_invoice (mkdb [] [invoice_1_done] [] [] false) (new_id (plain_invoice 1))
    = Some i1 /\
    find_invoice
      (mkdb [] [Invoice.mk 2 "INV-000001" (Some "done") (Some 200%Z)] [] [] false)
      (new_id (plain_invoice 2))
    = Some i2 /\
    Invoice.invoice_number i2 = Invoice.invoice_number i1.
Proof.
  apply (@deleted_invoice_number_is_reused
           (empty_database false) _ _ 100 200 (plain_invoice 1) (plain_invoice 2));
    try (now left); reflexivity.
Defined.

End MoreOnInvoiceNumbers.

(** ** Deleting a product *)

Section ProductDeletion.
Import Sql Materializer Spec Catalog Examples.
Local Open Scope string_scope.
Local Open Scope list_scope.

Lemma products_pkey_after_delete (ps : list Product.t) (pid : N) :
  NoDup (map Product.id ps) ->
  NoDup (map Product.id (filter (fun p => negb (uuid_eqb (Product.id p) pid)) ps)).
Proof.
  induction ps as [|p ps IH]; simpl; intros Hnd; [constructor|].
  inversion Hnd as [|? ? Hnotin Hnd']; subst.
  destruct (negb (uuid_eqb (Product.id p) pid)); simpl; [|now apply IH].
  constructor; [|now apply IH].
  intros Hin. apply Hnotin. apply in_map_iff in Hin.
  destruct Hin as [q [Hq Hin]]. apply filter_In in Hin.
  rewrite <- Hq. apply in_map. tauto.
Qed.

Lemma clear_item_product_columns (pid : N) (ii : InvoiceItem.t) :
  InvoiceItem.invoice_id (clear_item_product pid ii) = InvoiceItem.invoice_id ii /\
  InvoiceItem.product_id (clear_item_product pid ii) <> Some pid /\
  InvoiceItem.unit_price (clear_item_product pid ii) = InvoiceItem.unit_price ii /\
  InvoiceItem.total_price (clear_item_product pid ii) = InvoiceItem.total_price ii.
Proof.
  unfold clear_item_product.
  destruct (uuid_matches (InvoiceItem.product_id ii) pid) eqn:E; simpl.
  - repeat split; congruence.
  - repeat split. intros H. apply uuid_matches_true in H. congruence.
Qed.

Lemma clear_sale_product_columns (pid : N) (r : SalesRecord.t) :
  SalesRecord.invoice_id (clear_sale_product pid r) = SalesRecord.invoice_id r /\
  SalesRecord.product_id (clear_sale_product pid r) <> Some pid /\
  (SalesRecord.product_id (clear_sale_product pid r) = SalesRecord.product_id r \/
   SalesRecord.product_id r = Some pid) /\
  SalesRecord.product_name (clear_sale_product pid r) = SalesRecord.product_name r /\
  SalesRecord.quantity (clear_sale_product pid r) = SalesRecord.quantity r /\
  SalesRecord.total_price (clear_sale_product pid r) = SalesRecord.total_price r /\
  SalesRecord.cost_per_unit (clear_sale_product pid r) = SalesRecord.cost_per_unit r /\
  SalesRecord.total_profit (clear_sale_product pid r) = SalesRecord.total_profit r.
Proof.
  unfold clear_sale_product.
  destruct (uuid_matches (SalesRecord.product_id r) pid) eqn:E; simpl.
  - apply uuid_matches_true in E. repeat split; auto; congruence.
  - repeat split; auto. intros H. apply uuid_matches_true in H. congruence.
Qed.

Lemma sales_of_delete_product (db : database) (pid id : N) :
  sales_of (delete_product db pid) id
  = map (clear_sale_product pid) (sales_of db id).
Proof.
  unfold sales_of, delete_product. simpl.
  induction (sales_records db) as [|r rs IH]; simpl; [reflexivity|].
  destruct (clear_sale_product_columns pid r) as [-> _].
  destruct (uuid_matches (SalesRecord.invoice_id r) id); simpl; now rewrite IH.
Qed.

Lemma items_of_delete_product (db : database) (pid id : N) :
  items_of (delete_product db pid) id
  = map (clear_item_product pid) (items_of db id).
Proof.
  unfold items_of, delete_product. simpl.
  induction (invoice_items db) as [|ii l IH]; simpl; [reflexivity|].
  destruct (clear_item_product_columns pid ii) as [-> _].
  destruct (uuid_eqb (InvoiceItem.invoice_id ii) id); simpl; now rewrite IH.
Qed.

(** X9: deleting a product keeps the history.  The keys of the schema still
    hold; every invoice keeps its items and its sales records, with their
    names, quantities and amounts; only their [product_id] is set to NULL
    where it was the deleted product, so that nothing refers to it. *)
Theorem delete_product_keeps_history (db : database) (pid : N) :
  well_formed db ->
  let db' := delete_product db pid in
  well_formed db' /\
  ~ In pid (map Product.id (products db')) /\
  (forall id, items_of db' id = map (clear_item_product pid) (items_of db id)) /\
  (forall id, sales_of db' id = map (clear_sale_product pid) (sales_of db id)) /\
  (forall ii, In ii (invoice_items db') -> InvoiceItem.product_id ii <> Some pid) /\
  (forall r, In r (sales_records db') -> SalesRecord.product_id r <> Some pid) /\
  map SalesRecord.product_name (sales_records db')
  = map SalesRecord.product_name (sales_records db) /\
  map SalesRecord.quantity (sales_records db')
  = map SalesRecord.quantity (sales_records db) /\
  map SalesRecord.total_price (sales_records db')
  = map SalesRecord.total_price (sales_records db) /\
  map SalesRecord.total_profit (sales_records db')
  = map SalesRecord.total_profit (sales_records db).
Proof.
  intros [Hp Hi Hfk Hsk] db'. subst db'.
  split; [|split; [|split; [|split; [|split; [|split]]]]].
  - constructor; simpl.
    + now apply products_pkey_after_delete.
    + assumption.
    + intros ii Hin. apply in_map_iff in Hin. destruct Hin as [ii0 [<- Hin]].
      destruct (clear_item_product_columns pid ii0) as [-> _]. now apply Hfk.
    + intros r id Hin Hid. apply in_map_iff in Hin. destruct Hin as [r0 [<- Hin]].
      destruct (clear_sale_product_columns pid r0) as [E _].
      rewrite E in Hid. now apply (Hsk r0).
  - simpl. intros Hin. apply in_map_iff in Hin. destruct Hin as [p [Hid Hin]].
    apply filter_In in Hin. destruct Hin as [_ Hne].
    unfold uuid_eqb in Hne. rewrite Hid, N.eqb_refl in Hne. discriminate.
  - intros id. apply items_of_delete_product.
  - intros id. apply sales_of_delete_product.
  - simpl. intros ii Hin. apply in_map_iff in Hin. destruct Hin as [ii0 [<- Hin]].
    apply clear_item_product_columns.
  - simpl. intros r Hin. apply in_map_iff in Hin. destruct Hin as [r0 [<- Hin]].
    apply clear_sale_product_columns.
  - simpl. rewrite !map_map.
    repeat split; apply map_ext; intros r; apply clear_sale_product_columns.
Qed.

Lemma delete_product_keeps_history_witness :
  let db' := delete_product done_db 7 in
  well_formed db' /\
  ~ In 7%N (map Product.id (products db')) /\
  (forall id, items_of db' id = map (clear_item_product 7) (items_of done_db id)) /\
  (forall id, sales_of db' id = map (clear_sale_product 7) (sales_of done_db id)) /\
  (forall ii, In ii (invoice_items db') -> InvoiceItem.product_id ii <> Some 7%N) /\
  (forall r, In r (sales_records db') -> SalesRecord.product_id r <> Some 7%N) /\
  map SalesRecord.product_name (sales_records db')
  = map SalesRecord.product_name (sales_records done_db) /\
  map SalesRecord.quantity (sales_records db')
  = map SalesRecord.quantity (sales_records done_db) /\
  map SalesRecord.total_price (sales_records db')
  = map SalesRecord.total_price (sales_records done_db) /\
  map SalesRecord.total_profit (sales_records db')
  = map SalesRecord.total_profit (sales_records done_db).
Proof.
  apply (@delete_product_keeps_history done_db 7). apply well_formed_done_db.
Defined.

(** X10: an invoice that becomes done after one of its products was deleted
    is recorded without that product: none of the new sales records refers
    to the deleted product, and a record without product has cost 0, the
    unit price as profit per unit and the total price as total profit. *)
Theorem sales_after_delete_product
    (db db' : database) (pid id : N) (OLD : Invoice.t) :
  well_formed db ->
  find_invoice db id = Some OLD ->
  Invoice.payment_status OLD = Some "pending" ->
  update_payment_status (delete_product db pid) id (Some "done") = Some db' ->
  exists rs,
    sales_records db' = map (clear_sale_product pid) (sales_records db) ++ rs /\
    List.length rs = List.length (items_of db id) /\
    forall r, In r rs ->
      SalesRecord.invoice_id r = Some id /\
      SalesRecord.product_id r <> Some pid /\
      (SalesRecord.product_id r = None ->
       SalesRecord.cost_per_unit r = Some 0%Z /\
       SalesRecord.profit_per_unit r = Some (SalesRecord.unit_price r) /\
       SalesRecord.total_profit r = Some (SalesRecord.total_price r)).
Proof.
  intros Hwf Hfind Hpending Hup.
  pose proof (find_invoice_some _ _ Hfind) as Hsome.
  apply update_payment_status_cases in Hup.
  destruct Hup as [[Hnone _] | [OLD' [Hfind' [_ Hcases]]]].
  { unfold find_invoice, delete_product in Hnone. simpl in Hnone.
    unfold find_invoice in Hfind. congruence. }
  assert (OLD' = OLD) as ->.
  { unfold find_invoice, delete_product in Hfind'. simpl in Hfind'.
    unfold find_invoice in Hfind. congruence. }
  simpl in Hcases.
  destruct Hcases as [[_ [_ Hins]] | [[Hd _] | [Hn _]]];
    [| congruence | elim Hn; now split].
  apply insert_sales_records_added in Hins.
  destruct Hins as [rs [-> [Hids [_ HF]]]].
  simpl in HF. destruct Hwf as [Hp _ _ _].
  specialize (HF (@products_pkey_after_delete (products db) pid Hp)).
  assert (Invoice.id OLD = id) as Hid by (destruct Hsome; assumption).
  rewrite Hid in *.
  change (items_of _ id)
    with (items_of (delete_product db pid) id) in HF.
  rewrite items_of_delete_product in HF.
  exists rs. simpl. split; [reflexivity|]. split.
  { apply Forall2_length in HF. rewrite length_map in HF. now symmetry. }
  intros r Hr. split; [rewrite (Hids r Hr); simpl; now rewrite Hid|].
  clear Hids.
  revert rs HF r Hr.
  induction (items_of db id) as [|ii l IH]; simpl; intros rs HF r Hr.
  - inversion HF; subst. destruct Hr.
  - inversion HF as [|? r0 ? rs0 Hm HF']; subst.
    destruct Hr as [<-|Hr]; [|now apply (IH rs0)].
    destruct Hm as [_ Mp _ _ _ _ Mu Mt Mc Mpp Mtp _].
    destruct (clear_item_product_columns pid ii) as [_ [Hne _]].
    split; [congruence|].
    intros Hnull. rewrite Hnull in Mp.
    unfold current_cost, referenced_product in Mc, Mpp, Mtp.
    rewrite <- Mp in Mc, Mpp, Mtp.
    rewrite Mc, Mpp, Mtp, Mu, Mt. auto.
Qed.

Lemma sales_after_delete_product_witness :
  exists rs,
    sales_records (run (delete_product pending_db 7) [UpdatePaymentStatus 1 (Some "done")])
    = map (clear_sale_product 7) (sales_records pending_db) ++ rs /\
    List.length rs = List.length (items_of pending_db 1) /\
    forall r, In r rs ->
      SalesRecord.invoice_id r = Some 1%N /\
      SalesRecord.product_id r <> Some 7%N /\
      (SalesRecord.product_id r = None ->
       SalesRecord.cost_per_unit r = Some 0%Z /\
       SalesRecord.profit_per_unit r = Some (SalesRecord.unit_price r) /\
       SalesRecord.total_profit r = Some (SalesRecord.total_price r)).
Proof.
  apply (@sales_after_delete_product pending_db _ 7 1 invoice_1_pending).
  - apply well_formed_pending_db.
  - reflexivity.
  - reflexivity.
  - reflexivity.
Defined.

End ProductDeletion.

(** ** The rows that the migration inserts *)

Section SeedRows.
Import Seeds.
Local Open Scope string_scope.
Local Open Scope list_scope.

Variable Row : Type.
Variable name : Row -> string.

Lemma insert_do_nothing_cases (t : list Row) (row : Row) :
  (In (name row) (map name t) /\ insert_do_nothing name t row = t) \/
  (~ In (name row) (map name t) /\ insert_do_nothing name t row = t ++ [row]).
Proof.
  unfold insert_do_nothing.
  destruct (existsb (fun r => String.eqb (name r) (name row)) t) eqn:E.
  - left. split; [|reflexivity].
    apply existsb_exists in E. destruct E as [r [Hin Heq]].
    apply String.eqb_eq in Heq. rewrite <- Heq. now apply in_map.
  - right. split; [|reflexivity].
    intros Hin. apply in_map_iff in Hin. destruct Hin as [r [Heq Hin]].
    assert (existsb (fun r => String.eqb (name r) (name row)) t = true) as E'
        by (apply existsb_exists; exists r; split;
            [assumption | now apply String.eqb_eq]).
    congruence.
Qed.

(** The statement only appends: rows of the statement whose name was free. *)
Lemma insert_values_appends (rows t : list Row) :
  exists added,
    insert_values name t rows = t ++ added /\
    forall r, In r added -> In r rows /\ ~ In (name r) (map name t).
Proof.
  unfold insert_values. revert t.
  induction rows as [|row rows IH]; intros t; simpl.
  - exists []. rewrite app_nil_r. split; [reflexivity|]. intros r [].
  - destruct (insert_do_nothing_cases t row) as [[_ ->] | [Hfree ->]].
    + destruct (IH t) as [added [-> Hadded]]. exists added.
      split; [reflexivity|]. intros r Hr. destruct (Hadded r Hr). auto.
    + destruct (IH (t ++ [row])) as [added [-> Hadded]]. exists (row :: added).
      rewrite <- app_assoc. split; [reflexivity|].
      intros r [<-|Hr]; [auto|].
      destruct (Hadded r Hr) as [H1 H2]. split; [auto|].
      intros Hin. apply H2. rewrite map_app, in_app_iff. now left.
Qed.

Lemma insert_values_unique_names (rows t : list Row) :
  NoDup (map name t) -> NoDup (map name (insert_values name t rows)).
Proof.
  unfold insert_values. revert t.
  induction rows as [|row rows IH]; intros t Hnd; simpl; [assumption|].
  apply IH.
  destruct (insert_do_nothing_cases t row) as [[_ ->] | [Hfree ->]];
    [assumption|].
  rewrite map_app. simpl.
  induction (map name t) as [|k ks IHk]; simpl.
  - constructor; [intros []|constructor].
  - inversion Hnd as [|? ? Hk Hks]; subst. constructor.
    + rewrite in_app_iff. simpl. intros [H|[H|[]]]; [auto|].
      apply Hfree. now left.
    + apply IHk; [assumption|]. intros H. apply Hfree. now right.
Qed.

Lemma insert_values_keeps_names (rows t : list Row) (n : string) :
  In n (map name t) -> In n (map name (insert_values name t rows)).
Proof.
  destruct (insert_values_appends rows t) as [added [-> _]].
  rewrite map_app, in_app_iff. now left.
Qed.

Lemma insert_values_all_names (rows t : list Row) (row : Row) :
  In row rows -> In (name row) (map name (insert_values name t rows)).
Proof.
  unfold insert_values. revert t.
  induction rows as [|row0 rows IH]; intros t; simpl; [intros []|].
  intros [->|Hin]; [|now apply IH].
  apply insert_values_keeps_names.
  destruct (insert_do_nothing_cases t row) as [[Hin ->] | [_ ->]];
    [assumption|].
  rewrite map_app, in_app_iff. right. now left.
Qed.

Lemma insert_values_nothing (rows t : list Row) :
  (forall row, In row rows -> In (name row) (map name t)) ->
  insert_values name t rows = t.
Proof.
  unfold insert_values.
  induction rows as [|row rows IH]; simpl; intros Hall; [reflexivity|].
  destruct (insert_do_nothing_cases t row) as [[_ ->] | [Hfree _]].
  - apply IH. auto.
  - elim Hfree. apply Hall. now left.
Qed.

Lemma insert_values_twice (rows t : list Row) :
  insert_values name (insert_values name t rows) rows = insert_values name t rows.
Proof.
  apply insert_values_nothing. intros row Hin. now apply insert_values_all_names.
Qed.

End SeedRows.

Section SeedTheorems.
Import Seeds.
Local Open Scope string_scope.
Local Open Scope list_scope.

(** X11: "Insert default sizes" can be run on any [sizes] table, any number
    of times.  It only appends rows, each a default size whose name was not
    in the table; names stay unique; afterwards the seven default names are
    there; and a second run changes nothing. *)
Theorem seed_sizes_is_idempotent (t : list size) :
  NoDup (map size_name t) ->
  (exists added,
      seed_sizes t = t ++ added /\
      forall s, In s added ->
                In s default_sizes /\ ~ In (size_name s) (map size_name t)) /\
  NoDup (map size_name (seed_sizes t)) /\
  (forall n, In n ["XS"; "S"; "M"; "L"; "XL"; "XXL"; "XXXL"] ->
             In n (map size_name (seed_sizes t))) /\
  seed_sizes (seed_sizes t) = seed_sizes t.
Proof.
  intros Hnd. unfold seed_sizes. split; [|split; [|split]].
  - apply insert_values_appends.
  - now apply insert_values_unique_names.
  - intros n Hn.
    change ["XS"; "S"; "M"; "L"; "XL"; "XXL"; "XXXL"]
      with (map size_name default_sizes) in Hn.
    apply in_map_iff in Hn. destruct Hn as [s [<- Hs]].
    now apply insert_values_all_names.
  - apply insert_values_twice.
Qed.

Lemma seed_sizes_is_idempotent_witness :
  (exists added,
      seed_sizes [mk_size "M" (Some 30%Z)] = [mk_size "M" (Some 30%Z)] ++ added /\
      forall s, In s added ->
                In s default_sizes /\
                ~ In (size_name s) (map size_name [mk_size "M" (Some 30%Z)])) /\
  NoDup (map size_name (seed_sizes [mk_size "M" (Some 30%Z)])) /\
  (forall n, In n ["XS"; "S"; "M"; "L"; "XL"; "XXL"; "XXXL"] ->
             In n (map size_name (seed_sizes [mk_size "M" (Some 30%Z)]))) /\
  seed_sizes (seed_sizes [mk_size "M" (Some 30%Z)])
  = seed_sizes [mk_size "M" (Some 30%Z)].
Proof.
  apply (@seed_sizes_is_idempotent [mk_size "M" (Some 30%Z)]).
  simpl. constructor; [intros []|constructor].
Defined.

(** X12: "Insert default colors" never overwrites.  A colour of the table
    stays as it is, also when it has the name of a default colour and
    another hex code; a row of the result is an old row, or a default colour
    whose name was free; every default name is there afterwards; and a
    second run changes nothing. *)
Theorem seed_colors_never_overwrites (t : list color) :
  (forall c, In c t -> In c (seed_colors t)) /\
  (forall c, In c (seed_colors t) ->
             In c t \/
             (In c default_colors /\ ~ In (color_name c) (map color_name t))) /\
  (forall c, In c default_colors ->
             In (color_name c) (map color_name (seed_colors t))) /\
  seed_colors (seed_colors t) = seed_colors t.
Proof.
  unfold seed_colors.
  destruct (insert_values_appends color_name default_colors t)
    as [added [E Hadded]].
  split; [|split; [|split]].
  - intros c Hc. rewrite E, in_app_iff. now left.
  - intros c Hc. rewrite E, in_app_iff in Hc.
    destruct Hc as [Hc|Hc]; [now left|right; now apply Hadded].
  - intros c Hc. now apply insert_values_all_names.
  - apply insert_values_twice.
Qed.

(** A custom black keeps its hex code. *)
Lemma seed_colors_custom_black :
  filter (fun c => String.eqb (color_name c) "Black")
         (seed_colors [mk_color "Black" (Some "#111111") None])
  = [mk_color "Black" (Some "#111111") None].
Proof. reflexivity. Qed.

(** X13: the default store settings are inserted on every run.  The
    statement names no column with a unique constraint, and the generated
    [id] is new each time, so [ON CONFLICT DO NOTHING] never skips the row:
    after the statement has run with the ids [ids], the table has one more
    default row for each of them, whatever it held before. *)
Theorem store_settings_seed_adds_a_row_each_time
    (ids : list N) (t : list store_settings) :
  NoDup ids ->
  (forall id, In id ids -> ~ In id (map settings_id t)) ->
  fold_left seed_store_settings ids t
  = t ++ map (fun id => mk_store_settings id "My Garment Store"
                                          (Some 1800%Z) (Some 10%Z)) ids.
Proof.
  revert t. induction ids as [|id ids IH]; intros t Hnd Hfresh; simpl.
  - now rewrite app_nil_r.
  - inversion Hnd as [|? ? Hid Hids]; subst.
    assert (seed_store_settings t id
            = t ++ [mk_store_settings id "My Garment Store"
                                      (Some 1800%Z) (Some 10%Z)]) as ->.
    { unfold seed_store_settings.
      destruct (existsb (fun r => N.eqb (settings_id r) id) t) eqn:E;
        [|reflexivity].
      apply existsb_exists in E. destruct E as [r [Hin Heq]].
      apply N.eqb_eq in Heq. exfalso. apply (Hfresh id); [now left|].
      rewrite <- Heq. now apply in_map. }
    rewrite IH; [now rewrite <- app_assoc| assumption |].
    intros id' Hin'. rewrite map_app, in_app_iff. simpl.
    intros [H|[H|[]]].
    + apply (Hfresh id'); [now right | assumption].
    + subst. contradiction.
Qed.

Lemma store_settings_seed_adds_a_row_each_time_witness :
  fold_left seed_store_settings [2%N; 3%N]
            [mk_store_settings 1 "Asha Garments" (Some 500%Z) (Some 5%Z)]
  = [mk_store_settings 1 "Asha Garments" (Some 500%Z) (Some 5%Z)]
    ++ map (fun id => mk_store_settings id "My Garment Store"
                                        (Some 1800%Z) (Some 10%Z)) [2%N; 3%N].
Proof.
  apply (@store_settings_seed_adds_a_row_each_time
           [2%N; 3%N]
           [mk_store_settings 1 "Asha Garments" (Some 500%Z) (Some 5%Z)]).
  - constructor; [simpl; intros [H|[]]; discriminate|].
    constructor; [intros []|constructor].
  - simpl. intros id [<-|[<-|[]]] [H|[]]; discriminate.
Defined.

End SeedTheorems.

(** ** The product selection dialog *)

Section ProductSelectionTheorems.
Import ProductSelection.
Local Open Scope string_scope.
Local Open Scope list_scope.

Lemma includes_empty (s : string) : includes s "" = true.
Proof. now destruct s. Qed.

(** X14: the empty search shows every product, with or without sku,
    whatever [toLowerCase] does to the names, as long as it maps the empty
    string to itself. *)
Theorem empty_query_shows_all_products
    (toLowerCase : string -> string) (products : list product) :
  toLowerCase "" = "" ->
  filteredProducts toLowerCase (Some products) "" = Some products.
Proof.
  intros Hempty. unfold filteredProducts. simpl. f_equal.
  induction products as [|p ps IH]; simpl; [reflexivity|].
  unfold matches_query at 1. rewrite Hempty, includes_empty. simpl.
  now rewrite IH.
Qed.

Lemma empty_query_shows_all_products_witness :
  filteredProducts (fun s => s)
                   (Some [mk_product "Kurta" None 0; mk_product "Saree" (Some "SR-1") 4])
                   ""
  = Some [mk_product "Kurta" None 0; mk_product "Saree" (Some "SR-1") 4].
Proof.
  apply (@empty_query_shows_all_products
           (fun s => s)
           [mk_product "Kurta" None 0; mk_product "Saree" (Some "SR-1") 4]).
  reflexivity.
Defined.

Lemma selected_app (es1 es2 : list effect) :
  selected (es1 ++ es2) = selected es1 ++ selected es2.
Proof.
  induction es1 as [|e es1 IH]; simpl; [reflexivity|].
  destruct e; simpl; now rewrite IH.
Qed.

(** X15: the stock guard of the dialog.  Over any sequence of clicks, the
    products handed to [onSelectProduct] are exactly the clicked products
    with a positive stock, in the order of the clicks; a click on a product
    without stock only shows the error toast: it selects nothing, leaves the
    dialog open and keeps the search text. *)
Theorem only_products_in_stock_are_selected (ps : list product) :
  selected (clicks ps) = filter (fun p => (0 <? quantity_in_stock p)%Z) ps /\
  (forall p, In (OnSelectProduct p) (clicks ps) ->
             In p ps /\ (0 < quantity_in_stock p)%Z) /\
  (forall p, (quantity_in_stock p <= 0)%Z ->
             handleSelect p
             = [ToastError "Please add stock before adding this product."
                           (name p ++ " is currently out of stock.") 4000]).
Proof.
  split; [|split].
  - unfold clicks. induction ps as [|p ps IH]; simpl; [reflexivity|].
    rewrite selected_app, IH. unfold handleSelect.
    destruct (Z.leb_spec (quantity_in_stock p) 0) as [H|H];
      destruct (Z.ltb_spec 0 (quantity_in_stock p)) as [H'|H'];
      try lia; reflexivity.
  - intros p Hin. unfold clicks in Hin. apply in_flat_map in Hin.
    destruct Hin as [q [Hq Hin]]. unfold handleSelect in Hin.
    destruct (Z.leb_spec (quantity_in_stock q) 0) as [H|H].
    + destruct Hin as [Hin|[]]. discriminate.
    + destruct Hin as [Hin|[Hin|[Hin|[]]]]; try discriminate.
      injection Hin as ->. split; assumption.
  - intros p Hp. unfold handleSelect.
    destruct (Z.leb_spec (quantity_in_stock p) 0) as [H|H]; [reflexivity|lia].
Qed.

End ProductSelectionTheorems.

(** ** Sums over the groups *)

Section AnalyticsSums.
Import Js AnalyticsSpec.
Local Open Scope Q_scope.

Lemma sumQ_from (l : list Q) (a : Q) : fold_left Qplus l a == a + sumQ l.
Proof.
  unfold sumQ. revert a. induction l as [|x l IH]; intros a; simpl.
  - ring.
  - rewrite (IH (a + x)), (IH (0 + x)). ring.
Qed.

Lemma sumQ_cons (x : Q) (l : list Q) : sumQ (x :: l) == x + sumQ l.
Proof. unfold sumQ at 1. simpl. rewrite sumQ_from. ring. Qed.

Lemma sumQ_permutation (l l' : list Q) : Permutation l l' -> sumQ l == sumQ l'.
Proof.
  induction 1 as [|x l l' _ IH|x y l|l l' l'' _ IH1 _ IH2].
  - reflexivity.
  - now rewrite !sumQ_cons, IH.
  - rewrite !sumQ_cons. ring.
  - now rewrite IH1.
Qed.

Lemma sumQ_pointwise (A : Type) (g h : A -> Q) (l : list A) :
  (forall r, In r l -> g r == h r) -> sumQ (map g l) == sumQ (map h l).
Proof.
  induction l as [|r l IH]; simpl; intros Hgh; [reflexivity|].
  rewrite !sumQ_cons, IH, (Hgh r); [reflexivity | now left | auto].
Qed.

Lemma sumQ_difference (A : Type) (a b : A -> Q) (l : list A) :
  sumQ (map (fun r => a r - b r) l) == sumQ (map a l) - sumQ (map b l).
Proof.
  induction l as [|r l IH]; simpl; [reflexivity|].
  rewrite !sumQ_cons, IH. ring.
Qed.

Variables K V R : Type.
Variable eqb : K -> K -> bool.
Variable key : R -> K.
Variable init : R -> V.
Variable step : V -> R -> V.

(** A column [f] of the entries that starts at zero and to which each
    record adds [g]. *)
Variable f : V -> Q.
Variable g : R -> Q.
Hypothesis f_init : forall r, f (init r) == 0.
Hypothesis f_step : forall v r, f (step v r) == f v + g r.

Lemma sum_upsert (o : list (K * V)) (r : R) :
  sumQ (map f (values (upsert eqb key init step o r)))
  == sumQ (map f (values o)) + g r.
Proof.
  unfold upsert, values. induction o as [|[k0 v0] o IH]; simpl.
  - rewrite sumQ_cons, f_step, f_init. unfold sumQ. simpl. ring.
  - destruct (eqb k0 (key r)); simpl.
    + rewrite !sumQ_cons, f_step. ring.
    + rewrite !sumQ_cons, IH. ring.
Qed.

(** Over all entries, the column sums to the sum of [g] over the records:
    no record is lost and none is counted twice. *)
Lemma sum_fold_upsert (data : list R) (o : list (K * V)) :
  sumQ (map f (values (fold_left (upsert eqb key init step) data o)))
  == sumQ (map f (values o)) + sumQ (map g data).
Proof.
  revert o. induction data as [|r data IH]; intros o; simpl.
  - unfold sumQ at 3. simpl. ring.
  - rewrite IH, sum_upsert, sumQ_cons. ring.
Qed.

End AnalyticsSums.


(** ** More on the profits page *)

Section MoreOnProfits.
Import Sql Materializer Js Profits AnalyticsSpec ProfitsLoop Examples.
Local Open Scope Q_scope.

(** [Number(record.total_profit)] *)
Local Abbreviation record_profit := (fun r : Js.record => Number (Js.total_profit r)).

Local Abbreviation profit_groups data :=
  (fold_left (upsert key_eqb Js.product_id profit_init profit_step) data []).

Lemma fold_profit_step_profit (rs : list Js.record) (e : product_profit) :
  product_name (fold_left profit_step rs e) = product_name e /\
  total_profit (fold_left profit_step rs e)
  = fold_left Qplus (map record_profit rs) (total_profit e).
Proof.
  revert e. induction rs as [|r rs IH]; intros e; simpl; [auto|].
  destruct (IH (profit_step e r)) as [H1 H2]. rewrite H1, H2. split; reflexivity.
Qed.

Lemma products_of_aggregate (data : list Js.record) :
  products (aggregate data)
  = sort (fun a b => total_profit b - total_profit a)
         (map set_averages (values (profit_groups data))).
Proof.
  unfold aggregate. simpl.
  destruct (fold_forEach_body data (mk_accumulator 0 0 [])) as [_ [_ H3]].
  now rewrite H3.
Qed.

Lemma profit_group (data : list Js.record) (k : option N) (e : product_profit) :
  In (k, e) (profit_groups data) ->
  exists r rs,
    records_of key_eqb Js.product_id k data = r :: rs /\
    product_id e = k /\
    product_name e = Js.product_name r /\
    total_profit e = sumQ (map record_profit (r :: rs)).
Proof.
  intros He.
  destruct (fold_upsert_entry key_eqb key_eqb_eq Js.product_id
                              profit_init profit_step data k e He)
    as [r [rs [Hrs ->]]].
  exists r, rs. split; [assumption|].
  assert (Js.product_id r = k) as Hkey.
  { assert (In r (records_of key_eqb Js.product_id k data)) as Hin
        by (rewrite Hrs; now left).
    apply filter_In in Hin. now apply key_eqb_eq. }
  destruct (fold_profit_step (r :: rs) (profit_init r)) as [E1 _].
  destruct (fold_profit_step_profit (r :: rs) (profit_init r)) as [E2 E3].
  rewrite E1, E2, E3. simpl. auto.
Qed.

Lemma profit_ids (data : list Js.record) :
  map product_id (map set_averages (values (profit_groups data)))
  = map fst (profit_groups data).
Proof.
  unfold values. rewrite !map_map. apply map_ext_in. intros [k e] Hin.
  destruct (profit_group data k e Hin) as [r [rs [_ [H _]]]]. exact H.
Qed.


Lemma sum_of_products (f : product_profit -> Q) (g : Js.record -> Q)
      (data : list Js.record) :
  (forall r, f (profit_init r) == 0) ->
  (forall e r, f (profit_step e r) == f e + g r) ->
  (forall p, f (set_averages p) = f p) ->
  sumQ (map f (products (aggregate data))) == sumQ (map g data).
Proof.
  intros Hinit Hstep Havg. rewrite products_of_aggregate.
  rewrite (sumQ_permutation
             (Permutation_map f
                (sort_permutation (fun a b => total_profit b - total_profit a)
                   (map set_averages (values (profit_groups data)))))).
  rewrite map_map.
  rewrite (map_ext _ f Havg).
  rewrite (sum_fold_upsert key_eqb Js.product_id profit_init profit_step
                           f g Hinit Hstep data []).
  unfold sumQ at 1. simpl. ring.
Qed.

Lemma aggregate_sums (data : list Js.record) :
  totalRevenue (aggregate data) == sumQ (map total_revenue (products (aggregate data))) /\
  totalCost (aggregate data) == sumQ (map total_cost (products (aggregate data))) /\
  sumQ (map total_profit (products (aggregate data))) == sumQ (map record_profit data) /\
  totalProfit (aggregate data)
  == sumQ (map Js.total_price data) - sumQ (map item_cost data).
Proof.
  assert (totalRevenue (aggregate data) = sumQ (map Js.total_price data) /\
          totalCost (aggregate data) = sumQ (map item_cost data) /\
          totalProfit (aggregate data)
          = sumQ (map Js.total_price data) - sumQ (map item_cost data))
    as [-> [-> ->]].
  { unfold aggregate. simpl.
    destruct (fold_forEach_body data (mk_accumulator 0 0 [])) as [H1 [H2 _]].
    simpl in H1, H2. rewrite H1, H2. repeat split. }
  split; [|split; [|split]].
  - symmetry. apply sum_of_products; intros; simpl; reflexivity.
  - symmetry. apply sum_of_products; intros; simpl; reflexivity.
  - apply sum_of_products; intros; simpl; reflexivity.
  - reflexivity.
Qed.




(** Without that, they differ: a record of 100.00 with a cost of 60.00 that
    stores a profit of 10.00. *)
Lemma profit_card_differs_from_rows :
  let db := mkdb [] [] []
              [SalesRecord.mk (Some 1%N) "INV-000001" (Some 10%N) "ProdA" None None
                              1 10000 10000 (Some 6000%Z) (Some 1000%Z)
                              (Some 1000%Z) 50]
              false in
  totalProfit (getProfitData db 0 100) == 40 /\
  sumQ (map total_profit (products (getProfitData db 0 100))) == 10.
Proof. split; vm_compute; reflexivity. Qed.

End MoreOnProfits.


(** ** More on the trending page *)

Section MoreOnTrending.
Import Js Trending AnalyticsSpec TrendingLoop TrendingExample.
Local Open Scope Q_scope.

Lemma productStats_upsert (data : list Js.record) :
  productStats data
  = fold_left (upsert key_eqb Js.product_id stats_init stats_step) data [].
Proof. reflexivity. Qed.

Lemma fold_stats_step (rs : list Js.record) (e : product_stats) :
  product_id (fold_left stats_step rs e) = product_id e /\
  product_name (fold_left stats_step rs e) = product_name e /\
  total_quantity (fold_left stats_step rs e)
  = fold_left Qplus (map Js.quantity rs) (total_quantity e) /\
  total_revenue (fold_left stats_step rs e)
  = fold_left Qplus (map Js.total_price rs) (total_revenue e).
Proof.
  revert e. induction rs as [|r rs IH]; intros e; simpl; [auto|].
  destruct (IH (stats_step e r)) as [H1 [H2 [H3 H4]]].
  rewrite H1, H2, H3, H4. repeat split.
Qed.

Lemma stats_group (data : list Js.record) (k : option N) (e : product_stats) :
  In (k, e) (productStats data) ->
  exists r rs,
    records_of key_eqb Js.product_id k data = r :: rs /\
    product_id e = k /\
    product_name e = Js.product_name r /\
    total_quantity e = sumQ (map Js.quantity (r :: rs)) /\
    total_revenue e = sumQ (map Js.total_price (r :: rs)).
Proof.
  rewrite productStats_upsert. intros He.
  destruct (fold_upsert_entry key_eqb key_eqb_eq Js.product_id
                              stats_init stats_step data k e He)
    as [r [rs [Hrs ->]]].
  exists r, rs. split; [assumption|].
  assert (Js.product_id r = k) as Hkey.
  { assert (In r (records_of key_eqb Js.product_id k data)) as Hin
        by (rewrite Hrs; now left).
    apply filter_In in Hin. now apply key_eqb_eq. }
  destruct (fold_stats_step (r :: rs) (stats_init r)) as [E1 [E2 [E3 E4]]].
  rewrite E1, E2, E3, E4. simpl. auto.
Qed.

Lemma stats_ids (data : list Js.record) :
  map product_id (values (productStats data)) = map fst (productStats data).
Proof.
  unfold values. rewrite map_map. apply map_ext_in. intros [k e] Hin.
  destruct (stats_group data k e Hin) as [r [rs [_ [H _]]]]. exact H.
Qed.

Lemma trending_in (data : list Js.record) (p : product_stats) :
  In p (trending data) -> In (product_id p, p) (productStats data).
Proof.
  unfold trending, slice0, values. intros Hin.
  assert (In p (map snd (productStats data))) as Hin'.
  { rewrite <- (firstn_skipn 20 (map snd (productStats data))).
    apply in_or_app. now left. }
  apply in_map_iff in Hin'. destruct Hin' as [[k e] [<- He]]. simpl.
  destruct (stats_group data k e He) as [r [rs [_ [-> _]]]]. exact He.
Qed.

Lemma trending_ids_NoDup (data : list Js.record) :
  NoDup (map product_id (trending data)).
Proof.
  unfold trending, slice0.
  assert (NoDup (map product_id (values (productStats data)))) as Hnd.
  { rewrite stats_ids, productStats_upsert.
    apply fold_upsert_keys_NoDup; [apply key_eqb_eq|constructor]. }
  rewrite <- (firstn_skipn 20 (values (productStats data))), map_app in Hnd.
  now apply NoDup_app_remove_r in Hnd.
Qed.




End MoreOnTrending.

(** ** More on the product-sales card *)

Section MoreOnProductSales.
Import Js ProductSales AnalyticsSpec ProductSalesLoop.
Local Open Scope Q_scope.


End MoreOnProductSales.


(** ** From the triggers to the profits page *)

Section TriggerRecords.
Import Sql Materializer Spec Js AnalyticsSpec Examples.
Local Open Scope Z_scope.

(** X22: a sales record written by the triggers, as the profits page reads
    it.  Its stored profit equals its price minus cost per unit times
    quantity, which is what the page takes as cost, exactly when the product
    has no cost on record or the total price of the item is unit price times
    quantity (the schema does not enforce that). *)
Theorem trigger_record_profit_consistent_iff
    (NEW : Invoice.t) (row : InvoiceItem.t * option Product.t) (r : SalesRecord.t) :
  select_row NEW row = Some r ->
  (Number (Js.total_profit (json_row r))
   == Js.total_price (json_row r) - item_cost (json_row r))%Q
  <->
  (joined_cost (snd row) = None \/
   InvoiceItem.total_price (fst row)
   = InvoiceItem.unit_price (fst row) * InvoiceItem.quantity (fst row)).
Proof.
  unfold select_row.
  destruct (Invoice.created_at NEW) as [d|]; [|discriminate].
  destruct (_ && _); [|discriminate].
  intros H. injection H as <-.
  unfold json_row, item_cost, of_numeric, of_integer. simpl.
  destruct (joined_cost (snd row)) as [c|]; simpl;
    unfold Qeq, Qminus, Qplus, Qopp, Qmult, inject_Z; simpl.
  - split.
    + intros H. right. nia.
    + intros [H|H]; [discriminate|]. rewrite H. nia.
  - split; [now left|]. intros _. nia.
Qed.

Lemma trigger_record_profit_consistent_iff_witness :
  (Number (Js.total_profit (json_row shirt_sale))
   == Js.total_price (json_row shirt_sale) - item_cost (json_row shirt_sale))%Q
  <->
  (joined_cost (snd (shirt_item, Some shirt)) = None \/
   InvoiceItem.total_price (fst (shirt_item, Some shirt))
   = InvoiceItem.unit_price (fst (shirt_item, Some shirt))
     * InvoiceItem.quantity (fst (shirt_item, Some shirt))).
Proof.
  apply (@trigger_record_profit_consistent_iff
           invoice_1_done (shirt_item, Some shirt) shirt_sale).
  reflexivity.
Defined.

End TriggerRecords.

(** ** Marking an invoice pending and done again *)

Section RoundTrip.
Import Sql Materializer Spec Examples.
Local Open Scope string_scope.
Local Open Scope list_scope.

Lemma sales_of_new_records (rs : list SalesRecord.t) (id id' : N) :
  (forall r, In r rs -> SalesRecord.invoice_id r = Some id) ->
  filter (fun r => uuid_matches (SalesRecord.invoice_id r) id') rs
  = if N.eqb id id' then rs else [].
Proof.
  intros Hids. induction rs as [|r rs IH]; simpl.
  - now destruct (N.eqb id id').
  - rewrite IH by (intros r' Hr'; apply Hids; now right).
    rewrite (Hids r) by now left. unfold uuid_matches, uuid_eqb.
    now destruct (N.eqb id id').
Qed.

(** X23: marking a done invoice pending and then done again replaces its
    sales records.  Whatever was stored for the invoice before, it then has
    one record per item, computed from the items and the current costs of
    the products; the records of the other invoices are the same. *)
Theorem done_pending_done_rematerializes
    (db db1 db2 : database) (id : N) (OLD : Invoice.t) :
  well_formed db ->
  find_invoice db id = Some OLD ->
  Invoice.payment_status OLD = Some "done" ->
  update_payment_status db id (Some "pending") = Some db1 ->
  update_payment_status db1 id (Some "done") = Some db2 ->
  Forall2 (materializes db OLD) (items_of db id) (sales_of db2 id) /\
  (forall id', id' <> id -> sales_of db2 id' = sales_of db id') /\
  find_invoice db2 id = Some OLD /\
  invoice_items db2 = invoice_items db /\
  products db2 = products db.
Proof.
  intros Hwf Hfind Hdone H1 H2.
  pose proof (find_invoice_some _ _ Hfind) as [_ Hid].
  assert (set_payment_status (set_payment_status OLD (Some "pending")) (Some "done")
          = OLD) as HNEW.
  { destruct OLD as [i n s c]. simpl in Hdone. subst s. reflexivity. }
  unfold update_payment_status in H1. rewrite Hfind in H1. simpl in H1.
  unfold manage_sales_records_on_invoice_update in H1. simpl in H1.
  rewrite Hdone in H1. simpl in H1. injection H1 as <-.
  unfold update_payment_status in H2.
  assert (find_invoice
            (delete_sales_records
               (set_invoices db (updated_invoices db id (Some "pending")))
               (set_payment_status OLD (Some "pending"))) id
          = Some (set_payment_status OLD (Some "pending"))) as Hfind1
      by (unfold find_invoice; simpl; now apply find_invoice_updated).
  rewrite Hfind1 in H2. simpl in H2.
  unfold manage_sales_records_on_invoice_update in H2. simpl in H2.
  destruct (insert_sales_records _ _) as [db2'|] eqn:Hins; [|discriminate].
  injection H2 as <-.
  apply insert_sales_records_added in Hins.
  destruct Hins as [rs [-> [Hids [_ HF]]]].
  simpl in Hids, HF. rewrite Hid in Hids, HF.
  specialize (HF (products_pkey Hwf)).
  unfold sales_of, find_invoice. simpl. rewrite Hid.
  split; [|split; [|split; [|split]]]; try reflexivity.
  - rewrite filter_app, sales_of_same_after_delete. simpl.
    rewrite (sales_of_new_records rs id Hids), N.eqb_refl.
    rewrite <- HNEW.
    eapply Forall2_materializes_same_products; [|exact HF]. reflexivity.
  - intros id' Hne. rewrite filter_app.
    rewrite (sales_of_other_after_delete _ Hne).
    rewrite (sales_of_new_records rs id' Hids).
    assert (N.eqb id id' = false) as -> by (apply N.eqb_neq; congruence).
    apply app_nil_r.
  - rewrite <- HNEW at 2.
    apply (@find_invoice_updated
             (set_invoices db (updated_invoices db id (Some "pending")))
             id (Some "done") (set_payment_status OLD (Some "pending"))).
    unfold find_invoice. simpl. now apply find_invoice_updated.
Qed.

Lemma done_pending_done_rematerializes_witness :
  Forall2 (materializes done_db invoice_1_done) (items_of done_db 1)
          (sales_of (run done_db [UpdatePaymentStatus 1 (Some "pending");
                                  UpdatePaymentStatus 1 (Some "done")]) 1) /\
  (forall id', id' <> 1%N ->
               sales_of (run done_db [UpdatePaymentStatus 1 (Some "pending");
                                      UpdatePaymentStatus 1 (Some "done")]) id'
               = sales_of done_db id') /\
  find_invoice (run done_db [UpdatePaymentStatus 1 (Some "pending");
                             UpdatePaymentStatus 1 (Some "done")]) 1
  = Some invoice_1_done /\
  invoice_items (run done_db [UpdatePaymentStatus 1 (Some "pending");
                              UpdatePaymentStatus 1 (Some "done")])
  = invoice_items done_db /\
  products (run done_db [UpdatePaymentStatus 1 (Some "pending");
                         UpdatePaymentStatus 1 (Some "done")])
  = products done_db.
Proof.
  apply (@done_pending_done_rematerializes
           done_db (run done_db [UpdatePaymentStatus 1 (Some "pending")]) _
           1 invoice_1_done).
  - apply well_formed_done_db.
  - reflexivity.
  - reflexivity.
  - reflexivity.
  - reflexivity.
Defined.

End RoundTrip.


(** ** An invoice and its items, in the order of the application *)

Section ItemsAfterInvoice.
Import Sql Materializer Spec Examples.
Local Open Scope string_scope.
Local Open Scope list_scope.

Lemma sales_of_fresh_invoice (db : database) (id : N) :
  well_formed db ->
  ~ In id (map Invoice.id (invoices db)) ->
  sales_of db id = [].
Proof.
  intros Hwf Hfresh.
  destruct (sales_of db id) as [|r l] eqn:E; [reflexivity|].
  assert (sales_of db id <> []) as Hne by (rewrite E; discriminate).
  apply sales_of_nonempty in Hne. destruct Hne as [r' [Hin Hid]].
  elim Hfresh. exact (sales_records_fkey Hwf r' Hin Hid).
Qed.

Lemma insert_items_sales_records (items : list InvoiceItem.t) (db : database) :
  sales_records (run db (map InsertInvoiceItem items)) = sales_records db /\
  invoices (run db (map InsertInvoiceItem items)) = invoices db.
Proof.
  revert db. induction items as [|ii items IH]; intros db; simpl; [auto|].
  unfold insert_invoice_item. destruct (_ && _); [|apply IH].
  destruct (IH (mkdb (products db) (invoices db) (invoice_items db ++ [ii])
                     (sales_records db) (create_sales_on_invoice_insert db)))
    as [H1 H2].
  rewrite H1, H2. auto.
Qed.

(** X24: an invoice that is inserted and then given its items has no sales
    record, whatever its status and whether the insert trigger is installed
    or not: the trigger of the invoice runs before the items exist, and no
    trigger runs on [invoice_items].  [sales_records] is as it was before
    the invoice. *)
Theorem items_after_invoice_have_no_sales_records
    (db db1 : database) (now : Z) (row : new_invoice) (items : list InvoiceItem.t) :
  well_formed db ->
  insert_invoice db now row = Some db1 ->
  let db2 := run db1 (map InsertInvoiceItem items) in
  sales_records db2 = sales_records db /\
  sales_of db2 (new_id row) = [] /\
  exists i, find_invoice db2 (new_id row) = Some i /\
            Invoice.payment_status i
            = with_default (new_payment_status row) (Some "done").
Proof.
  intros Hwf H db2.
  apply insert_invoice_cases in H.
  destruct H as [number [rs [_ [_ [Hfresh [_ [-> [_ [Hne _]]]]]]]]].
  assert (rs = []) as ->.
  { destruct rs as [|r rs]; [reflexivity|].
    destruct Hne as [_ Hne]; [discriminate|].
    elim Hne. now apply items_of_fresh_invoice. }
  destruct (insert_items_sales_records items
              (mkdb (products db)
                    (invoices db ++
                     [Invoice.mk (new_id row) number
                        (with_default (new_payment_status row) (Some "done"))
                        (with_default (new_created_at row) (Some now))])
                    (invoice_items db) (sales_records db ++ [])
                    (create_sales_on_invoice_insert db))) as [Hs Hi].
  fold db2 in Hs, Hi. simpl in Hs, Hi. rewrite app_nil_r in Hs.
  split; [exact Hs|]. split.
  - unfold sales_of. rewrite Hs. now apply sales_of_fresh_invoice.
  - unfold find_invoice. rewrite Hi.
    set (NEW := Invoice.mk (new_id row) number _ _).
    destruct (@find_new_invoice (invoices db) NEW Hfresh) as [Hfind _].
    exists NEW. split; [exact Hfind|reflexivity].
Qed.

Lemma items_after_invoice_have_no_sales_records_witness :
  let db2 := run (mkdb [shirt] [invoice_1_done] [] [] true)
                 (map InsertInvoiceItem [shirt_item; cap_item]) in
  sales_records db2 = sales_records (mkdb [shirt] [] [] [] true) /\
  sales_of db2 (new_id (plain_invoice 1)) = [] /\
  exists i, find_invoice db2 (new_id (plain_invoice 1)) = Some i /\
            Invoice.payment_status i
            = with_default (new_payment_status (plain_invoice 1)) (Some "done").
Proof.
  apply (@items_after_invoice_have_no_sales_records
           (mkdb [shirt] [] [] [] true) (mkdb [shirt] [invoice_1_done] [] [] true)
           100 (plain_invoice 1) [shirt_item; cap_item]).
  - constructor; simpl.
    + repeat constructor. intros [].
    + constructor.
    + intros ii [].
    + intros r id [].
  - reflexivity.
Defined.

Lemma string_mem_in (n : string) (l : list string) :
  string_mem n l = true <-> In n l.
Proof.
  unfold string_mem. rewrite existsb_exists. split.
  - intros [x [Hin Heq]]. apply String.eqb_eq in Heq. now subst.
  - intros Hin. exists n. split; [assumption | apply String.eqb_refl].
Qed.

(** X25: an invoice number that the insert supplies is kept as it is, in
    any format: the trigger does not number the row, so the overflow of
    the numbering cannot fail the insert; the insert fails when the number
    is taken, and otherwise the new invoice carries it. *)
Theorem supplied_invoice_number_is_kept
    (db : database) (now : Z) (row : new_invoice) (n : string) :
  new_invoice_number row = Some n ->
  n <> "" ->
  InvoiceNumber.generate_invoice_number (invoice_numbers db) (Some n)
  = Some (Some n) /\
  (In n (invoice_numbers db) -> insert_invoice db now row = None) /\
  (forall db', insert_invoice db now row = Some db' ->
     find_invoice db' (new_id row)
     = Some (Invoice.mk (new_id row) n
                        (with_default (new_payment_status row) (Some "done"))
                        (with_default (new_created_at row) (Some now)))).
Proof.
  intros Hn Hne.
  assert (InvoiceNumber.generate_invoice_number (invoice_numbers db) (Some n)
          = Some (Some n)) as Hgen.
  { unfold InvoiceNumber.generate_invoice_number. simpl.
    destruct (String.eqb n "") eqn:E; [|reflexivity].
    apply String.eqb_eq in E. contradiction. }
  split; [exact Hgen|]. split.
  - intros Hin. unfold insert_invoice. fold (invoice_numbers db).
    rewrite Hn, Hgen.
    apply string_mem_in in Hin. rewrite Hin.
    now rewrite andb_false_r.
  - intros db' H. apply insert_invoice_cases in H.
    destruct H as [number [rs [Hgen' [_ [Hfresh [_ [-> _]]]]]]].
    fold (invoice_numbers db) in Hgen'. rewrite Hn, Hgen in Hgen'.
    injection Hgen' as <-.
    unfold find_invoice. simpl.
    set (NEW := Invoice.mk (new_id row) n _ _).
    now destruct (@find_new_invoice (invoices db) NEW Hfresh).
Qed.

Lemma supplied_invoice_number_is_kept_witness :
  InvoiceNumber.generate_invoice_number
    (invoice_numbers
       (mkdb [] [Invoice.mk 1 "INV-2147483647" (Some "done") (Some 100%Z)]
             [] [] false))
    (Some "2024/17")
  = Some (Some "2024/17") /\
  (In "2024/17"
      (invoice_numbers
         (mkdb [] [Invoice.mk 1 "INV-2147483647" (Some "done") (Some 100%Z)]
               [] [] false)) ->
   insert_invoice
     (mkdb [] [Invoice.mk 1 "INV-2147483647" (Some "done") (Some 100%Z)]
           [] [] false)
     200 (mk_new_invoice 2 (Some "2024/17") DEFAULT DEFAULT)
   = None) /\
  (forall db',
     insert_invoice
       (mkdb [] [Invoice.mk 1 "INV-2147483647" (Some "done") (Some 100%Z)]
             [] [] false)
       200 (mk_new_invoice 2 (Some "2024/17") DEFAULT DEFAULT)
     = Some db' ->
     find_invoice db' (new_id (mk_new_invoice 2 (Some "2024/17") DEFAULT DEFAULT))
     = Some (Invoice.mk
               (new_id (mk_new_invoice 2 (Some "2024/17") DEFAULT DEFAULT))
               "2024/17"
               (with_default
                  (new_payment_status
                     (mk_new_invoice 2 (Some "2024/17") DEFAULT DEFAULT))
                  (Some "done"))
               (with_default
                  (new_created_at
                     (mk_new_invoice 2 (Some "2024/17") DEFAULT DEFAULT))
                  (Some 200%Z)))).
Proof.
  apply (@supplied_invoice_number_is_kept
           (mkdb [] [Invoice.mk 1 "INV-2147483647" (Some "done") (Some 100%Z)]
                 [] [] false)
           200 (mk_new_invoice 2 (Some "2024/17") DEFAULT DEFAULT) "2024/17").
  - reflexivity.
  - discriminate.
Defined.

End ItemsAfterInvoice.

(** ** A period without sales *)

Section EmptyPeriod.
Import Js AnalyticsSpec Examples.
Local Open Scope Q_scope.

Lemma select_sales_records_none (db : database) (startDate endDate : Z) :
  (forall r, In r (sales_records db) ->
             (SalesRecord.sale_date r < startDate \/
              endDate < SalesRecord.sale_date r)%Z) ->
  select_sales_records db startDate endDate = [].
Proof.
  unfold select_sales_records. intros Hout.
  induction (sales_records db) as [|r rs IH]; simpl; [reflexivity|].
  assert ((startDate <=? SalesRecord.sale_date r)%Z
          && (SalesRecord.sale_date r <=? endDate)%Z = false) as ->.
  { apply andb_false_iff.
    destruct (Hout r (or_introl eq_refl)) as [H|H];
      [left; apply Z.leb_gt | right; apply Z.leb_gt]; assumption. }
  apply IH. intros r' Hr'. apply Hout. now right.
Qed.

(** X26: a period in which nothing was sold (in particular a period whose
    end lies before its start).  The profits page shows zero revenue, cost
    and profit and no product, and the trending table and the product-sales
    card have no row; nothing is divided. *)
Theorem no_sales_in_period
    (db : database) (startDate endDate : Z) (sortBy : Trending.sort_by) :
  (forall r, In r (sales_records db) ->
             (SalesRecord.sale_date r < startDate \/
              endDate < SalesRecord.sale_date r)%Z) ->
  Profits.totalRevenue (Profits.getProfitData db startDate endDate) == 0 /\
  Profits.totalCost (Profits.getProfitData db startDate endDate) == 0 /\
  Profits.totalProfit (Profits.getProfitData db startDate endDate) == 0 /\
  Profits.products (Profits.getProfitData db startDate endDate) = [] /\
  Trending.displayed sortBy db startDate endDate = [] /\
  ProductSales.queryFn db startDate endDate = [].
Proof.
  intros Hout.
  unfold Profits.getProfitData, Trending.displayed, Trending.getTrendingProducts,
    ProductSales.queryFn.
  rewrite (@select_sales_records_none db startDate endDate Hout).
  repeat split; reflexivity.
Qed.

Lemma no_sales_in_period_witness :
  Profits.totalRevenue (Profits.getProfitData done_db 300 200) == 0 /\
  Profits.totalCost (Profits.getProfitData done_db 300 200) == 0 /\
  Profits.totalProfit (Profits.getProfitData done_db 300 200) == 0 /\
  Profits.products (Profits.getProfitData done_db 300 200) = [] /\
  Trending.displayed Trending.revenue done_db 300 200 = [] /\
  ProductSales.queryFn done_db 300 200 = [].
Proof.
  apply (@no_sales_in_period done_db 300 200 Trending.revenue).
  intros r Hr. left. vm_compute in Hr.
  destruct Hr as [<-|[<-|[]]]; reflexivity.
Defined.

End EmptyPeriod.
